(** * hippo-tracker: the event normalisation and sanitisation engine

    A shallow embedding of the three iterations of the tracker that the
    repository holds, and the properties of its classifier, redactor,
    sanitizer, pruner and composer.

    - [Index]   : src/index.js, first document (lines 1-193)
    - [Legacy]  : src/index.js, second document (lines 194-393)
    - [Part000] : src/unnamed/part_000

    JavaScript values are modelled by the inductive type [value]; an object
    is the list of its own enumerable properties in the order in which
    [Object.entries] lists them. *)

From Stdlib Require Import List String Ascii ZArith Bool Lia DecimalString.
Import ListNotations.
Local Open Scope string_scope.
Local Open Scope Z_scope.

(* ===================================================================== *)
(** ** The JavaScript fragment the engine runs on *)
(* ===================================================================== *)

Unset Elimination Schemes.
Inductive value : Type :=
| VUndef
| VNull
| VBool (b : bool)
| VNum (n : Z)
| VStr (s : string)
| VArr (items : list value)
| VObj (props : list (string * value)).
Set Elimination Schemes.

(** Numbers are the integer-valued ones (ids, dates, amounts); the engine
    never computes with them, it only tests and prints them. *)

Definition props_t := list (string * value).

(** Structural induction that reaches through arrays and property lists. *)
Fixpoint value_tree_ind (P : value -> Prop)
    (Hundef : P VUndef) (Hnull : P VNull)
    (Hbool : forall b, P (VBool b)) (Hnum : forall n, P (VNum n))
    (Hstr : forall s, P (VStr s))
    (Harr : forall items, Forall P items -> P (VArr items))
    (Hobj : forall props, Forall (fun kv => P (snd kv)) props -> P (VObj props))
    (v : value) {struct v} : P v :=
  let rec := value_tree_ind P Hundef Hnull Hbool Hnum Hstr Harr Hobj in
  match v with
  | VUndef => Hundef
  | VNull => Hnull
  | VBool b => Hbool b
  | VNum n => Hnum n
  | VStr s => Hstr s
  | VArr items =>
      Harr items
        ((fix all (l : list value) : Forall P l :=
            match l with
            | [] => Forall_nil P
            | x :: r => Forall_cons x (rec x) (all r)
            end) items)
  | VObj props =>
      Hobj props
        ((fix all (l : props_t) : Forall (fun kv => P (snd kv)) l :=
            match l with
            | [] => Forall_nil _
            | kv :: r => Forall_cons kv (rec (snd kv)) (all r)
            end) props)
  end.

(** [v == null] : true of [null] and [undefined] only. *)
Definition nullish (v : value) : bool :=
  match v with
  | VUndef | VNull => true
  | _ => false
  end.

(** ToBoolean. *)
Definition truthy (v : value) : bool :=
  match v with
  | VUndef | VNull => false
  | VBool b => b
  | VNum n => negb (n =? 0)
  | VStr s => negb (String.eqb s EmptyString)
  | VArr _ | VObj _ => true
  end.

(** [Array.isArray(v) && v.length === 0] *)
Definition isEmptyArray (v : value) : bool :=
  match v with VArr [] => true | _ => false end.

(** [a ?? b] *)
Definition coalesce (a b : value) : value :=
  if nullish a then b else a.
Infix "??" := coalesce (at level 45, left associativity).

(** *** Own properties *)

Fixpoint lookup (k : string) (l : props_t) : option value :=
  match l with
  | [] => None
  | (k', v) :: r => if String.eqb k k' then Some v else lookup k r
  end.

(** Defining the own property [k] of an object, as an object literal and
    [Object.fromEntries] do: an existing key keeps its place. *)
Fixpoint obj_set (l : props_t) (k : string) (v : value) : props_t :=
  match l with
  | [] => [(k, v)]
  | (k', v') :: r =>
      if String.eqb k k' then (k', v) :: r else (k', v') :: obj_set r k v
  end.

Definition keys (l : props_t) : list string := map fst l.

(** [o[k] = v], an assignment, on an object created by [{}].  Under the name
    [__proto__] it finds the setter of [Object.prototype], which defines no
    own property of [o]; the prototype that the setter may change is not an
    own property, and neither [Object.entries] nor [JSON.stringify] reads
    it. *)
Definition put (o : props_t) (k : string) (v : value) : props_t :=
  if String.eqb k "__proto__" then o else obj_set o k v.

(** [Object.fromEntries]: the entries are defined one after the other. *)
Definition define (out : props_t) (kv : string * value) : props_t :=
  obj_set out (fst kv) (snd kv).

Definition fromEntries (es : props_t) : props_t :=
  fold_left define es [].

(** Reading a property of a value that is neither [null] nor [undefined].
    The engine reads named data properties only; on a string or an array
    the one such property is [length]. *)
Definition member (v : value) (k : string) : value :=
  match v with
  | VObj l => match lookup k l with Some x => x | None => VUndef end
  | VStr s => if String.eqb k "length" then VNum (Z.of_nat (String.length s)) else VUndef
  | VArr l => if String.eqb k "length" then VNum (Z.of_nat (List.length l)) else VUndef
  | _ => VUndef
  end.

(** [v?.k] *)
Definition opt_get (v : value) (k : string) : value :=
  if nullish v then VUndef else member v k.
Notation "v ?. k" := (opt_get v k) (at level 25, left associativity, format "v ?. k").

(** *** Exceptions *)

Inductive error : Type := TypeError.

Inductive result (A : Type) : Type :=
| Ok (a : A)
| Throw (e : error).
Arguments Ok {A} a.
Arguments Throw {A} e.

Definition bind {A B} (c : result A) (f : A -> result B) : result B :=
  match c with
  | Ok a => f a
  | Throw e => Throw e
  end.
Notation "x <- c ;; k" := (bind c (fun x => k))
  (at level 61, c at next level, right associativity).

(** [try { c } catch { return d }] *)
Definition try_catch {A} (c : result A) (d : A) : A :=
  match c with
  | Ok a => a
  | Throw _ => d
  end.

(** [v.k]: a [TypeError] when [v] is [null] or [undefined]. *)
Definition get (v : value) (k : string) : result value :=
  if nullish v then Throw TypeError else Ok (member v k).

Definition mapM {A B} (f : A -> result B) : list A -> result (list B) :=
  fix go (l : list A) : result (list B) :=
    match l with
    | [] => Ok []
    | x :: r => y <- f x ;; ys <- go r ;; Ok (y :: ys)
    end.

(** *** Strings *)

(** The clamping of [slice(start, end)] on a receiver of length [len]. *)
Definition clamp (len i : Z) : Z :=
  if i <? 0 then Z.max (len + i) 0 else Z.min i len.

(** [String.prototype.slice(start, end)] *)
Definition str_slice (s : string) (start end_ : Z) : string :=
  let len := Z.of_nat (String.length s) in
  let from := clamp len start in
  let to := clamp len end_ in
  substring (Z.to_nat from) (Z.to_nat (Z.max (to - from) 0)) s.

(** [Array.prototype.slice(start, end)] *)
Definition arr_slice (l : list value) (start end_ : Z) : list value :=
  let len := Z.of_nat (List.length l) in
  let from := clamp len start in
  let to := clamp len end_ in
  firstn (Z.to_nat (Z.max (to - from) 0)) (skipn (Z.to_nat from) l).

(** [v.slice(a, b)], a method of strings and arrays only. *)
Definition call_slice (v : value) (a b : Z) : result value :=
  match v with
  | VStr s => Ok (VStr (str_slice s a b))
  | VArr l => Ok (VArr (arr_slice l a b))
  | _ => Throw TypeError
  end.

(** [v.map(f)], a method of arrays only. *)
Definition call_map (v : value) (f : value -> result value) : result value :=
  match v with
  | VArr l => l' <- mapM f l ;; Ok (VArr l')
  | _ => Throw TypeError
  end.

(** *** JSON.stringify *)

Definition hex_digit (n : N) : ascii :=
  ascii_of_N (if (n <? 10)%N then 48 + n else 87 + n)%N.

Definition chr (n : N) : string := String (ascii_of_N n) EmptyString.
Definition backslash : string := chr 92.
Definition dquote : string := chr 34.

(** QuoteJSONString, one code unit at a time. *)
Definition quote_char (c : ascii) : string :=
  let n := N_of_ascii c in
  if (n =? 34)%N then backslash ++ dquote
  else if (n =? 92)%N then backslash ++ backslash
  else if (n =? 8)%N then backslash ++ "b"
  else if (n =? 9)%N then backslash ++ "t"
  else if (n =? 10)%N then backslash ++ "n"
  else if (n =? 12)%N then backslash ++ "f"
  else if (n =? 13)%N then backslash ++ "r"
  else if (n <? 32)%N then
    backslash ++ "u00" ++ String (hex_digit (n / 16)) (String (hex_digit (n mod 16)) EmptyString)
  else String c EmptyString.

Fixpoint quote_chars (s : string) : string :=
  match s with
  | EmptyString => EmptyString
  | String c r => quote_char c ++ quote_chars r
  end.

Definition quote (s : string) : string := dquote ++ quote_chars s ++ dquote.

Definition number_to_string (n : Z) : string :=
  NilZero.string_of_int (Z.to_int n).

Fixpoint join (sep : string) (l : list string) : string :=
  match l with
  | [] => EmptyString
  | [x] => x
  | x :: r => x ++ sep ++ join sep r
  end.

(** SerializeJSONProperty: [None] stands for [undefined].  An [undefined]
    array element prints as [null]; an [undefined] property is left out. *)
Fixpoint serialize (v : value) : option string :=
  match v with
  | VUndef => None
  | VNull => Some "null"
  | VBool true => Some "true"
  | VBool false => Some "false"
  | VNum n => Some (number_to_string n)
  | VStr s => Some (quote s)
  | VArr items =>
      Some ("[" ++ join ","
              (map (fun x => match serialize x with Some t => t | None => "null" end) items)
            ++ "]")
  | VObj props =>
      Some ("{" ++ join ","
              (flat_map (fun kv =>
                           match serialize (snd kv) with
                           | Some t => [quote (fst kv) ++ ":" ++ t]
                           | None => []
                           end) props)
            ++ "}")
  end.

(** [JSON.stringify(v)] *)
Definition JSON_stringify (v : value) : value :=
  match serialize v with
  | Some s => VStr s
  | None => VUndef
  end.

(** [JSON.stringify(v)] as a call: what it returns, or what it raises.  On
    a tree of [value] the built-in returns, which is [stringify_tree]; it raises
    on what [value] does not hold (an object that contains itself, a
    BigInt), and a [try] block around the call is there for that. *)
Definition serializer := value -> result value.

Definition stringify_tree : serializer := fun v => Ok (JSON_stringify v).

(** *** The Telegraf context

    The middleware always receives a context object; it is modelled by its
    properties ([update], [message], [from], [chat], [callbackQuery], ...).
    A property that is absent reads as [undefined]. *)
Definition context := props_t.

(** [ctx.k] *)
Definition prop (ctx : context) (k : string) : value := member (VObj ctx) k.

(** [{...v}]: the own properties of an object; [null] and [undefined]
    spread to nothing. *)
Definition spread (v : value) : props_t :=
  match v with
  | VObj l => l
  | _ => []
  end.

(** A run of [if (o.key) return tag;] statements closed by a last
    [return]: the first key whose value is truthy decides. *)
Fixpoint firstMatch (o : value) (rules : list (string * string))
    (otherwise : string) : result string :=
  match rules with
  | [] => Ok otherwise
  | (key, tag) :: rest =>
      v <- get o key ;;
      if truthy v then Ok tag else firstMatch o rest otherwise
  end.

(* ===================================================================== *)
(** ** src/index.js, first document *)
(* ===================================================================== *)

Module Index.

(** The keys tested on the update, in source order (lines 84-99). *)
Definition updateRules : list (string * string) :=
  [ ("message", "message");
    ("callback_query", "callback_query");
    ("inline_query", "inline_query");
    ("chosen_inline_result", "chosen_inline_result");
    ("poll", "poll");
    ("poll_answer", "poll_answer");
    ("pre_checkout_query", "pre_checkout_query");
    ("shipping_query", "shipping_query");
    ("chat_join_request", "chat_join_request");
    ("chat_member", "chat_member");
    ("my_chat_member", "my_chat_member");
    ("business_message", "business_message");
    ("edited_business_message", "edited_business_message");
    ("deleted_business_messages", "deleted_business_messages");
    ("message_reaction", "message_reaction");
    ("message_reaction_count", "message_reaction_count") ].

Definition detectEventType (ctx : context) : result string :=
  let update := prop ctx "update" in
  firstMatch update updateRules "unknown".

Definition extractTgDate (ctx : context) : value :=
  (prop ctx "message")?."date" ??
  (prop ctx "editedMessage")?."date" ??
  (prop ctx "channelPost")?."date" ??
  (prop ctx "editedChannelPost")?."date" ??
  (prop ctx "callbackQuery")?."message"?."date" ??
  (prop ctx "businessMessage")?."date" ??
  (prop ctx "editedBusinessMessage")?."date" ??
  VNull.

(** Lines 135-136. *)
Definition safeText (text : value) (max : Z) : value :=
  match text with
  | VStr s => VStr (str_slice s 0 max)
  | _ => VNull
  end.

(** Lines 182-193. *)
Fixpoint removeNulls (obj : value) : value :=
  match obj with
  | VArr items =>
      VArr (filter (fun v => negb (nullish v)) (map removeNulls items))
  | VObj props =>
      let cleaned :=
        fromEntries
          (filter (fun kv => negb (nullish (snd kv)) && negb (isEmptyArray (snd kv)))
             (map (fun kv => (fst kv, removeNulls (snd kv))) props)) in
      if 0 <? Z.of_nat (List.length (keys cleaned)) then VObj cleaned else VNull
  | _ => obj
  end.

(** Lines 162-170, for any outcome of the call of [JSON.stringify]. *)
Definition raw_update_with (stringify : serializer) (ctx : context)
    (includeRawUpdate : bool) : value :=
  if includeRawUpdate
  then try_catch
         (if truthy (prop ctx "update")
          then stringify (prop ctx "update")
          else Ok VNull)
         VNull
  else VNull.

(** The object literal of lines 138-171. *)
Definition payload_with (stringify : serializer) (ctx : context) (bot : value)
    (includeRawUpdate : bool) (maxTextLength : Z) : value :=
  VObj
    [ ("bot", VObj
         [ ("username", bot?."botInfo"?."username" ?? VNull);
           ("id", bot?."botInfo"?."id" ?? VNull) ]);
      ("user", VObj
         [ ("id", (prop ctx "from")?."id" ?? VNull);
           ("username", (prop ctx "from")?."username" ?? VNull);
           ("first_name", (prop ctx "from")?."first_name" ?? VNull);
           ("last_name", (prop ctx "from")?."last_name" ?? VNull);
           ("language_code", (prop ctx "from")?."language_code" ?? VNull) ]);
      ("chat", VObj
         [ ("id", (prop ctx "chat")?."id" ?? VNull);
           ("type", (prop ctx "chat")?."type" ?? VNull);
           ("title", (prop ctx "chat")?."title" ?? VNull);
           ("username", (prop ctx "chat")?."username" ?? VNull) ]);
      ("message", safeText ((prop ctx "message")?."text") maxTextLength);
      ("callback_query", safeText ((prop ctx "callbackQuery")?."data") maxTextLength);
      ("inline_query", safeText ((prop ctx "inlineQuery")?."query") maxTextLength);
      ("raw_update", raw_update_with stringify ctx includeRawUpdate) ].

Definition safeCtx_with (stringify : serializer) (ctx : context) (bot : value)
    (includeRawUpdate : bool) (maxTextLength : Z) : value :=
  removeNulls (payload_with stringify ctx bot includeRawUpdate maxTextLength).

(** On the trees of [value], where [JSON.stringify] returns. *)
Definition payload (ctx : context) (bot : value)
    (includeRawUpdate : bool) (maxTextLength : Z) : value :=
  payload_with stringify_tree ctx bot includeRawUpdate maxTextLength.

Definition safeCtx (ctx : context) (bot : value)
    (includeRawUpdate : bool) (maxTextLength : Z) : value :=
  removeNulls (payload ctx bot includeRawUpdate maxTextLength).

(** The record the middleware posts (lines 31-42); [now] is the reading of
    [Date.now()]. *)
Definition hippoTrack_payload_with (stringify : serializer) (ctx : context)
    (includeRawUpdate : bool) (maxTextLength : Z) (now : Z) : result value :=
  eventType <- detectEventType ctx ;;
  let safeData :=
    safeCtx_with stringify ctx (prop ctx "telegram") includeRawUpdate maxTextLength in
  Ok (VObj
        (obj_set
           (obj_set
              (obj_set (spread safeData) "event_type" (VStr eventType))
              "tg_date" (extractTgDate ctx))
           "app_date" (VNum (now / 1000)))).

Definition hippoTrack_payload (ctx : context)
    (includeRawUpdate : bool) (maxTextLength : Z) (now : Z) : result value :=
  eventType <- detectEventType ctx ;;
  let safeData := safeCtx ctx (prop ctx "telegram") includeRawUpdate maxTextLength in
  Ok (VObj
        (obj_set
           (obj_set
              (obj_set (spread safeData) "event_type" (VStr eventType))
              "tg_date" (extractTgDate ctx))
           "app_date" (VNum (now / 1000)))).

End Index.

(* ===================================================================== *)
(** ** src/index.js, second document *)
(* ===================================================================== *)

Module Legacy.

(** The keys tested on [update.message] (lines 237-248). *)
Definition messageRules : list (string * string) :=
  [ ("successful_payment", "successful_payment");
    ("invoice", "invoice");
    ("text", "text_message");
    ("photo", "photo_message");
    ("video", "video_message");
    ("document", "document_message");
    ("audio", "audio_message");
    ("voice", "voice_message");
    ("sticker", "sticker_message");
    ("poll", "poll_message");
    ("contact", "contact_message");
    ("location", "location_message") ].

(** The keys tested on the update after [message] (lines 251-263). *)
Definition updateRules : list (string * string) :=
  [ ("edited_message", "edited_message");
    ("channel_post", "channel_post");
    ("edited_channel_post", "edited_channel_post");
    ("inline_query", "inline_query");
    ("chosen_inline_result", "chosen_inline_result");
    ("callback_query", "callback_query");
    ("shipping_query", "shipping_query");
    ("pre_checkout_query", "pre_checkout_query");
    ("poll", "poll");
    ("poll_answer", "poll_answer");
    ("my_chat_member", "my_chat_member");
    ("chat_member", "chat_member");
    ("chat_join_request", "chat_join_request") ].

Definition detectEventType (ctx : context) : result string :=
  let update := prop ctx "update" in
  message <- get update "message" ;;
  if truthy message
  then firstMatch message messageRules "message"
  else firstMatch update updateRules "unknown".

(** Lines 377-390, nested in [safeCtx]. *)
Fixpoint removeNulls (obj : value) : value :=
  match obj with
  | VArr items =>
      VArr (filter (fun v => negb (nullish v)) (map removeNulls items))
  | VObj props =>
      let cleaned :=
        fromEntries
          (filter (fun kv => negb (nullish (snd kv)) && negb (isEmptyArray (snd kv)))
             (map (fun kv => (fst kv, removeNulls (snd kv))) props)) in
      if 0 <? Z.of_nat (List.length (keys cleaned)) then VObj cleaned else VNull
  | _ => obj
  end.

(** [v?.slice(0, 200)] *)
Definition opt_slice200 (v : value) : result value :=
  if nullish v then Ok VUndef else call_slice v 0 200.

(** [ctx.a.b] *)
Definition path2 (ctx : context) (a b : string) : result value :=
  get (prop ctx a) b.

(** [ctx.a.b.c] *)
Definition path3 (ctx : context) (a b c : string) : result value :=
  x <- get (prop ctx a) b ;; get x c.

(** Lines 304-319. *)
Definition media (ctx : context) : result value :=
  let message := prop ctx "message" in
  photo <- (if nullish (message?."photo") then Ok VUndef
            else call_map (message?."photo") (fun p => get p "file_id")) ;;
  poll <- (if truthy (message?."poll")
           then question <- path3 ctx "message" "poll" "question" ;;
                options <- path3 ctx "message" "poll" "options" ;;
                texts <- call_map options (fun o => get o "text") ;;
                Ok (VObj [("question", question); ("options", texts)])
           else Ok VNull) ;;
  Ok (VObj
        [ ("photo", photo ?? VNull);
          ("document", message?."document"?."file_id" ?? VNull);
          ("video", message?."video"?."file_id" ?? VNull);
          ("audio", message?."audio"?."file_id" ?? VNull);
          ("voice", message?."voice"?."file_id" ?? VNull);
          ("sticker", message?."sticker"?."file_id" ?? VNull);
          ("contact", message?."contact" ?? VNull);
          ("location", message?."location" ?? VNull);
          ("poll", poll) ]).

(** An object literal whose values are read off [src] under the given
    names: [{ field: src.name, ... }]. *)
Definition pick (src : value) (fields : list (string * string)) : result value :=
  l <- mapM (fun fn => x <- get src (snd fn) ;; Ok (fst fn, x)) fields ;;
  Ok (VObj l).

Definition successfulPaymentFields : list (string * string) :=
  [ ("currency", "currency");
    ("total_amount", "total_amount");
    ("invoice_payload", "invoice_payload");
    ("telegram_payment_charge_id", "telegram_payment_charge_id");
    ("provider_payment_charge_id", "provider_payment_charge_id") ].

Definition invoiceFields : list (string * string) :=
  [ ("title", "title");
    ("description", "description");
    ("currency", "currency");
    ("total_amount", "total_amount");
    ("start_parameter", "start_parameter");
    ("payload", "payload") ].

Definition preCheckoutFields : list (string * string) :=
  [ ("id", "id");
    ("currency", "currency");
    ("total_amount", "total_amount");
    ("payload", "invoice_payload") ].

Definition shippingFields : list (string * string) :=
  [ ("id", "id");
    ("payload", "invoice_payload");
    ("shipping_address", "shipping_address") ].

(** Lines 322-354. *)
Definition payment (ctx : context) : result value :=
  let message := prop ctx "message" in
  if truthy (message?."successful_payment") then
    sp <- path2 ctx "message" "successful_payment" ;;
    pick sp successfulPaymentFields
  else if truthy (message?."invoice") then
    inv <- path2 ctx "message" "invoice" ;;
    pick inv invoiceFields
  else if truthy (prop ctx "preCheckoutQuery") then
    pick (prop ctx "preCheckoutQuery") preCheckoutFields
  else if truthy (prop ctx "shippingQuery") then
    pick (prop ctx "shippingQuery") shippingFields
  else Ok VNull.

(** The test of line 360. *)
Definition financial (eventType : string) : bool :=
  String.eqb eventType "successful_payment" || String.eqb eventType "invoice"
  || String.eqb eventType "pre_checkout_query" || String.eqb eventType "shipping_query".

(** Lines 357-368. *)
Definition raw_update (ctx : context) (eventType : string) : value :=
  try_catch
    (if financial eventType
     then Ok (JSON_stringify (prop ctx "update"))
     else if truthy (prop ctx "update")
          then call_slice (JSON_stringify (prop ctx "update")) 0 500
          else Ok VNull)
    VNull.

(** The object literal of lines 278-369; [now] is the reading of
    [Date.now()]. *)
Definition payload (ctx : context) (bot : value) (now : Z) : result value :=
  eventType <- detectEventType ctx ;;
  botInfo <- get bot "botInfo" ;;
  message <- opt_slice200 ((prop ctx "message")?."text") ;;
  callback_query <- opt_slice200 ((prop ctx "callbackQuery")?."data") ;;
  inline_query <- opt_slice200 ((prop ctx "inlineQuery")?."query") ;;
  media <- media ctx ;;
  payment <- payment ctx ;;
  Ok (VObj
        [ ("bot", VObj
             [ ("username", botInfo?."username" ?? VNull);
               ("id", botInfo?."id" ?? VNull) ]);
          ("user", VObj
             [ ("id", (prop ctx "from")?."id" ?? VNull);
               ("username", (prop ctx "from")?."username" ?? VNull) ]);
          ("chat", VObj
             [ ("id", (prop ctx "chat")?."id" ?? VNull);
               ("type", (prop ctx "chat")?."type" ?? VNull) ]);
          ("event_type", VStr eventType);
          ("message", message ?? VNull);
          ("callback_query", callback_query ?? VNull);
          ("inline_query", inline_query ?? VNull);
          ("tg_date",
             (prop ctx "update")?."message"?."date" ??
             (prop ctx "update")?."edited_message"?."date" ??
             (prop ctx "update")?."channel_post"?."date" ??
             (prop ctx "update")?."edited_channel_post"?."date" ??
             VNull);
          ("app_date", VNum (now / 1000));
          ("media", media);
          ("payment", payment);
          ("raw_update", raw_update ctx eventType) ]).

Definition safeCtx (ctx : context) (bot : value) (now : Z) : result value :=
  p <- payload ctx bot now ;;
  Ok (removeNulls p).

End Legacy.

(* ===================================================================== *)
(** ** src/unnamed/part_000 *)
(* ===================================================================== *)

Module Part000.

(** Lines 85-100 are the statements of index.js 84-99. *)
Definition updateRules : list (string * string) := Index.updateRules.

Definition detectEventType (ctx : context) : result string :=
  let update := prop ctx "update" in
  firstMatch update updateRules "unknown".

Definition extractTgDate (ctx : context) : value :=
  (prop ctx "message")?."date" ??
  (prop ctx "editedMessage")?."date" ??
  (prop ctx "channelPost")?."date" ??
  (prop ctx "editedChannelPost")?."date" ??
  (prop ctx "callbackQuery")?."message"?."date" ??
  (prop ctx "businessMessage")?."date" ??
  (prop ctx "editedBusinessMessage")?."date" ??
  (prop ctx "chatMember")?."date" ??
  (prop ctx "myChatMember")?."date" ??
  VNull.

(** Lines 127-132. *)
Definition safeText (text : value) (max : Z) : result value :=
  match text with
  | VStr s => Ok (VStr (str_slice s 0 max))
  | VArr _ | VObj _ => call_slice (JSON_stringify text) 0 max
  | _ => Ok VNull
  end.

(** The names of line 221-233. *)
Definition mediaKeys : list string :=
  [ "photo"; "video"; "document"; "voice"; "sticker"; "animation"; "audio";
    "video_note"; "new_chat_photo"; "thumb"; "thumbnail" ].

(** [l.includes(k)] *)
Definition includes (l : list string) (k : string) : bool :=
  existsb (String.eqb k) l.

Definition truncationMarker : string := "...[truncated]".

(** Lines 212-215. *)
Definition limitString (val : string) (maxTextLength : Z) : string :=
  if Z.of_nat (String.length val) >? maxTextLength
  then str_slice val 0 maxTextLength ++ truncationMarker
  else val.

(** [{ file_id: v.file_id, file_unique_id: v.file_unique_id }] *)
Definition idPair (v : value) : result value :=
  file_id <- get v "file_id" ;;
  file_unique_id <- get v "file_unique_id" ;;
  Ok (VObj [("file_id", file_id); ("file_unique_id", file_unique_id)]).

(** [for (const [key, val] of entries) { ... }] over the object [out]
    under construction. *)
Definition forEntries (body : props_t -> string -> value -> result props_t)
  : props_t -> props_t -> result props_t :=
  fix loop (entries out : props_t) : result props_t :=
    match entries with
    | [] => Ok out
    | (key, val) :: rest => out' <- body out key val ;; loop rest out'
    end.

(** Lines 204-256. *)
Fixpoint sanitize (maxTextLength : Z) (obj : value) {struct obj} : result value :=
  match obj with
  | VArr items =>
      items' <- mapM (sanitize maxTextLength) items ;;
      Ok (VArr items')
  | VObj props =>
      out <- forEntries
               (fun out key val =>
                  match val with
                  | VStr s =>
                      Ok (put out key (VStr (limitString s maxTextLength)))
                  | _ =>
                      if includes mediaKeys key then
                        match val with
                        | VArr vs =>
                            pairs <- mapM idPair vs ;;
                            Ok (put out key (VArr pairs))
                        | VObj _ =>
                            pair <- idPair val ;;
                            Ok (put out key pair)
                        | _ => Ok out
                        end
                      else
                        r <- sanitize maxTextLength val ;;
                        Ok (put out key r)
                  end)
               props [] ;;
      Ok (VObj out)
  | _ => Ok obj
  end.

Definition sanitizeUpdate (update : value) (maxTextLength : Z) : result value :=
  sanitize maxTextLength update.

(** Lines 264-275. *)
Fixpoint removeNulls (obj : value) : value :=
  match obj with
  | VArr items => VArr (map removeNulls items)
  | VObj props =>
      let cleaned :=
        fromEntries
          (filter (fun kv => negb (nullish (snd kv)))
             (map (fun kv => (fst kv, removeNulls (snd kv))) props)) in
      VObj cleaned
  | _ => obj
  end.

(** Lines 135-150: the bot id and username.  Where [botFrom.id] is read,
    [botFrom?.is_bot] is truthy, so [botFrom] is an object. *)
Definition botIdentity (ctx : context) (bot : value) : value * value :=
  let botId := bot?."botInfo"?."id" ?? VNull in
  let botUsername := bot?."botInfo"?."username" ?? VNull in
  if negb (truthy botId) || negb (truthy botUsername) then
    let botFrom :=
      (prop ctx "update")?."message"?."from" ??
      (prop ctx "update")?."callback_query"?."message"?."from" ??
      (prop ctx "update")?."business_message"?."from" ??
      (prop ctx "update")?."edited_business_message"?."from" ??
      VNull in
    if truthy (botFrom?."is_bot")
    then (botId ?? member botFrom "id", botUsername ?? member botFrom "username")
    else (botId, botUsername)
  else (botId, botUsername).

(** Lines 185-194, for any outcome of the call of [JSON.stringify]. *)
Definition raw_update_with (stringify : serializer) (ctx : context)
    (includeRawUpdate : bool) (maxTextLength : Z) : value :=
  if includeRawUpdate
  then try_catch
         (sanitized <- sanitizeUpdate (prop ctx "update") maxTextLength ;;
          stringify sanitized)
         VNull
  else VNull.

(** The object literal of lines 152-195.  The calls of [safeText] are
    outside the [try] block. *)
Definition payload_with (stringify : serializer) (ctx : context) (bot : value)
    (includeRawUpdate : bool) (maxTextLength : Z) : result value :=
  let (botId, botUsername) := botIdentity ctx bot in
  message <- safeText ((prop ctx "message")?."text") maxTextLength ;;
  callback_query <- safeText ((prop ctx "callbackQuery")?."data") maxTextLength ;;
  inline_query <- safeText ((prop ctx "inlineQuery")?."query") maxTextLength ;;
  Ok (VObj
        [ ("bot", VObj [ ("id", botId); ("username", botUsername) ]);
          ("user", VObj
             [ ("id", (prop ctx "from")?."id" ?? VNull);
               ("username", (prop ctx "from")?."username" ?? VNull);
               ("first_name", (prop ctx "from")?."first_name" ?? VNull);
               ("last_name", (prop ctx "from")?."last_name" ?? VNull);
               ("language_code", (prop ctx "from")?."language_code" ?? VNull) ]);
          ("chat", VObj
             [ ("id", (prop ctx "chat")?."id" ?? VNull);
               ("type", (prop ctx "chat")?."type" ?? VNull);
               ("title", (prop ctx "chat")?."title" ?? VNull);
               ("username", (prop ctx "chat")?."username" ?? VNull) ]);
          ("message", message);
          ("callback_query", callback_query);
          ("inline_query", inline_query);
          ("media_type",
             if truthy ((prop ctx "message")?."photo") then VStr "photo"
             else if truthy ((prop ctx "message")?."video") then VStr "video"
             else if truthy ((prop ctx "message")?."document") then VStr "document"
             else if truthy ((prop ctx "message")?."sticker") then VStr "sticker"
             else VNull);
          ("raw_update", raw_update_with stringify ctx includeRawUpdate maxTextLength) ]).

Definition safeCtx_with (stringify : serializer) (ctx : context) (bot : value)
    (includeRawUpdate : bool) (maxTextLength : Z) : result value :=
  p <- payload_with stringify ctx bot includeRawUpdate maxTextLength ;;
  Ok (removeNulls p).

(** The record the middleware posts (lines 32-43); [now] is the reading of
    [Date.now()]. *)
Definition hippoTrack_payload_with (stringify : serializer) (ctx : context)
    (telegrafBot : value) (includeRawUpdate : bool) (maxTextLength : Z) (now : Z)
  : result value :=
  eventType <- detectEventType ctx ;;
  safeData <- safeCtx_with stringify ctx telegrafBot includeRawUpdate maxTextLength ;;
  Ok (VObj
        (obj_set
           (obj_set
              (obj_set (spread safeData) "event_type" (VStr eventType))
              "tg_date" (extractTgDate ctx))
           "app_date" (VNum (now / 1000)))).

(** On the trees of [value], where [JSON.stringify] returns. *)
Definition raw_update (ctx : context)
    (includeRawUpdate : bool) (maxTextLength : Z) : value :=
  raw_update_with stringify_tree ctx includeRawUpdate maxTextLength.

Definition payload (ctx : context) (bot : value)
    (includeRawUpdate : bool) (maxTextLength : Z) : result value :=
  payload_with stringify_tree ctx bot includeRawUpdate maxTextLength.

Definition safeCtx (ctx : context) (bot : value)
    (includeRawUpdate : bool) (maxTextLength : Z) : result value :=
  p <- payload ctx bot includeRawUpdate maxTextLength ;;
  Ok (removeNulls p).

Definition hippoTrack_payload (ctx : context) (telegrafBot : value)
    (includeRawUpdate : bool) (maxTextLength : Z) (now : Z) : result value :=
  eventType <- detectEventType ctx ;;
  safeData <- safeCtx ctx telegrafBot includeRawUpdate maxTextLength ;;
  Ok (VObj
        (obj_set
           (obj_set
              (obj_set (spread safeData) "event_type" (VStr eventType))
              "tg_date" (extractTgDate ctx))
           "app_date" (VNum (now / 1000)))).

End Part000.

(* ===================================================================== *)
(** ** Vocabulary of the properties *)
(* ===================================================================== *)

Fixpoint distinct (l : list string) : bool :=
  match l with
  | [] => true
  | k :: r => negb (existsb (String.eqb k) r) && distinct r
  end.

(** A tree as JavaScript builds it: no object lists a key twice. *)
Fixpoint well_formed (v : value) : bool :=
  match v with
  | VArr items => forallb well_formed items
  | VObj props =>
      distinct (keys props) && forallb (fun kv => well_formed (snd kv)) props
  | _ => true
  end.

Definition isEmptyObject (v : value) : bool :=
  match v with VObj [] => true | _ => false end.

Definition scalar (v : value) : bool :=
  match v with
  | VBool _ | VNum _ | VStr _ => true
  | _ => false
  end.

(** [typeof v === "object" && v !== null] *)
Definition isObject (v : value) : bool :=
  match v with
  | VArr _ | VObj _ => true
  | _ => false
  end.

(** No key, at any depth, holds [null] or [undefined]. *)
Fixpoint no_null_keys (v : value) : bool :=
  match v with
  | VArr items => forallb no_null_keys items
  | VObj props =>
      forallb (fun kv => negb (nullish (snd kv)) && no_null_keys (snd kv)) props
  | _ => true
  end.

(** No key, at any depth, holds [null], [undefined], an empty array or an
    empty object. *)
Fixpoint minimal (v : value) : bool :=
  match v with
  | VArr items => forallb minimal items
  | VObj props =>
      forallb (fun kv => negb (nullish (snd kv)) && negb (isEmptyArray (snd kv))
                         && negb (isEmptyObject (snd kv)) && minimal (snd kv)) props
  | _ => true
  end.

(** The scalars of a tree that are not [null] or [undefined], each with the
    keys on the way to it, in document order. *)
Fixpoint leaves (v : value) : list (list string * value) :=
  match v with
  | VUndef | VNull => []
  | VArr items => flat_map leaves items
  | VObj props =>
      flat_map (fun kv => map (fun pl => (fst kv :: fst pl, snd pl)) (leaves (snd kv)))
        props
  | _ => [([], v)]
  end.

(** The categories [detectEventType] of index.js and part_000 can return. *)
Definition categories : list string :=
  (map snd Index.updateRules ++ ["unknown"])%list.

(** The identifier pair of a media item that is not [null] or [undefined]. *)
Definition idPairOf (v : value) : value :=
  VObj [("file_id", member v "file_id"); ("file_unique_id", member v "file_unique_id")].

(** The media-like fields, by name. *)
Definition mediaLikeFields : list string :=
  [ "photo"; "video"; "document"; "voice"; "sticker"; "animation"; "audio";
    "video_note"; "new_chat_photo"; "thumb"; "thumbnail" ].

Definition isMediaLike (key : string) : bool :=
  existsb (String.eqb key) mediaLikeFields.

(** A step down a tree: into the value of a key, or into an element of an
    array. *)
Inductive step : Type :=
| Key (key : string)
| Item (index : nat).

(** The part of a tree at the end of a path along which the sanitizer
    walks: it goes into every element of an array and into the value of
    every key of an object but the media-like ones, whose value it
    replaces, and [__proto__], which it does not assign. *)
Fixpoint reach (v : value) (path : list step) : option value :=
  match path with
  | [] => Some v
  | Key key :: rest =>
      match v with
      | VObj props =>
          if isMediaLike key || String.eqb key "__proto__" then None
          else match lookup key props with
               | Some x => reach x rest
               | None => None
               end
      | _ => None
      end
  | Item index :: rest =>
      match v with
      | VArr items =>
          match nth_error items index with
          | Some x => reach x rest
          | None => None
          end
      | _ => None
      end
  end.

(** What one turn of the loop of [sanitize] assigns to [out[key]], if
    anything (lines 210-250). *)
Definition sanitizeEntry (maxTextLength : Z) (key : string) (val : value)
  : result (option value) :=
  match val with
  | VStr s => Ok (Some (VStr (Part000.limitString s maxTextLength)))
  | _ =>
      if Part000.includes Part000.mediaKeys key then
        match val with
        | VArr vs => pairs <- mapM Part000.idPair vs ;; Ok (Some (VArr pairs))
        | VObj _ => pair <- Part000.idPair val ;; Ok (Some pair)
        | _ => Ok None
        end
      else r <- Part000.sanitize maxTextLength val ;; Ok (Some r)
  end.

Definition assign (out : props_t) (key : string) (r : option value) : props_t :=
  match r with
  | Some v => put out key v
  | None => out
  end.

(** The trees that the sanitizer walks without raising: where it walks, no
    array under a media-like key holds [null] or [undefined]. *)
Fixpoint sanitizable (v : value) : bool :=
  match v with
  | VArr items => forallb sanitizable items
  | VObj props =>
      forallb (fun kv =>
                 match snd kv with
                 | VStr _ => true
                 | VArr vs =>
                     if isMediaLike (fst kv)
                     then forallb (fun x => negb (nullish x)) vs
                     else sanitizable (snd kv)
                 | _ =>
                     if isMediaLike (fst kv)
                     then true
                     else sanitizable (snd kv)
                 end) props
  | _ => true
  end.

(** The object literal [{ field: src.name, ... }] of a source that is not
    [null] or [undefined]: each field is copied as it is. *)
Definition verbatim (src : value) (fields : list (string * string)) : value :=
  VObj (map (fun fn => (fst fn, member src (snd fn))) fields).

(** The financial categories, by name. *)
Definition financialCategories : list string :=
  [ "successful_payment"; "invoice"; "pre_checkout_query"; "shipping_query" ].

(** The payment sub-record that goes with a financial category: the fields
    of the part of the update that the category names, each as it is.  (A
    shipping query is tested before a pre-checkout query by
    [detectEventType] and after it by the payment literal.) *)
Definition expectedPayment (update : value) (eventType : string) : value :=
  let message := member update "message" in
  if String.eqb eventType "successful_payment" then
    let paid := member message "successful_payment" in
    VObj [ ("currency", member paid "currency");
           ("total_amount", member paid "total_amount");
           ("invoice_payload", member paid "invoice_payload");
           ("telegram_payment_charge_id", member paid "telegram_payment_charge_id");
           ("provider_payment_charge_id", member paid "provider_payment_charge_id") ]
  else if String.eqb eventType "invoice" then
    let invoice := member message "invoice" in
    VObj [ ("title", member invoice "title");
           ("description", member invoice "description");
           ("currency", member invoice "currency");
           ("total_amount", member invoice "total_amount");
           ("start_parameter", member invoice "start_parameter");
           ("payload", member invoice "payload") ]
  else if truthy (member update "pre_checkout_query") then
    let query := member update "pre_checkout_query" in
    VObj [ ("id", member query "id");
           ("currency", member query "currency");
           ("total_amount", member query "total_amount");
           ("payload", member query "invoice_payload") ]
  else
    let query := member update "shipping_query" in
    VObj [ ("id", member query "id");
           ("payload", member query "invoice_payload");
           ("shipping_address", member query "shipping_address") ].

(* ===================================================================== *)
(** ** Sample events *)
(* ===================================================================== *)

Definition sampleTree : value :=
  VObj
    [ ("a", VNum 0);
      ("b", VArr [VBool false; VNull;
                  VObj [("c", VStr EmptyString); ("d", VNull)]]);
      ("e", VObj [("f", VUndef)]);
      ("g", VArr []) ].

Definition sampleBot : value :=
  VObj [("botInfo", VObj [("id", VNum 42); ("username", VStr "hippo_bot")])].

Definition sampleUser : value :=
  VObj [("id", VNum 7); ("is_bot", VBool false); ("first_name", VStr "Ada")].

Definition sampleChat : value :=
  VObj [("id", VNum 2); ("type", VStr "private")].

(** An inline query: the context has a sender and no chat. *)
Definition inlineQuery : value :=
  VObj [("id", VStr "q1"); ("from", sampleUser); ("query", VStr "cats")].

Definition inlineQueryCtx : context :=
  [ ("update", VObj [("update_id", VNum 1); ("inline_query", inlineQuery)]);
    ("inlineQuery", inlineQuery);
    ("from", sampleUser) ].

Definition successfulPayment : value :=
  VObj
    [ ("currency", VStr "USD");
      ("total_amount", VNum 500);
      ("invoice_payload", VStr "abc");
      ("telegram_payment_charge_id", VStr "t1");
      ("provider_payment_charge_id", VStr "p1") ].

(** A message that carries a successful payment and a text. *)
Definition paymentMessage : value :=
  VObj
    [ ("message_id", VNum 10);
      ("from", sampleUser);
      ("chat", sampleChat);
      ("date", VNum 1700000000);
      ("text", VStr "thanks");
      ("successful_payment", successfulPayment) ].

Definition paymentCtx : context :=
  [ ("update", VObj [("update_id", VNum 2); ("message", paymentMessage)]);
    ("message", paymentMessage);
    ("from", sampleUser);
    ("chat", sampleChat) ].

(** Scenario C of the specification: a message with two photo sizes. *)
Definition photoSize (id uid : string) (w h size : Z) : value :=
  VObj [ ("file_id", VStr id); ("file_unique_id", VStr uid);
         ("width", VNum w); ("height", VNum h); ("file_size", VNum size) ].

Definition photoUpdate : value :=
  VObj
    [ ("update_id", VNum 3);
      ("message", VObj
         [ ("message_id", VNum 11);
           ("from", sampleUser);
           ("chat", sampleChat);
           ("date", VNum 1700000000);
           ("photo", VArr [ photoSize "A1" "u1" 90 60 1200;
                            photoSize "A2" "u2" 320 200 20000 ]) ]) ].

(** A message with a media array that holds [null]: [v.file_id] raises. *)
Definition brokenPhotoMessage : value :=
  VObj
    [ ("message_id", VNum 12);
      ("from", sampleUser);
      ("chat", sampleChat);
      ("date", VNum 1700000001);
      ("text", VStr "look");
      ("photo", VArr [VNull]) ].

Definition brokenPhotoCtx : context :=
  [ ("update", VObj [("update_id", VNum 4); ("message", brokenPhotoMessage)]);
    ("message", brokenPhotoMessage);
    ("from", sampleUser);
    ("chat", sampleChat) ].

(** Scenario A of the specification: a plain text message. *)
Definition helloMessage : value :=
  VObj
    [ ("message_id", VNum 1);
      ("from", VObj [("id", VNum 1); ("username", VStr "u")]);
      ("chat", sampleChat);
      ("date", VNum 1700000002);
      ("text", VStr "Hello world") ].

Definition helloCtx : context :=
  [ ("update", VObj [("update_id", VNum 5); ("message", helloMessage)]);
    ("message", helloMessage);
    ("from", VObj [("id", VNum 1); ("username", VStr "u")]);
    ("chat", sampleChat) ].

(** Scenario D of the specification: an update with no key that the
    classifier knows. *)
Definition strangeCtx : context :=
  [ ("update", VObj [("update_id", VNum 6); ("removed_chat_boost", VObj [])]);
    ("from", sampleUser);
    ("chat", sampleChat) ].

(* ===================================================================== *)
(** ** Vocabulary of the further properties *)
(* ===================================================================== *)

(** The sender that part_000 falls back on for the bot identity (lines
    139-144). *)
Definition botFrom (ctx : context) : value :=
  (prop ctx "update")?."message"?."from" ??
  (prop ctx "update")?."callback_query"?."message"?."from" ??
  (prop ctx "update")?."business_message"?."from" ??
  (prop ctx "update")?."edited_business_message"?."from" ??
  VNull.

(** The three keys that [hippoTrack] sets on the record of [safeCtx]. *)
Definition stampKeys : list string := ["event_type"; "tg_date"; "app_date"].

(** A chat-member update: its date is on [chatMember] only. *)
Definition chatMemberUpdate : value :=
  VObj [("chat", sampleChat); ("from", sampleUser); ("date", VNum 1700000003)].

Definition chatMemberCtx : context :=
  [ ("update", VObj [("update_id", VNum 7); ("chat_member", chatMemberUpdate)]);
    ("chatMember", chatMemberUpdate);
    ("from", sampleUser);
    ("chat", sampleChat) ].

(** A message whose sender is a bot, seen before the bot knows itself. *)
Definition botSender : value :=
  VObj [("id", VNum 42); ("is_bot", VBool true); ("username", VStr "hippo_bot")].

Definition botSenderCtx : context :=
  [ ("update", VObj [("update_id", VNum 8);
                     ("message", VObj [("message_id", VNum 13); ("from", botSender);
                                       ("chat", sampleChat); ("date", VNum 1700000004)])]);
    ("from", botSender);
    ("chat", sampleChat) ].

(** The keys of the record that hold a text. *)
Definition textKeys : list string := ["message"; "callback_query"; "inline_query"].

(** A text of the record: absent, or a string of at most [max] code units. *)
Definition boundedText (max : Z) (v : value) : Prop :=
  v = VUndef \/ exists t, v = VStr t /\ Z.of_nat (String.length t) <= max.

(** The tags that the second document of index.js gives a message. *)
Definition messageCategories : list string :=
  (map snd Legacy.messageRules ++ ["message"])%list.

(** All the tags of the second document of index.js. *)
Definition legacyCategories : list string :=
  (messageCategories ++ map snd Legacy.updateRules ++ ["unknown"])%list.

(** A value on which [v?.slice(0, 200)] does not raise. *)
Definition sliceable (v : value) : bool :=
  match v with
  | VUndef | VNull | VStr _ | VArr _ => true
  | _ => false
  end.

(** A value on which [v.map((x) => x.k)] does not raise: an array that
    holds no [null] or [undefined]. *)
Definition mappable (v : value) : bool :=
  match v with
  | VArr items => forallb (fun x => negb (nullish x)) items
  | _ => false
  end.

(** The contexts on which [safeCtx] of the second document returns. *)
Definition legacyReturns (ctx : context) (bot : value) : bool :=
  let message := prop ctx "message" in
  negb (nullish (prop ctx "update")) && negb (nullish bot)
  && sliceable (message?."text")
  && sliceable ((prop ctx "callbackQuery")?."data")
  && sliceable ((prop ctx "inlineQuery")?."query")
  && (nullish (message?."photo") || mappable (message?."photo"))
  && (negb (truthy (message?."poll")) || mappable (member (member message "poll") "options")).

(** A text message whose [text] is a number, as no Telegram update has. *)
Definition numericTextCtx : context :=
  [ ("update", VObj [("update_id", VNum 9);
                     ("message", VObj [("message_id", VNum 14); ("text", VNum 5)])]);
    ("message", VObj [("message_id", VNum 14); ("text", VNum 5)]) ].

(** Every string that is the value of a key, outside what a media-like key
    holds, has at most [bound] code units.  (A string that is an element
    of an array is not the value of a key.) *)
Fixpoint strings_bounded (bound : Z) (v : value) : bool :=
  match v with
  | VArr items => forallb (strings_bounded bound) items
  | VObj props =>
      forallb (fun kv =>
                 match snd kv with
                 | VStr s => Z.of_nat (String.length s) <=? bound
                 | _ =>
                     if Part000.includes Part000.mediaKeys (fst kv)
                     then true
                     else strings_bounded bound (snd kv)
                 end) props
  | _ => true
  end.

(** An update with a long caption, a photo and an array of strings. *)
Definition captionUpdate : value :=
  VObj
    [ ("update_id", VNum 10);
      ("message", VObj
         [ ("message_id", VNum 15);
           ("caption", VStr "a caption that is longer than the bound");
           ("photo", VArr [photoSize "A1" "u1" 90 60 1200]);
           ("tags", VArr [VStr "a tag that is longer than the bound"]) ]) ].

(** A callback query whose update also carries a poll. *)
Definition callbackCtx : context :=
  [ ("update", VObj [("update_id", VNum 11);
                     ("callback_query", VObj [("id", VStr "c1"); ("data", VStr "yes")]);
                     ("poll", VObj [("id", VStr "p1")])]);
    ("callbackQuery", VObj [("id", VStr "c1"); ("data", VStr "yes")]) ].

(** The fields of the acting user and of the chat that the record copies
    (index.js 143-155, part_000 157-169). *)
Definition userFields : list string :=
  ["id"; "username"; "first_name"; "last_name"; "language_code"].

Definition chatFields : list string := ["id"; "type"; "title"; "username"].

(** The media kinds that part_000 names, in the order of its tests (lines
    175-183). *)
Definition mediaTypeRules : list (string * string) :=
  [ ("photo", "photo"); ("video", "video"); ("document", "document");
    ("sticker", "sticker") ].

(** A user whose id is [0] and whose first name is empty. *)
Definition zeroUserCtx : context :=
  [ ("update", VObj [("update_id", VNum 12)]);
    ("from", VObj [("id", VNum 0); ("first_name", VStr EmptyString);
                   ("last_name", VNull)]) ].

(* ===================================================================== *)
(** ** Samples for the sanitizer's walk *)
(* ===================================================================== *)

(** A photo whose [file_id] is an object that holds a photo, as no Telegram
    update has. *)
Definition nestedPhoto : value :=
  VObj [("photo", VObj [("file_id", VObj [("photo", VObj [("w", VNum 1)])])])].

(** An update as [JSON.parse] can build it, with [__proto__] for own key. *)
Definition protoUpdate : value :=
  VObj [ ("update_id", VNum 14);
         ("__proto__", VStr "a text that is longer than the bound");
         ("message", VObj [("message_id", VNum 17);
                           ("text", VStr "a text that is longer than the bound")]) ].

(* ===================================================================== *)
(** ** Samples for the snapshot *)
(* ===================================================================== *)

(** A text of 600 code units. *)
Definition longText : string :=
  String.concat EmptyString (repeat "0123456789" 60).

(** A successful payment whose payload is that text: the serialised update
    has more than 500 code units. *)
Definition longPayment : value :=
  VObj
    [ ("currency", VStr "USD");
      ("total_amount", VNum 500);
      ("invoice_payload", VStr longText);
      ("telegram_payment_charge_id", VStr "t1");
      ("provider_payment_charge_id", VStr "p1") ].

Definition longPaymentMessage : value :=
  VObj
    [ ("message_id", VNum 18);
      ("from", sampleUser);
      ("chat", sampleChat);
      ("date", VNum 1700000005);
      ("successful_payment", longPayment) ].

Definition longPaymentCtx : context :=
  [ ("update", VObj [("update_id", VNum 15); ("message", longPaymentMessage)]);
    ("message", longPaymentMessage);
    ("from", sampleUser);
    ("chat", sampleChat) ].

(** A text message of that length. *)
Definition longTextMessage : value :=
  VObj
    [ ("message_id", VNum 19);
      ("from", sampleUser);
      ("chat", sampleChat);
      ("date", VNum 1700000006);
      ("text", VStr longText) ].

Definition longTextCtx : context :=
  [ ("update", VObj [("update_id", VNum 16); ("message", longTextMessage)]);
    ("message", longTextMessage);
    ("from", sampleUser);
    ("chat", sampleChat) ].

(* ===================================================================== *)
(** ** Vocabulary of the recovery *)
(* ===================================================================== *)





(* ===================================================================== *)
(** ** The order of the tests on a message *)
(* ===================================================================== *)

(** The keys of a message in the order of their tests, each with its tag
    (second document of index.js). *)
Definition messageOrder : list (string * string) :=
  [ ("successful_payment", "successful_payment");
    ("invoice", "invoice");
    ("text", "text_message");
    ("photo", "photo_message");
    ("video", "video_message");
    ("document", "document_message");
    ("audio", "audio_message");
    ("voice", "voice_message");
    ("sticker", "sticker_message");
    ("poll", "poll_message");
    ("contact", "contact_message");
    ("location", "location_message") ].

(** A message with a photo and a location, and a caption for text. *)
Definition photoLocationCtx : context :=
  [ ("update", VObj [("update_id", VNum 17);
                     ("message", VObj [("message_id", VNum 20);
                                       ("photo", VArr [photoSize "A1" "u1" 90 60 1200]);
                                       ("location", VObj [("latitude", VNum 1);
                                                          ("longitude", VNum 2)])])]) ].

(* ===================================================================== *)
(** ** Property lists *)
(* ===================================================================== *)

Local Open Scope list_scope.

Section PropertyLists.

Lemma distinct_NoDup (l : list string) : distinct l = true <-> NoDup l.
Proof.
  induction l as [|k r IH]; simpl.
  - split; [constructor | reflexivity].
  - rewrite andb_true_iff, negb_true_iff, IH. split.
    + intros [Hk Hr]. constructor; [|exact Hr].
      intros Hin. assert (existsb (String.eqb k) r = true) as E.
      { apply existsb_exists. exists k. split; [exact Hin | apply String.eqb_refl]. }
      congruence.
    + intros H. inversion H as [|? ? Hk Hr]; subst. split; [|exact Hr].
      destruct (existsb (String.eqb k) r) eqn:E; [|reflexivity].
      apply existsb_exists in E. destruct E as (x & Hx & Hkx).
      apply String.eqb_eq in Hkx. subst x. contradiction.
Qed.

Lemma obj_set_fresh (l : props_t) k v :
  ~ In k (keys l) -> obj_set l k v = l ++ [(k, v)].
Proof.
  induction l as [|[k' v'] r IH]; simpl; intros H; [reflexivity|].
  destruct (String.eqb_spec k k') as [->|Hne].
  - exfalso. apply H. now left.
  - f_equal. apply IH. intros Hin. apply H. now right.
Qed.

Lemma obj_set_keys (l : props_t) k v :
  keys (obj_set l k v) = if existsb (String.eqb k) (keys l) then keys l else keys l ++ [k].
Proof.
  induction l as [|[k' v'] r IH]; simpl; [reflexivity|].
  destruct (String.eqb_spec k k') as [->|Hne]; simpl; [reflexivity|].
  rewrite IH. now destruct (existsb (String.eqb k) (keys r)).
Qed.

Lemma obj_set_In (l : props_t) k v kv :
  In kv (obj_set l k v) -> In kv l \/ kv = (k, v).
Proof.
  induction l as [|[k' v'] r IH]; simpl.
  - intros [<-|[]]. now right.
  - destruct (String.eqb_spec k k') as [->|Hne]; simpl.
    + intros [<-|H]; [now right | left; now right].
    + intros [<-|H]; [left; now left|].
      destruct (IH H) as [H'|H']; [left; now right | now right].
Qed.

Lemma obj_set_NoDup (l : props_t) k v :
  NoDup (keys l) -> NoDup (keys (obj_set l k v)).
Proof.
  intros H. rewrite obj_set_keys.
  destruct (existsb (String.eqb k) (keys l)) eqn:E; [exact H|].
  apply NoDup_app; [exact H | constructor; [intros [] | constructor] |].
  intros x Hx [<-|[]].
  assert (existsb (String.eqb k) (keys l) = true); [|congruence].
  apply existsb_exists. exists k. split; [exact Hx | apply String.eqb_refl].
Qed.

Lemma define_all_NoDup (es acc : props_t) :
  NoDup (keys acc) -> NoDup (keys (fold_left define es acc)).
Proof.
  revert acc. induction es as [|e r IH]; simpl; intros acc H; [exact H|].
  apply IH. now apply obj_set_NoDup.
Qed.

Lemma define_all_In (es acc : props_t) kv :
  In kv (fold_left define es acc) -> In kv acc \/ In kv es.
Proof.
  revert acc. induction es as [|e r IH]; simpl; intros acc H; [now left|].
  destruct (IH _ H) as [H'|H']; [|right; now right].
  destruct (obj_set_In _ _ _ _ H') as [H''| ->]; [now left|].
  right. left. now destruct e.
Qed.

Lemma define_all_fresh (es acc : props_t) :
  NoDup (keys (acc ++ es)) -> fold_left define es acc = acc ++ es.
Proof.
  revert acc. induction es as [|[k v] r IH]; simpl; intros acc H.
  - now rewrite app_nil_r.
  - unfold define at 2. simpl.
    assert (~ In k (keys acc)) as Hk.
    { unfold keys in *. rewrite map_app in H. simpl in H.
      apply NoDup_remove_2 in H. intros Hin. apply H.
      apply in_or_app. now left. }
    rewrite (obj_set_fresh _ _ _ Hk).
    rewrite IH; rewrite <- app_assoc; simpl; [reflexivity | exact H].
Qed.

Lemma fromEntries_NoDup_keys (es : props_t) : NoDup (keys (fromEntries es)).
Proof. apply define_all_NoDup. constructor. Qed.

Lemma fromEntries_In (es : props_t) kv : In kv (fromEntries es) -> In kv es.
Proof.
  intros H. destruct (define_all_In _ _ _ H) as [[]|H']. exact H'.
Qed.

Lemma fromEntries_distinct (es : props_t) :
  NoDup (keys es) -> fromEntries es = es.
Proof. intros H. now apply (define_all_fresh es []). Qed.

Lemma fromEntries_fixed (es : props_t) : fromEntries (fromEntries es) = fromEntries es.
Proof. apply fromEntries_distinct, fromEntries_NoDup_keys. Qed.

Lemma keys_filter_NoDup (p : string * value -> bool) (l : props_t) :
  NoDup (keys l) -> NoDup (keys (filter p l)).
Proof.
  induction l as [|kv r IH]; simpl; intros H; [constructor|].
  inversion H as [|? ? Hk Hr]; subst.
  destruct (p kv); simpl; [|now apply IH].
  constructor; [|now apply IH].
  intros Hin. apply Hk. unfold keys in *.
  apply in_map_iff in Hin. destruct Hin as (x & Hx & Hin).
  apply filter_In in Hin. apply in_map_iff. exists x. tauto.
Qed.

Lemma keys_map_snd (g : value -> value) (l : props_t) :
  keys (map (fun kv => (fst kv, g (snd kv))) l) = keys l.
Proof. unfold keys. rewrite map_map. reflexivity. Qed.

End PropertyLists.

Section ListFacts.

Context {A : Type}.

Lemma map_fixed (g : A -> A) (l : list A) :
  (forall x, In x l -> g x = x) -> map g l = l.
Proof.
  intros H. rewrite <- (map_id l) at 2. now apply map_ext_in.
Qed.

Lemma filter_all (p : A -> bool) (l : list A) :
  (forall x, In x l -> p x = true) -> filter p l = l.
Proof.
  induction l as [|x r IH]; simpl; intros H; [reflexivity|].
  rewrite (H x (or_introl eq_refl)). f_equal. apply IH. intros y Hy. apply H. now right.
Qed.

End ListFacts.

(* ===================================================================== *)
(** ** The Null Pruner *)
(* ===================================================================== *)

Section Pruner.

(** What both pruners do to the entries of an object, for a keeping test
    [keep] and a recursive call [rn]. *)
Let entries (keep : value -> bool) (rn : value -> value) (props : props_t) : props_t :=
  filter (fun kv => keep (snd kv)) (map (fun kv => (fst kv, rn (snd kv))) props).

Lemma cleaned_fixed (keep : value -> bool) (rn : value -> value) (props : props_t) :
  Forall (fun kv => rn (rn (snd kv)) = rn (snd kv)) props ->
  let cleaned := fromEntries (entries keep rn props) in
  fromEntries (entries keep rn cleaned) = cleaned.
Proof.
  intros IH cleaned.
  assert (forall kv, In kv cleaned -> keep (snd kv) = true /\ rn (snd kv) = snd kv) as Hc.
  { intros kv Hin. apply fromEntries_In in Hin. unfold entries in Hin.
    apply filter_In in Hin. destruct Hin as [Hin Hk]. split; [exact Hk|].
    apply in_map_iff in Hin. destruct Hin as (kv0 & <- & Hin0). simpl.
    rewrite Forall_forall in IH. now apply IH. }
  unfold entries. rewrite map_fixed.
  - rewrite filter_all; [apply fromEntries_fixed|]. intros kv Hin. now apply Hc.
  - intros [k v] Hin. simpl. f_equal. now apply (Hc (k, v)).
Qed.

Lemma Index_removeNulls_fixed (x : value) :
  Index.removeNulls (Index.removeNulls x) = Index.removeNulls x.
Proof.
  induction x as [ | | b | n | s | items IH | props IH ] using value_tree_ind; try reflexivity.
  - simpl. f_equal.
    rewrite map_fixed.
    + apply filter_all. intros v Hv. now apply filter_In in Hv.
    + intros v Hv. apply filter_In in Hv. destruct Hv as [Hv _].
      apply in_map_iff in Hv. destruct Hv as (v0 & <- & Hv0).
      rewrite Forall_forall in IH. now apply IH.
  - simpl.
    pose proof (cleaned_fixed
                  (fun v => negb (nullish v) && negb (isEmptyArray v))
                  Index.removeNulls props IH) as Hfix.
    cbv zeta in Hfix. unfold entries in Hfix.
    destruct (0 <? Z.of_nat (List.length (keys (fromEntries _)))) eqn:E; [|reflexivity].
    simpl. rewrite Hfix. now rewrite E.
Qed.

(** The pruner nested in the second document is the same function. *)
Lemma Legacy_removeNulls_Index (x : value) :
  Legacy.removeNulls x = Index.removeNulls x.
Proof. reflexivity. Qed.

Lemma Part000_removeNulls_fixed (x : value) :
  Part000.removeNulls (Part000.removeNulls x) = Part000.removeNulls x.
Proof.
  induction x as [ | | b | n | s | items IH | props IH ] using value_tree_ind; try reflexivity.
  - simpl. f_equal. rewrite map_map. apply map_ext_in. intros v Hv.
    rewrite Forall_forall in IH. now apply IH.
  - simpl. f_equal.
    exact (cleaned_fixed (fun v => negb (nullish v)) Part000.removeNulls props IH).
Qed.

(** C1. Pruning is idempotent: for every tree [x], in index.js and in
    part_000 alike, [removeNulls (removeNulls x)] is [removeNulls x]. *)
Theorem removeNulls_idempotent (x : value) :
  Index.removeNulls (Index.removeNulls x) = Index.removeNulls x /\
  Part000.removeNulls (Part000.removeNulls x) = Part000.removeNulls x.
Proof.
  split; [apply Index_removeNulls_fixed | apply Part000_removeNulls_fixed].
Qed.

(** *** What the pruner keeps *)

Let under (kv : string * value) : list (list string * value) :=
  map (fun pl => (fst kv :: fst pl, snd pl)) (leaves (snd kv)).

Lemma flat_map_filter_silent {A B} (f : A -> list B) (p : A -> bool) (l : list A) :
  (forall x, In x l -> p x = false -> f x = []) ->
  flat_map f (filter p l) = flat_map f l.
Proof.
  induction l as [|x r IH]; simpl; intros H; [reflexivity|].
  destruct (p x) eqn:E; simpl.
  - f_equal. apply IH. intros y Hy. apply H. now right.
  - rewrite (H x (or_introl eq_refl) E). simpl. apply IH. intros y Hy. apply H. now right.
Qed.

Lemma flat_map_agree {A B} (f g : A -> list B) (l : list A) :
  (forall x, In x l -> f x = g x) -> flat_map f l = flat_map g l.
Proof.
  induction l as [|x r IH]; simpl; intros H; [reflexivity|].
  rewrite (H x (or_introl eq_refl)). f_equal. apply IH. intros y Hy. apply H. now right.
Qed.

Lemma flat_map_map {A B C} (f : B -> list C) (g : A -> B) (l : list A) :
  flat_map f (map g l) = flat_map (fun x => f (g x)) l.
Proof. induction l as [|x r IH]; simpl; [reflexivity | now rewrite IH]. Qed.

Lemma leaves_nullish (v : value) : nullish v = true -> leaves v = [].
Proof. destruct v; simpl; intros H; try discriminate; reflexivity. Qed.

Lemma leaves_isEmptyArray (v : value) : isEmptyArray v = true -> leaves v = [].
Proof. destruct v as [ | | | | |[|]|]; simpl; intros H; try discriminate; reflexivity. Qed.

Lemma leaves_entries (keep : value -> bool) (rn : value -> value) (props : props_t) :
  (forall v, keep v = false -> leaves v = []) ->
  Forall (fun kv => well_formed (snd kv) = true -> leaves (rn (snd kv)) = leaves (snd kv))
    props ->
  well_formed (VObj props) = true ->
  let cleaned := fromEntries (entries keep rn props) in
  flat_map under cleaned = flat_map under props.
Proof.
  intros Hkeep IH Hwf cleaned. simpl in Hwf.
  apply andb_true_iff in Hwf. destruct Hwf as [Hd Hall].
  apply distinct_NoDup in Hd. rewrite forallb_forall in Hall.
  unfold cleaned, entries. rewrite fromEntries_distinct.
  2:{ apply keys_filter_NoDup. now rewrite keys_map_snd. }
  rewrite flat_map_filter_silent.
  2:{ intros kv _ Hk. unfold under. now rewrite (Hkeep _ Hk). }
  rewrite flat_map_map. apply flat_map_agree.
  intros kv Hin. unfold under. simpl.
  rewrite Forall_forall in IH. rewrite (IH kv Hin (Hall kv Hin)). reflexivity.
Qed.

Lemma Index_removeNulls_leaves (x : value) :
  well_formed x = true -> leaves (Index.removeNulls x) = leaves x.
Proof.
  induction x as [ | | b | n | s | items IH | props IH ] using value_tree_ind;
    intros Hwf; try reflexivity.
  - simpl in *. rewrite forallb_forall in Hwf. rewrite Forall_forall in IH.
    rewrite flat_map_filter_silent.
    + rewrite flat_map_map. apply flat_map_agree. intros v Hv. now apply IH, Hwf.
    + intros v _ Hv. apply negb_false_iff in Hv. now apply leaves_nullish.
  - pose proof (leaves_entries
                  (fun v => negb (nullish v) && negb (isEmptyArray v))
                  Index.removeNulls props) as H.
    cbv zeta in H. unfold entries in H. simpl.
    destruct (0 <? Z.of_nat (List.length (keys (fromEntries _)))) eqn:E.
    + simpl. apply H; [|exact IH|exact Hwf].
      intros v Hv. apply andb_false_iff in Hv.
      destruct Hv as [Hv|Hv]; apply negb_false_iff in Hv;
        [now apply leaves_nullish | now apply leaves_isEmptyArray].
    + etransitivity; [|apply H; [|exact IH|exact Hwf]].
      * apply Z.ltb_ge in E. unfold keys in E. rewrite length_map in E.
        destruct (fromEntries _); [reflexivity | simpl in E; lia].
      * intros v Hv. apply andb_false_iff in Hv.
        destruct Hv as [Hv|Hv]; apply negb_false_iff in Hv;
          [now apply leaves_nullish | now apply leaves_isEmptyArray].
Qed.

Lemma Part000_removeNulls_leaves (x : value) :
  well_formed x = true -> leaves (Part000.removeNulls x) = leaves x.
Proof.
  induction x as [ | | b | n | s | items IH | props IH ] using value_tree_ind;
    intros Hwf; try reflexivity.
  - simpl in *. rewrite forallb_forall in Hwf. rewrite Forall_forall in IH.
    rewrite flat_map_map. apply flat_map_agree. intros v Hv. now apply IH, Hwf.
  - simpl.
    apply (leaves_entries (fun v => negb (nullish v)) Part000.removeNulls props);
      [|exact IH|exact Hwf].
    intros v Hv. apply negb_false_iff in Hv. now apply leaves_nullish.
Qed.

End Pruner.

(* ===================================================================== *)
(** ** The record [safeCtx] returns *)
(* ===================================================================== *)

Section Minimal.

Lemma Index_removeNulls_not_empty_object (x : value) :
  isEmptyObject (Index.removeNulls x) = false.
Proof.
  destruct x; try reflexivity. simpl.
  destruct (0 <? Z.of_nat (List.length (keys (fromEntries _)))) eqn:E; [|reflexivity].
  destruct (fromEntries _); [discriminate E | reflexivity].
Qed.

Lemma Index_removeNulls_minimal (x : value) : minimal (Index.removeNulls x) = true.
Proof.
  induction x as [ | | b | n | s | items IH | props IH ] using value_tree_ind;
    try reflexivity.
  - simpl. apply forallb_forall. intros v Hv.
    apply filter_In in Hv. destruct Hv as [Hv _].
    apply in_map_iff in Hv. destruct Hv as (v0 & <- & Hv0).
    rewrite Forall_forall in IH. now apply IH.
  - simpl.
    destruct (0 <? Z.of_nat (List.length (keys (fromEntries _)))) eqn:E; [|reflexivity].
    simpl. apply forallb_forall. intros kv Hkv.
    apply fromEntries_In, filter_In in Hkv. destruct Hkv as [Hkv Hkeep].
    apply in_map_iff in Hkv. destruct Hkv as (kv0 & <- & Hkv0). simpl in *.
    rewrite Hkeep, Index_removeNulls_not_empty_object. simpl.
    rewrite Forall_forall in IH. now apply IH.
Qed.

Lemma Part000_removeNulls_no_null_keys (x : value) :
  no_null_keys (Part000.removeNulls x) = true.
Proof.
  induction x as [ | | b | n | s | items IH | props IH ] using value_tree_ind;
    try reflexivity.
  - simpl. apply forallb_forall. intros v Hv.
    apply in_map_iff in Hv. destruct Hv as (v0 & <- & Hv0).
    rewrite Forall_forall in IH. now apply IH.
  - simpl. apply forallb_forall. intros kv Hkv.
    apply fromEntries_In, filter_In in Hkv. destruct Hkv as [Hkv Hkeep].
    apply in_map_iff in Hkv. destruct Hkv as (kv0 & <- & Hkv0). simpl in *.
    rewrite Hkeep. simpl.
    rewrite Forall_forall in IH. now apply IH.
Qed.

(** [JSON.stringify] of an object or an array is a string. *)
Lemma JSON_stringify_object (v : value) :
  match v with VArr _ | VObj _ => True | _ => False end ->
  exists s, JSON_stringify v = VStr s.
Proof.
  destruct v; intros H; try contradiction; unfold JSON_stringify; simpl; eauto.
Qed.

Lemma Part000_safeText_returns (text : value) (max : Z) :
  exists v, Part000.safeText text max = Ok v.
Proof.
  destruct text; simpl; eauto.
Qed.

Lemma Part000_payload_returns (ctx : context) (bot : value) (inc : bool) (max : Z) :
  exists p, Part000.payload ctx bot inc max = Ok p.
Proof.
  unfold Part000.payload, Part000.payload_with. destruct (Part000.botIdentity ctx bot) as [botId botUsername].
  destruct (Part000_safeText_returns ((prop ctx "message")?."text") max) as [m ->].
  destruct (Part000_safeText_returns ((prop ctx "callbackQuery")?."data") max) as [c ->].
  destruct (Part000_safeText_returns ((prop ctx "inlineQuery")?."query") max) as [q ->].
  simpl. eauto.
Qed.

Lemma Part000_safeCtx_returns (ctx : context) (bot : value) (inc : bool) (max : Z) :
  exists r, Part000.safeCtx ctx bot inc max = Ok r.
Proof.
  unfold Part000.safeCtx.
  destruct (Part000_payload_returns ctx bot inc max) as [p ->]. simpl. eauto.
Qed.

(** The second document prunes with the same function. *)
Lemma Legacy_safeCtx_minimal (ctx : context) (bot : value) (now : Z) (r : value) :
  Legacy.safeCtx ctx bot now = Ok r -> minimal r = true.
Proof.
  unfold Legacy.safeCtx. destruct (Legacy.payload ctx bot now) as [p|e]; simpl;
    intros H; inversion H; subst.
  rewrite Legacy_removeNulls_Index. apply Index_removeNulls_minimal.
Qed.

(** What does hold of the record [safeCtx] returns: at any depth, no key
    has [null] or [undefined] for value; in index.js no key has an empty
    array or an empty object for value either. *)
Lemma safeCtx_no_null (ctx : context) (bot : value) (inc : bool) (max : Z) :
  minimal (Index.safeCtx ctx bot inc max) = true /\
  exists r, Part000.safeCtx ctx bot inc max = Ok r /\ no_null_keys r = true.
Proof.
  split; [apply Index_removeNulls_minimal|].
  unfold Part000.safeCtx.
  destruct (Part000_payload_returns ctx bot inc max) as [p ->]. simpl.
  eexists. split; [reflexivity | apply Part000_removeNulls_no_null_keys].
Qed.

(** C2. The record [safeCtx] returns is to hold no key whose value is
    [null], [undefined], an empty array or an empty object.  The record of
    part_000 holds one: for an inline query (a context without a chat) it
    has the key [chat] with an empty object for value, where index.js leaves
    the key out. *)
Theorem safeCtx_part000_keeps_empty_object :
  exists r,
    Part000.safeCtx inlineQueryCtx sampleBot false 500 = Ok r /\
    member r "chat" = VObj [] /\
    minimal r = false /\
    member (Index.safeCtx inlineQueryCtx sampleBot false 500) "chat" = VUndef.
Proof. eexists. repeat split. Qed.

End Minimal.

(* ===================================================================== *)
(** ** The Event Classifier *)
(* ===================================================================== *)

Section Classifier.

Variable o : value.
Hypothesis o_present : nullish o = false.

Lemma firstMatch_returns (rules : list (string * string)) (d : string) :
  exists c, firstMatch o rules d = Ok c /\ In c (map snd rules ++ [d]).
Proof.
  induction rules as [|[key tag] rest IH]; simpl.
  - exists d. split; [reflexivity | now left].
  - unfold get. rewrite o_present. simpl.
    destruct (truthy (member o key)).
    + exists tag. split; [reflexivity | now left].
    + destruct IH as (c & Hc & Hin). exists c. split; [exact Hc | now right].
Qed.

Lemma firstMatch_fallback (rules : list (string * string)) (d : string) :
  (forall k, In k (map fst rules) -> truthy (member o k) = false) ->
  firstMatch o rules d = Ok d.
Proof.
  induction rules as [|[key tag] rest IH]; simpl; intros H; [reflexivity|].
  unfold get. rewrite o_present. simpl.
  rewrite (H key (or_introl eq_refl)). apply IH. intros k Hk. apply H. now right.
Qed.

Lemma firstMatch_first (rules : list (string * string)) (d key tag : string) :
  truthy (member o key) = true ->
  firstMatch o ((key, tag) :: rules) d = Ok tag.
Proof.
  intros H. simpl. unfold get. rewrite o_present. simpl. now rewrite H.
Qed.

End Classifier.

Lemma truthy_not_nullish (v : value) : truthy v = true -> nullish v = false.
Proof. destruct v; simpl; intros H; try discriminate; reflexivity. Qed.

(** C3, as the code has it.  When the context carries an update (any value
    but [null] and [undefined]) [detectEventType] returns one category of
    the closed list, the same in index.js and part_000; it returns
    ["unknown"] when no recognised key of the update is truthy; and the
    category is a function of the context. *)
Theorem detectEventType_total (ctx : context) :
  nullish (prop ctx "update") = false ->
  (exists c, Index.detectEventType ctx = Ok c /\
             Part000.detectEventType ctx = Ok c /\
             In c categories) /\
  ((forall k, In k (map fst Index.updateRules) ->
              truthy (member (prop ctx "update") k) = false) ->
   Index.detectEventType ctx = Ok "unknown"%string) /\
  (forall r1 r2, Index.detectEventType ctx = r1 ->
                 Index.detectEventType ctx = r2 -> r1 = r2).
Proof.
  intros Hu. repeat split.
  - destruct (firstMatch_returns _ Hu Index.updateRules "unknown") as (c & Hc & Hin).
    exists c. repeat split; assumption.
  - intros H. now apply firstMatch_fallback.
  - intros r1 r2 <- <-. reflexivity.
Qed.

(** C3 fails when the context has no update: reading [update.message]
    raises a [TypeError] and no category is returned. *)
Lemma detectEventType_throws_without_update :
  prop [] "update" = VUndef /\
  Index.detectEventType [] = Throw TypeError /\
  Part000.detectEventType [] = Throw TypeError.
Proof. repeat split. Qed.

Lemma detectEventType_total_witness :
  nullish (prop inlineQueryCtx "update") = false /\
  exists c, Index.detectEventType inlineQueryCtx = Ok c /\
            Part000.detectEventType inlineQueryCtx = Ok c /\
            In c categories.
Proof.
  split; [reflexivity|].
  apply (proj1 (detectEventType_total inlineQueryCtx eq_refl)).
Defined.

(** C4. In the second document of index.js, a message that carries both a
    successful payment and a text is classified [successful_payment]: the
    payment test comes first. *)
Theorem payment_wins_over_text (ctx : context) :
  let message := member (prop ctx "update") "message" in
  truthy message = true ->
  truthy (member message "successful_payment") = true ->
  truthy (member message "text") = true ->
  Legacy.detectEventType ctx = Ok "successful_payment"%string.
Proof.
  intros message Hm Hsp Htext. unfold Legacy.detectEventType.
  assert (nullish (prop ctx "update") = false) as Hu.
  { destruct (prop ctx "update"); try reflexivity; discriminate Hm. }
  unfold get at 1. rewrite Hu. cbn [bind]. fold message. rewrite Hm.
  apply firstMatch_first; [now apply truthy_not_nullish | exact Hsp].
Qed.

Lemma payment_wins_over_text_witness :
  Legacy.detectEventType paymentCtx = Ok "successful_payment"%string.
Proof.
  apply (payment_wins_over_text paymentCtx); reflexivity.
Defined.

(** The text alone makes a [text_message]: the order of the tests decides. *)
Lemma text_alone_is_text_message (ctx : context) :
  let message := member (prop ctx "update") "message" in
  truthy message = true ->
  truthy (member message "successful_payment") = false ->
  truthy (member message "invoice") = false ->
  truthy (member message "text") = true ->
  Legacy.detectEventType ctx = Ok "text_message"%string.
Proof.
  intros message Hm Hsp Hinv Htext. unfold Legacy.detectEventType.
  assert (nullish (prop ctx "update") = false) as Hu.
  { destruct (prop ctx "update"); try reflexivity; discriminate Hm. }
  unfold get at 1. rewrite Hu. cbn [bind]. fold message. rewrite Hm.
  pose proof (truthy_not_nullish _ Hm) as Hn.
  unfold Legacy.messageRules. simpl. unfold get. rewrite Hn. simpl.
  now rewrite Hsp, Hinv, Htext.
Qed.

(* ===================================================================== *)
(** ** The Field Redactor *)
(* ===================================================================== *)

Section Redactor.

Lemma substring_0_length (s : string) (n : nat) :
  (n <= String.length s)%nat -> String.length (substring 0 n s) = n.
Proof.
  revert n. induction s as [|c r IH]; intros [|n] H; simpl in *; try reflexivity; try lia.
  f_equal. apply IH. lia.
Qed.

Lemma substring_0_all (s : string) (n : nat) :
  (String.length s <= n)%nat -> substring 0 n s = s.
Proof.
  revert n. induction s as [|c r IH]; intros [|n] H; simpl in *; try reflexivity; try lia.
  f_equal. apply IH. lia.
Qed.

Lemma append_length (s t : string) :
  String.length (s ++ t)%string = (String.length s + String.length t)%nat.
Proof. induction s as [|c r IH]; simpl; [reflexivity | now rewrite IH]. Qed.

(** [s.slice(0, max)] for a bound that is not negative: the first [max]
    code units, or all of [s]. *)
Lemma str_slice_0 (s : string) (max : Z) :
  0 <= max ->
  str_slice s 0 max = substring 0 (Z.to_nat (Z.min max (Z.of_nat (String.length s)))) s.
Proof.
  intros H. unfold str_slice, clamp. cbv zeta.
  destruct (Z.ltb_spec max 0); [lia|]. change (0 <? 0) with false. cbv iota.
  replace (Z.to_nat (Z.min 0 (Z.of_nat (String.length s)))) with 0%nat by lia.
  f_equal. lia.
Qed.

Lemma str_slice_0_length (s : string) (max : Z) :
  0 <= max ->
  Z.of_nat (String.length (str_slice s 0 max)) = Z.min max (Z.of_nat (String.length s)).
Proof.
  intros H. rewrite str_slice_0 by exact H.
  rewrite substring_0_length; lia.
Qed.

Lemma str_slice_0_short (s : string) (max : Z) :
  Z.of_nat (String.length s) <= max -> str_slice s 0 max = s.
Proof.
  intros H. rewrite str_slice_0 by lia. apply substring_0_all. lia.
Qed.

(** A string within the bound is not altered. *)
Lemma redact_short (s : string) (maxLength : Z) :
  Z.of_nat (String.length s) <= maxLength ->
  Index.safeText (VStr s) maxLength = VStr s /\
  Part000.safeText (VStr s) maxLength = Ok (VStr s) /\
  Part000.limitString s maxLength = s.
Proof.
  intros H. simpl. rewrite str_slice_0_short by exact H. repeat split.
  unfold Part000.limitString.
  destruct (Z.gtb_spec (Z.of_nat (String.length s)) maxLength); [lia | reflexivity].
Qed.

(** C7, as the code has it.  A string is cut by [slice(0, maxLength)]; [null]
    and [undefined] give [null]; an object that is not [null] is serialised
    and cut the same way by [safeText] of part_000, and gives [null] in
    [safeText] of index.js. *)
Theorem safeText_cases (maxLength : Z) :
  (forall s,
     Index.safeText (VStr s) maxLength = VStr (str_slice s 0 maxLength) /\
     Part000.safeText (VStr s) maxLength = Ok (VStr (str_slice s 0 maxLength))) /\
  (forall v, isObject v = true ->
     exists serialized,
       JSON_stringify v = VStr serialized /\
       Part000.safeText v maxLength = Ok (VStr (str_slice serialized 0 maxLength)) /\
       Index.safeText v maxLength = VNull) /\
  (forall v, nullish v = true ->
     Index.safeText v maxLength = VNull /\
     Part000.safeText v maxLength = Ok VNull).
Proof.
  split; [|split].
  - intros s. split; reflexivity.
  - intros v Hv. destruct v; try discriminate Hv.
    + destruct (JSON_stringify_object (VArr items) I) as [ser Hser].
      exists ser. split; [exact Hser|]. split; [|reflexivity].
      unfold Part000.safeText. rewrite Hser. reflexivity.
    + destruct (JSON_stringify_object (VObj props) I) as [ser Hser].
      exists ser. split; [exact Hser|]. split; [|reflexivity].
      unfold Part000.safeText. rewrite Hser. reflexivity.
  - intros v Hv. destruct v; try discriminate; split; reflexivity.
Qed.

(** C7 fails on index.js: its [safeText] gives [null] for an object. *)
Lemma safeText_index_drops_objects :
  isObject (VObj []) = true /\
  JSON_stringify (VObj []) = VStr "{}" /\
  Index.safeText (VObj []) 500 = VNull.
Proof. repeat split. Qed.

Lemma safeText_cases_witness :
  isObject sampleUser = true /\
  exists serialized,
    JSON_stringify sampleUser = VStr serialized /\
    Part000.safeText sampleUser 10 = Ok (VStr (str_slice serialized 0 10)) /\
    Index.safeText sampleUser 10 = VNull.
Proof.
  split; [reflexivity|].
  apply (proj1 (proj2 (safeText_cases 10)) sampleUser). reflexivity.
Defined.

(** Numbers and booleans give [null] in both. *)
Lemma safeText_other_scalars (v : value) (maxLength : Z) :
  match v with VBool _ | VNum _ => True | _ => False end ->
  Index.safeText v maxLength = VNull /\ Part000.safeText v maxLength = Ok VNull.
Proof. destruct v; intros H; try contradiction; split; reflexivity. Qed.

End Redactor.

(* ===================================================================== *)
(** ** The Recursive Sanitizer *)
(* ===================================================================== *)

Section Sanitizer.

Arguments Part000.includes : simpl never.
Arguments isMediaLike : simpl never.

(** The keys that the sanitizer tests are the eleven media-like fields. *)
Lemma mediaKeys_named (key : string) :
  Part000.includes Part000.mediaKeys key = isMediaLike key.
Proof. reflexivity. Qed.

Lemma mediaLike_included (key : string) :
  In key mediaLikeFields -> Part000.includes Part000.mediaKeys key = true.
Proof.
  intros H. rewrite mediaKeys_named. apply existsb_exists.
  exists key. split; [exact H | apply String.eqb_refl].
Qed.

Lemma mediaLike_not_proto (key : string) :
  isMediaLike key = true -> String.eqb key "__proto__" = false.
Proof.
  intros H. apply existsb_exists in H. destruct H as (k & Hk & E).
  apply String.eqb_eq in E. subst k.
  repeat (destruct Hk as [<-|Hk]; [reflexivity|]). contradiction.
Qed.

Lemma lookup_obj_set_same (l : props_t) k v : lookup k (obj_set l k v) = Some v.
Proof.
  induction l as [|[k' v'] r IH]; simpl.
  - now rewrite String.eqb_refl.
  - destruct (String.eqb_spec k k') as [->|Hne]; simpl.
    + now rewrite String.eqb_refl.
    + destruct (String.eqb_spec k k'); [contradiction | exact IH].
Qed.

Lemma lookup_obj_set_other (l : props_t) k k' v :
  k' <> k -> lookup k' (obj_set l k v) = lookup k' l.
Proof.
  intros Hne. induction l as [|[k0 v0] r IH]; simpl.
  - destruct (String.eqb_spec k' k); [contradiction | reflexivity].
  - destruct (String.eqb_spec k k0) as [->|Hk]; simpl.
    + destruct (String.eqb_spec k' k0); [contradiction | reflexivity].
    + now rewrite IH.
Qed.

(** An assignment defines the key it names, or nothing. *)
Lemma put_cases (l : props_t) k v :
  (k = "__proto__"%string /\ put l k v = l) \/
  (k <> "__proto__"%string /\ put l k v = obj_set l k v).
Proof.
  unfold put. destruct (String.eqb_spec k "__proto__"); [left | right]; now split.
Qed.

Lemma put_In (l : props_t) k v kv : In kv (put l k v) -> In kv l \/ kv = (k, v).
Proof.
  destruct (put_cases l k v) as [[_ ->]|[_ ->]]; [now left | apply obj_set_In].
Qed.

Lemma lookup_put_other (l : props_t) k k' v :
  k' <> k -> lookup k' (put l k v) = lookup k' l.
Proof.
  intros Hne. destruct (put_cases l k v) as [[_ ->]|[_ ->]];
    [reflexivity | now apply lookup_obj_set_other].
Qed.

Lemma lookup_put_same (l : props_t) k v :
  lookup k (put l k v) = if String.eqb k "__proto__" then lookup k l else Some v.
Proof.
  unfold put. destruct (String.eqb k "__proto__"); [reflexivity | apply lookup_obj_set_same].
Qed.

Lemma lookup_In (l : props_t) k v : NoDup (keys l) -> In (k, v) l -> lookup k l = Some v.
Proof.
  induction l as [|[k0 v0] r IH]; simpl; intros Hnd H; [contradiction|].
  inversion Hnd; subst. destruct H as [H|H].
  - inversion H; subst. now rewrite String.eqb_refl.
  - destruct (String.eqb_spec k k0) as [->|Hk]; [|now apply IH].
    exfalso. match goal with Hn : ~ In _ _ |- _ => apply Hn end.
    apply in_map_iff. now exists (k0, v).
Qed.

Lemma mapM_Forall2 {A B} (f : A -> result B) (l : list A) (l' : list B) :
  mapM f l = Ok l' -> Forall2 (fun x y => f x = Ok y) l l'.
Proof.
  revert l'. induction l as [|x r IH]; simpl; intros l' H.
  - inversion H. constructor.
  - destruct (f x) as [y|e] eqn:Ex; simpl in H; [|discriminate].
    destruct (mapM f r) as [ys|e] eqn:Er; simpl in H; [|discriminate].
    inversion H; subst. constructor; [exact Ex | now apply IH].
Qed.

Lemma idPair_Ok (v p : value) : Part000.idPair v = Ok p -> p = idPairOf v.
Proof.
  unfold Part000.idPair, get. destruct (nullish v); simpl; [discriminate|].
  intros H. now inversion H.
Qed.

Lemma mapM_idPair (vs ps : list value) :
  mapM Part000.idPair vs = Ok ps -> ps = map idPairOf vs.
Proof.
  intros H. apply mapM_Forall2 in H.
  induction H as [|v p vs ps Hp _ IH]; simpl; [reflexivity|].
  now rewrite (idPair_Ok _ _ Hp), IH.
Qed.

Lemma forEntries_ext (b1 b2 : props_t -> string -> value -> result props_t)
    (es acc : props_t) :
  (forall out k v, b1 out k v = b2 out k v) ->
  Part000.forEntries b1 es acc = Part000.forEntries b2 es acc.
Proof.
  intros Hb. revert acc. induction es as [|[k v] rest IH]; intros acc; simpl; [reflexivity|].
  rewrite Hb. destruct (b2 acc k v); simpl; [apply IH | reflexivity].
Qed.

(** The loop of [sanitize], one entry at a time. *)
Lemma sanitize_object (max : Z) (props : props_t) :
  Part000.sanitize max (VObj props) =
  (out <- Part000.forEntries
            (fun out key val => r <- sanitizeEntry max key val ;; Ok (assign out key r))
            props [] ;;
   Ok (VObj out)).
Proof.
  cbn [Part000.sanitize]. f_equal. apply forEntries_ext.
  intros out k v. unfold sanitizeEntry.
  destruct v; try reflexivity;
    destruct (Part000.includes Part000.mediaKeys k); try reflexivity;
    cbn [bind];
    match goal with
    | |- bind ?c _ = bind (bind ?c _) _ => destruct c; reflexivity
    end.
Qed.

Section Loop.

Variable step : string -> value -> result (option value).

Let body (out : props_t) (key : string) (val : value) : result props_t :=
  r <- step key val ;; Ok (assign out key r).

Lemma forEntries_lookup (es acc out : props_t) :
  Part000.forEntries body es acc = Ok out ->
  NoDup (keys es) ->
  (forall k, In k (keys es) -> lookup k acc = None) ->
  (forall k val, In (k, val) es ->
     exists r, step k val = Ok r /\
               lookup k out = if String.eqb k "__proto__" then None else r) /\
  (forall k, ~ In k (keys es) -> lookup k out = lookup k acc).
Proof.
  revert acc. induction es as [|[k0 v0] rest IH]; simpl; intros acc H Hnd Hacc.
  - inversion H; subst. split; [intros ? ? [] | reflexivity].
  - unfold body at 1 in H. destruct (step k0 v0) as [r0|e] eqn:E0; simpl in H; [|discriminate].
    inversion Hnd as [|? ? Hk0 Hrest]; subst.
    assert (forall k, k <> k0 -> lookup k (assign acc k0 r0) = lookup k acc) as Hother.
    { intros k Hk. destruct r0; simpl; [now apply lookup_put_other | reflexivity]. }
    destruct (IH (assign acc k0 r0) H Hrest) as [IH1 IH2].
    { intros k Hk. rewrite Hother; [apply Hacc; now right|].
      intros ->. contradiction. }
    split.
    + intros k val [Heq|Hin].
      * inversion Heq; subst. exists r0. split; [exact E0|].
        rewrite (IH2 k Hk0). destruct r0; simpl.
        -- rewrite lookup_put_same. destruct (String.eqb k "__proto__"); [|reflexivity].
           apply Hacc. now left.
        -- rewrite (Hacc k (or_introl eq_refl)). now destruct (String.eqb k "__proto__").
      * now apply IH1.
    + intros k Hk. rewrite IH2; [|tauto]. apply Hother. intros ->. apply Hk. now left.
Qed.

Lemma forEntries_Forall (Q : string * value -> Prop) (es acc out : props_t) :
  Part000.forEntries body es acc = Ok out ->
  Forall Q acc ->
  (forall k val r, In (k, val) es -> step k val = Ok (Some r) -> Q (k, r)) ->
  Forall Q out.
Proof.
  revert acc. induction es as [|[k0 v0] rest IH]; simpl; intros acc H Hacc Hstep.
  - now inversion H; subst.
  - unfold body at 1 in H. destruct (step k0 v0) as [r0|e] eqn:E0; simpl in H; [|discriminate].
    apply (IH (assign acc k0 r0) H).
    + destruct r0 as [r|]; simpl; [|exact Hacc].
      apply Forall_forall. intros kv Hkv.
      destruct (put_In _ _ _ _ Hkv) as [Hin| ->].
      * rewrite Forall_forall in Hacc. now apply Hacc.
      * apply (Hstep k0 v0 r); [now left | exact E0].
    + intros k val r Hin. apply Hstep. now right.
Qed.

End Loop.

(** What the sanitizer leaves under a key of the object it is given. *)
Lemma sanitize_entry (max : Z) (props : props_t) (out : value) (key : string) (val : value) :
  Part000.sanitize max (VObj props) = Ok out ->
  distinct (keys props) = true ->
  In (key, val) props ->
  exists r outp,
    sanitizeEntry max key val = Ok r /\ out = VObj outp /\
    lookup key outp = if String.eqb key "__proto__" then None else r.
Proof.
  intros H Hd Hin. rewrite sanitize_object in H.
  destruct (Part000.forEntries _ props []) as [outp|e] eqn:E; simpl in H; [|discriminate].
  inversion H; subst. apply distinct_NoDup in Hd.
  destruct (forEntries_lookup (sanitizeEntry max) props [] outp E Hd) as [H1 _];
    [reflexivity|].
  destruct (H1 key val Hin) as (r & Hr & Hl). exists r, outp. now repeat split.
Qed.

Lemma mapM_returns {A B} (f : A -> result B) (l : list A) :
  Forall (fun x => exists y, f x = Ok y) l -> exists l', mapM f l = Ok l'.
Proof.
  induction 1 as [|x r [y Hy] _ [ys Hys]]; simpl; [eauto|].
  rewrite Hy, Hys. simpl. eauto.
Qed.

Lemma forEntries_returns (step : string -> value -> result (option value))
    (es acc : props_t) :
  (forall k v, In (k, v) es -> exists r, step k v = Ok r) ->
  exists out,
    Part000.forEntries (fun out key val => r <- step key val ;; Ok (assign out key r))
      es acc = Ok out.
Proof.
  revert acc. induction es as [|[k v] rest IH]; simpl; intros acc H; [eauto|].
  destruct (H k v (or_introl eq_refl)) as [r ->]. cbn [bind].
  apply IH. intros k' v' Hin. apply H. now right.
Qed.

Lemma sanitize_returns (max : Z) (v : value) :
  sanitizable v = true -> exists out, Part000.sanitize max v = Ok out.
Proof.
  induction v as [ | | b | n | s | items IH | props IH ] using value_tree_ind;
    intros Hs; try (simpl; eauto; fail).
  - simpl in Hs. rewrite forallb_forall in Hs. rewrite Forall_forall in IH.
    destruct (mapM_returns (Part000.sanitize max) items) as [items' E].
    { apply Forall_forall. intros x Hx. now apply IH, Hs. }
    simpl. rewrite E. simpl. eauto.
  - rewrite sanitize_object. simpl in Hs. rewrite forallb_forall in Hs.
    rewrite Forall_forall in IH.
    destruct (forEntries_returns (sanitizeEntry max) props []) as [out E];
      [|rewrite E; simpl; eauto].
    intros k v Hin. specialize (Hs (k, v) Hin). specialize (IH (k, v) Hin).
    cbn [fst snd] in Hs, IH. unfold sanitizeEntry.
    rewrite <- ?mediaKeys_named in Hs.
    destruct v; try (eauto; fail);
      destruct (Part000.includes Part000.mediaKeys k);
      try (simpl; eauto; fail);
      try (destruct (IH Hs) as [r ->]; simpl; eauto; fail).
    destruct (mapM_returns Part000.idPair items) as [ps ->]; [|simpl; eauto].
    rewrite forallb_forall in Hs. apply Forall_forall. intros x Hx.
    specialize (Hs x Hx). unfold Part000.idPair, get.
    apply negb_true_iff in Hs. rewrite Hs. simpl. eauto.
Qed.

Lemma mapM_steps {A B} (f : A -> result B) (l : list A) (l' : list B) :
  mapM f l = Ok l' -> forall x, In x l -> exists y, f x = Ok y.
Proof.
  intros H x Hx. apply mapM_Forall2 in H.
  induction H as [|a b l l' Hab _ IH]; [contradiction|].
  destruct Hx as [<-|Hx]; eauto.
Qed.

Lemma forEntries_steps (step : string -> value -> result (option value))
    (es acc out : props_t) :
  Part000.forEntries (fun out key val => r <- step key val ;; Ok (assign out key r))
    es acc = Ok out ->
  forall k v, In (k, v) es -> exists r, step k v = Ok r.
Proof.
  revert acc. induction es as [|[k0 v0] rest IH]; simpl; intros acc H k v Hin;
    [contradiction|].
  destruct (step k0 v0) as [r0|e] eqn:E0; cbn [bind] in H; [|discriminate].
  destruct Hin as [Heq|Hin]; [inversion Heq; subst; eauto | eapply IH; eauto].
Qed.

(** ... and on no other tree. *)
Lemma sanitize_returns_only (max : Z) (v out : value) :
  Part000.sanitize max v = Ok out -> sanitizable v = true.
Proof.
  revert out.
  induction v as [ | | b | n | s | items IH | props IH ] using value_tree_ind;
    intros out H; try reflexivity.
  - simpl in H. destruct (mapM (Part000.sanitize max) items) as [items'|e] eqn:E;
      simpl in H; [|discriminate].
    simpl. apply forallb_forall. intros x Hx. rewrite Forall_forall in IH.
    destruct (mapM_steps _ _ _ E x Hx) as [y Hy]. now apply (IH x Hx y).
  - rewrite sanitize_object in H.
    destruct (Part000.forEntries _ props []) as [outp|e] eqn:E; simpl in H; [|discriminate].
    simpl. apply forallb_forall. intros [k v] Hin. cbn [fst snd].
    rewrite <- ?mediaKeys_named.
    destruct (forEntries_steps (sanitizeEntry max) props [] outp E k v Hin) as [r Hr].
    rewrite Forall_forall in IH. specialize (IH (k, v) Hin). cbn [snd] in IH.
    unfold sanitizeEntry in Hr.
    destruct v; try reflexivity;
      destruct (Part000.includes Part000.mediaKeys k); try reflexivity;
      try (destruct (Part000.sanitize max _) as [r'|e'] eqn:E' in Hr; cbn [bind] in Hr;
           [now apply (IH r') | discriminate]).
    destruct (mapM Part000.idPair items) as [ps|e'] eqn:E'; cbn [bind] in Hr; [|discriminate].
    apply forallb_forall. intros x Hx.
    destruct (mapM_steps _ _ _ E' x Hx) as [y Hy].
    unfold Part000.idPair, get in Hy. destruct (nullish x); [discriminate Hy | reflexivity].
Qed.

(** A string that is an element of an array is not a property value: the
    walk returns it as it is. *)
Lemma sanitize_array_strings_untouched (max : Z) (s : string) :
  Part000.sanitize max (VArr [VStr s]) = Ok (VArr [VStr s]).
Proof. reflexivity. Qed.

(** The walk raises on a media array that holds [null]. *)
Lemma sanitize_raises_on_null_item :
  sanitizable (prop brokenPhotoCtx "update") = false /\
  Part000.sanitizeUpdate (prop brokenPhotoCtx "update") 500 = Throw TypeError.
Proof. split; reflexivity. Qed.

End Sanitizer.

(* ===================================================================== *)
(** ** The Payload Composer *)
(* ===================================================================== *)

Section Composer.

Lemma lookup_None (l : props_t) k : ~ In k (keys l) -> lookup k l = None.
Proof.
  induction l as [|[k0 v0] r IH]; simpl; intros H; [reflexivity|].
  destruct (String.eqb_spec k k0) as [->|Hne]; [exfalso; apply H; now left|].
  apply IH. intros Hin. apply H. now right.
Qed.

Lemma lookup_filter_map (p : string * value -> bool) (f : value -> value)
    (l : props_t) k :
  NoDup (keys l) ->
  lookup k (filter p (map (fun kv => (fst kv, f (snd kv))) l)) =
  match lookup k l with
  | Some v => if p (k, f v) then Some (f v) else None
  | None => None
  end.
Proof.
  induction l as [|[k0 v0] r IH]; simpl; intros Hnd; [reflexivity|].
  inversion Hnd as [|? ? Hk0 Hr]; subst.
  destruct (String.eqb_spec k k0) as [->|Hne].
  - destruct (p (k0, f v0)); simpl.
    + now rewrite String.eqb_refl.
    + apply lookup_None. intros Hin. apply Hk0.
      apply in_map_iff in Hin. destruct Hin as (kv & Hkv & Hin).
      apply filter_In in Hin. destruct Hin as [Hin _].
      apply in_map_iff in Hin. destruct Hin as (kv0 & <- & Hin0). simpl in Hkv.
      apply in_map_iff. now exists kv0.
  - destruct (p (k0, f v0)); simpl.
    + destruct (String.eqb_spec k k0); [contradiction | now apply IH].
    + now apply IH.
Qed.

(** Reading a key of a pruned object (index.js). *)
Lemma Index_removeNulls_member (l : props_t) k :
  NoDup (keys l) ->
  member (Index.removeNulls (VObj l)) k =
  match lookup k l with
  | Some v =>
      let v' := Index.removeNulls v in
      if negb (nullish v') && negb (isEmptyArray v') then v' else VUndef
  | None => VUndef
  end.
Proof.
  intros Hnd. simpl.
  rewrite fromEntries_distinct
    by (apply keys_filter_NoDup; now rewrite keys_map_snd).
  pose proof (lookup_filter_map
                (fun kv => negb (nullish (snd kv)) && negb (isEmptyArray (snd kv)))
                Index.removeNulls l k Hnd) as Hl.
  simpl in Hl.
  destruct (0 <? Z.of_nat (List.length (keys (filter _ _)))) eqn:E.
  - simpl. rewrite Hl. destruct (lookup k l) as [v|]; [|reflexivity].
    now destruct (negb (nullish (Index.removeNulls v)) && _).
  - apply Z.ltb_ge in E. unfold keys in E. rewrite length_map in E.
    destruct (filter _ _); [|simpl in E; lia].
    simpl in Hl. simpl. destruct (lookup k l) as [v|]; [|reflexivity].
    destruct (negb (nullish (Index.removeNulls v)) && _); [discriminate | reflexivity].
Qed.

Lemma Index_removeNulls_scalar (v : value) : scalar v = true -> Index.removeNulls v = v.
Proof. destruct v; simpl; intros H; try discriminate; reflexivity. Qed.

Lemma Index_removeNulls_member_scalar (l : props_t) k v :
  NoDup (keys l) -> lookup k l = Some v -> scalar v = true ->
  member (Index.removeNulls (VObj l)) k = v.
Proof.
  intros Hnd Hl Hs. rewrite Index_removeNulls_member by exact Hnd.
  rewrite Hl. cbv zeta. rewrite (Index_removeNulls_scalar v Hs).
  destruct v; try discriminate; reflexivity.
Qed.

Lemma pick_verbatim (src : value) (fields : list (string * string)) :
  nullish src = false -> Legacy.pick src fields = Ok (verbatim src fields).
Proof.
  intros Hn. unfold Legacy.pick, verbatim.
  assert (mapM (fun fn => x <- get src (snd fn) ;; Ok (fst fn, x)) fields
          = Ok (map (fun fn => (fst fn, member src (snd fn))) fields)) as ->; [|reflexivity].
  induction fields as [|fn rest IH]; simpl; [reflexivity|].
  unfold get at 1. rewrite Hn. simpl. now rewrite IH.
Qed.

(** The tests that a financial category has passed. *)
Lemma detect_inv (ctx : context) (et : string) :
  Legacy.detectEventType ctx = Ok et ->
  Legacy.financial et = true ->
  let update := prop ctx "update" in
  let message := member update "message" in
  nullish update = false /\
  ((et = "successful_payment" /\ truthy message = true /\
    truthy (member message "successful_payment") = true) \/
   (et = "invoice" /\ truthy message = true /\
    truthy (member message "successful_payment") = false /\
    truthy (member message "invoice") = true) \/
   (et = "shipping_query" /\ truthy message = false /\
    truthy (member update "shipping_query") = true) \/
   (et = "pre_checkout_query" /\ truthy message = false /\
    truthy (member update "shipping_query") = false /\
    truthy (member update "pre_checkout_query") = true)).
Proof.
  intros H Hf update message.
  unfold Legacy.detectEventType in H. cbv zeta in H. fold update in H.
  unfold get in H.
  destruct (nullish update) eqn:Hu; cbn [bind] in H; [discriminate H|]. fold message in H.
  split; [reflexivity|].
  destruct (truthy message) eqn:Hm.
  - pose proof (truthy_not_nullish _ Hm) as Hn.
    unfold Legacy.messageRules in H. cbn [firstMatch] in H. unfold get in H.
    rewrite Hn in H. cbn [bind] in H.
    destruct (truthy (member message "successful_payment")) eqn:Hsp.
    + inversion H; subst. left. auto.
    + destruct (truthy (member message "invoice")) eqn:Hinv.
      * inversion H; subst. right. left. auto.
      * exfalso. 
        repeat match type of H with
         | context [if truthy ?x then _ else _] =>
             destruct (truthy x) eqn:?; [inversion H; subst; discriminate Hf|]
         end. inversion H; subst; discriminate Hf.
  - unfold Legacy.updateRules in H. cbn [firstMatch] in H. unfold get in H.
    rewrite Hu in H. cbn [bind] in H.
    repeat match type of H with
         | context [if truthy ?x then _ else _] =>
             destruct (truthy x) eqn:?; [inversion H; subst; try discriminate Hf|]
         end.
    + right. right. left. auto.
    + right. right. right. auto.
    + inversion H; subst; discriminate Hf.
Qed.

Lemma JSON_stringify_defined (v : value) :
  v <> VUndef -> exists s, JSON_stringify v = VStr s.
Proof.
  unfold JSON_stringify. destruct v as [ | |[|]| | | | ]; simpl; intros H; eauto.
  contradiction.
Qed.

Lemma falsy_opt_get (m : value) (k : string) : truthy m = false -> truthy (m?.k) = false.
Proof.
  destruct m as [ | |[|]|n|s| | ]; intros H; try discriminate H; try reflexivity.
  destruct s; [|discriminate H]. unfold opt_get. simpl.
  now destruct (String.eqb k "length").
Qed.

Lemma truthy_opt_get (m : value) (k : string) : truthy m = true -> m?.k = member m k.
Proof. intros H. unfold opt_get. now rewrite (truthy_not_nullish _ H). Qed.

Lemma payload_inv (ctx : context) (bot : value) (now : Z) (et : string) (p : value) :
  Legacy.detectEventType ctx = Ok et ->
  Legacy.payload ctx bot now = Ok p ->
  exists l pay,
    p = VObj l /\ distinct (keys l) = true /\
    Legacy.payment ctx = Ok pay /\
    lookup "payment" l = Some pay /\
    lookup "raw_update" l = Some (Legacy.raw_update ctx et) /\
    lookup "event_type" l = Some (VStr et).
Proof.
  intros Hd H. unfold Legacy.payload in H. rewrite Hd in H. cbn [bind] in H.
  destruct (get bot "botInfo") as [botInfo|]; cbn [bind] in H; [|discriminate].
  destruct (Legacy.opt_slice200 _) as [m|]; cbn [bind] in H; [|discriminate].
  destruct (Legacy.opt_slice200 _) as [c|]; cbn [bind] in H; [|discriminate].
  destruct (Legacy.opt_slice200 _) as [q|]; cbn [bind] in H; [|discriminate].
  destruct (Legacy.media ctx) as [med|]; cbn [bind] in H; [|discriminate].
  destruct (Legacy.payment ctx) as [pay|]; cbn [bind] in H; [|discriminate].
  inversion H; subst.
  eexists. exists pay. repeat split.
Qed.

Lemma payment_financial (ctx : context) (et : string) :
  let update := prop ctx "update" in
  prop ctx "message" = member update "message" ->
  prop ctx "preCheckoutQuery" = member update "pre_checkout_query" ->
  prop ctx "shippingQuery" = member update "shipping_query" ->
  Legacy.detectEventType ctx = Ok et ->
  Legacy.financial et = true ->
  Legacy.payment ctx = Ok (expectedPayment update et).
Proof.
  intros update Hmsg Hpcq Hsq Hd Hf.
  destruct (detect_inv ctx et Hd Hf) as [Hu Hcases]. fold update in Hu, Hcases.
  unfold Legacy.payment, Legacy.path2, expectedPayment. rewrite Hmsg, Hpcq, Hsq.
  destruct Hcases as [(-> & Hm & Hsp)|[(-> & Hm & Hsp & Hinv)|[(-> & Hm & Hs)|(-> & Hm & Hs & Hp)]]].
  - rewrite (truthy_opt_get _ _ Hm), Hsp.
    unfold get. rewrite (truthy_not_nullish _ Hm). cbn [bind].
    now rewrite pick_verbatim by now apply truthy_not_nullish.
  - rewrite !(truthy_opt_get _ _ Hm), Hsp, Hinv.
    unfold get. rewrite (truthy_not_nullish _ Hm). cbn [bind].
    now rewrite pick_verbatim by now apply truthy_not_nullish.
  - rewrite !(falsy_opt_get _ _ Hm). simpl String.eqb. cbv iota.
    destruct (truthy (member update "pre_checkout_query")) eqn:Hp.
    + now rewrite pick_verbatim by now apply truthy_not_nullish.
    + rewrite Hs. now rewrite pick_verbatim by now apply truthy_not_nullish.
  - rewrite !(falsy_opt_get _ _ Hm). simpl String.eqb. cbv iota. rewrite Hp.
    now rewrite pick_verbatim by now apply truthy_not_nullish.
Qed.

Lemma member_scalar_lookup (l : props_t) (k : string) :
  scalar (member (VObj l) k) = true -> lookup k l = Some (member (VObj l) k).
Proof. simpl. destruct (lookup k l); [reflexivity | discriminate]. Qed.

Lemma Index_removeNulls_member_nested (l pl : props_t) (k f : string) :
  NoDup (keys l) -> NoDup (keys pl) ->
  lookup k l = Some (VObj pl) ->
  scalar (member (VObj pl) f) = true ->
  member (member (Index.removeNulls (VObj l)) k) f = member (VObj pl) f.
Proof.
  intros Hl Hpl Hk Hs.
  pose proof (Index_removeNulls_member_scalar pl f _ Hpl (member_scalar_lookup _ _ Hs) Hs) as Hin.
  rewrite (Index_removeNulls_member l k Hl), Hk. cbv zeta.
  destruct (Index.removeNulls (VObj pl)) eqn:E; simpl negb; simpl andb; cbv iota;
    try exact Hin; try (rewrite <- Hin in Hs; discriminate Hs).
  exfalso. simpl in E. destruct (0 <? _); discriminate E.
Qed.

Lemma Part000_payload_object (ctx : context) (bot : value) (inc : bool) (max : Z) :
  exists l, Part000.payload ctx bot inc max = Ok (VObj l) /\
            lookup "raw_update" l = Some (Part000.raw_update ctx inc max) /\
            (forall k v, In (k, v) l -> k = "raw_update" ->
                         v = Part000.raw_update ctx inc max).
Proof.
  unfold Part000.payload, Part000.payload_with. destruct (Part000.botIdentity ctx bot) as [botId botUsername].
  destruct (Part000_safeText_returns ((prop ctx "message")?."text") max) as [m ->].
  destruct (Part000_safeText_returns ((prop ctx "callbackQuery")?."data") max) as [c ->].
  destruct (Part000_safeText_returns ((prop ctx "inlineQuery")?."query") max) as [q ->].
  cbn [bind]. eexists. split; [reflexivity|]. split; [reflexivity|].
  intros k v Hin ->. simpl in Hin.
  repeat (destruct Hin as [Hin|Hin]; [inversion Hin; try reflexivity|]).
  contradiction.
Qed.

(** In index.js the guarded block is [JSON.stringify] alone, which does not
    raise on a tree: the snapshot is there whenever the update is truthy. *)
Lemma Index_snapshot (ctx : context) (bot : value) (maxTextLength : Z) :
  member (Index.payload ctx bot true maxTextLength) "raw_update"
  = if truthy (prop ctx "update") then JSON_stringify (prop ctx "update") else VNull.
Proof.
  unfold Index.payload, Index.payload_with. cbn [member lookup String.eqb Ascii.eqb Bool.eqb].
  unfold Index.raw_update_with, stringify_tree.
  now destruct (truthy (prop ctx "update")).
Qed.

End Composer.

(* ===================================================================== *)
(** ** The scenarios of the specification, run *)
(* ===================================================================== *)

Example sampleTree_pruned :
  Index.removeNulls sampleTree
  = VObj [("a", VNum 0); ("b", VArr [VBool false; VObj [("c", VStr EmptyString)]])] /\
  Part000.removeNulls sampleTree
  = VObj [("a", VNum 0);
          ("b", VArr [VBool false; VNull; VObj [("c", VStr EmptyString)]]);
          ("e", VObj []); ("g", VArr [])].
Proof. split; reflexivity. Qed.

Example scenario_A :
  Legacy.detectEventType helloCtx = Ok "text_message"%string /\
  Index.detectEventType helloCtx = Ok "message"%string /\
  exists record,
    Legacy.safeCtx helloCtx sampleBot 1700000002000 = Ok record /\
    member record "message" = VStr "Hello world" /\
    member record "media" = VUndef /\
    member record "payment" = VUndef.
Proof. repeat split. eexists. repeat split. Qed.

Example scenario_B :
  exists record,
    Legacy.safeCtx paymentCtx sampleBot 1700000000123 = Ok record /\
    member record "event_type" = VStr "successful_payment" /\
    member record "payment" = successfulPayment /\
    member record "raw_update" = JSON_stringify (prop paymentCtx "update").
Proof. eexists. repeat split. Qed.

Example scenario_C :
  exists out,
    Part000.sanitizeUpdate photoUpdate 500 = Ok out /\
    member (member out "message") "photo"
    = VArr [ VObj [("file_id", VStr "A1"); ("file_unique_id", VStr "u1")];
             VObj [("file_id", VStr "A2"); ("file_unique_id", VStr "u2")] ].
Proof. eexists. split; reflexivity. Qed.

Example scenario_D :
  Index.detectEventType strangeCtx = Ok "unknown"%string /\
  Index.safeCtx strangeCtx sampleBot false 500
  = VObj [ ("bot", VObj [("username", VStr "hippo_bot"); ("id", VNum 42)]);
           ("user", VObj [("id", VNum 7); ("first_name", VStr "Ada")]);
           ("chat", VObj [("id", VNum 2); ("type", VStr "private")]) ].
Proof. split; reflexivity. Qed.

Example stringify_nested :
  JSON_stringify (VObj [("n", VNum (-5)); ("l", VArr [VUndef; VBool true]); ("u", VUndef)])
  = VStr (String.concat EmptyString
            ["{"; dquote; "n"; dquote; ":-5,"; dquote; "l"; dquote; ":[null,true]}"]%string).
Proof. reflexivity. Qed.

Example slice_from_the_end : str_slice "abc" 0 (-1) = "ab"%string.
Proof. reflexivity. Qed.

(* ===================================================================== *)
(** ** Further properties: the pruners together *)
(* ===================================================================== *)

Section PrunerMore.

Lemma Part000_removeNulls_nullish (x : value) :
  nullish (Part000.removeNulls x) = nullish x.
Proof. destruct x; reflexivity. Qed.

Lemma filter_map_filter {A B} (p : A -> bool) (q : B -> bool) (g : A -> B) (l : list A) :
  (forall x, In x l -> p x = false -> q (g x) = false) ->
  filter q (map g (filter p l)) = filter q (map g l).
Proof.
  induction l as [|x r IH]; simpl; intros H; [reflexivity|].
  assert (filter q (map g (filter p r)) = filter q (map g r)) as IH'.
  { apply IH. intros y Hy. apply H. now right. }
  destruct (p x) eqn:E; simpl.
  - now rewrite IH'.
  - now rewrite (H x (or_introl eq_refl) E).
Qed.

Lemma Index_after_Part000 (x : value) :
  well_formed x = true ->
  Index.removeNulls (Part000.removeNulls x) = Index.removeNulls x.
Proof.
  induction x as [ | | b | n | s | items IH | props IH ] using value_tree_ind;
    intros Hwf; try reflexivity.
  - simpl in *. rewrite forallb_forall in Hwf. rewrite Forall_forall in IH.
    do 2 f_equal. rewrite map_map. apply map_ext_in. intros v Hv. now apply IH, Hwf.
  - simpl in Hwf. apply andb_true_iff in Hwf. destruct Hwf as [Hd Hall].
    apply distinct_NoDup in Hd. rewrite forallb_forall in Hall.
    rewrite Forall_forall in IH.
    cbn [Part000.removeNulls].
    rewrite (fromEntries_distinct (filter _ (map _ props)))
      by (apply keys_filter_NoDup; now rewrite keys_map_snd).
    cbn [Index.removeNulls].
    rewrite (filter_map_filter
               (fun kv => negb (nullish (snd kv)))
               (fun kv => negb (nullish (snd kv)) && negb (isEmptyArray (snd kv)))
               (fun kv => (fst kv, Index.removeNulls (snd kv)))).
    + rewrite map_map. cbn [fst snd].
      assert (map (fun x => (fst x, Index.removeNulls (Part000.removeNulls (snd x)))) props
              = map (fun kv => (fst kv, Index.removeNulls (snd kv))) props) as ->;
        [|reflexivity].
      apply map_ext_in. intros kv Hkv. f_equal. now apply IH, Hall.
    + intros kv _ Hn. cbn [fst snd] in *. apply negb_false_iff in Hn.
      destruct (snd kv); try discriminate Hn; reflexivity.
Qed.

(** X1. The two pruners compose: pruning with part_000 what index.js has
    pruned changes nothing, and pruning with index.js what part_000 has
    pruned gives what index.js gives on the tree itself (for a tree whose
    objects list each key once). *)
Theorem removeNulls_compose (x : value) :
  Part000.removeNulls (Index.removeNulls x) = Index.removeNulls x /\
  (well_formed x = true ->
   Index.removeNulls (Part000.removeNulls x) = Index.removeNulls x).
Proof.
  split; [|apply Index_after_Part000].
  induction x as [ | | b | n | s | items IH | props IH ] using value_tree_ind;
    try reflexivity.
  - simpl. f_equal. apply map_fixed. intros v Hv.
    apply filter_In in Hv. destruct Hv as [Hv _].
    apply in_map_iff in Hv. destruct Hv as (v0 & <- & Hv0).
    rewrite Forall_forall in IH. now apply IH.
  - cbn [Index.removeNulls].
    set (cleaned := fromEntries _).
    destruct (0 <? Z.of_nat (List.length (keys cleaned))); [|reflexivity].
    cbn [Part000.removeNulls]. f_equal.
    assert (forall kv, In kv cleaned ->
                       nullish (snd kv) = false /\ Part000.removeNulls (snd kv) = snd kv) as Hc.
    { intros kv Hin. apply fromEntries_In, filter_In in Hin. destruct Hin as [Hin Hk].
      apply andb_true_iff in Hk. destruct Hk as [Hk _]. apply negb_true_iff in Hk.
      split; [exact Hk|].
      apply in_map_iff in Hin. destruct Hin as (kv0 & <- & Hin0). cbn [snd].
      rewrite Forall_forall in IH. now apply IH. }
    rewrite map_fixed.
    + rewrite filter_all; [apply fromEntries_fixed|].
      intros kv Hin. destruct (Hc kv Hin) as [Hn _]. now rewrite Hn.
    + intros [k v] Hin. cbn [fst snd]. f_equal. now apply (Hc (k, v)).
Qed.

Lemma removeNulls_compose_witness :
  well_formed sampleTree = true /\
  Index.removeNulls (Part000.removeNulls sampleTree) = Index.removeNulls sampleTree.
Proof.
  split; [reflexivity|].
  apply (proj2 (removeNulls_compose sampleTree)). reflexivity.
Defined.

End PrunerMore.

Section PrunerShapes.

(** X2. What the pruners return.  index.js: never an empty object; for an
    object, [null] or an object; for an array, an array that is no longer
    and holds no [null] -- an array that empties stays an empty array.
    part_000: for an array an array of the same length, for an object an
    object. *)
Theorem removeNulls_shapes (x : value) :
  isEmptyObject (Index.removeNulls x) = false /\
  (isObject x = true -> nullish (Index.removeNulls x) = true \/
                        isObject (Index.removeNulls x) = true) /\
  (forall items, x = VArr items ->
     exists l, Index.removeNulls x = VArr l /\
               (List.length l <= List.length items)%nat /\
               forallb (fun v => negb (nullish v)) l = true) /\
  (forall items, x = VArr items ->
     exists l, Part000.removeNulls x = VArr l /\ List.length l = List.length items) /\
  (forall props, x = VObj props -> exists l, Part000.removeNulls x = VObj l).
Proof.
  split; [apply Index_removeNulls_not_empty_object|].
  split; [|split; [|split]].
  - destruct x; try discriminate; intros _; simpl; [now right|].
    destruct (0 <? _); [now right | now left].
  - intros items ->. eexists. split; [reflexivity|]. split.
    + rewrite <- (length_map Index.removeNulls items). apply filter_length_le.
    + apply forallb_forall. intros v Hv. now apply filter_In in Hv.
  - intros items ->. eexists. split; [reflexivity | apply length_map].
  - intros props ->. eexists. reflexivity.
Qed.

Lemma removeNulls_shapes_witness :
  isObject sampleTree = true /\
  (nullish (Index.removeNulls sampleTree) = true \/
   isObject (Index.removeNulls sampleTree) = true).
Proof.
  split; [reflexivity|].
  apply (proj1 (proj2 (removeNulls_shapes sampleTree))). reflexivity.
Defined.

End PrunerShapes.

Section Dates.

Lemma coalesce_null_then (x y : value) : (x ?? VNull) ?? y = x ?? y.
Proof. unfold coalesce. now destruct (nullish x) eqn:E; [|rewrite E]. Qed.

Lemma coalesce_null_defined (x : value) : x ?? VNull <> VUndef.
Proof. unfold coalesce. destruct x; simpl; discriminate. Qed.

(** X3. The timestamp of part_000 is that of index.js whenever index.js
    finds one; otherwise it is the date of [chatMember], else of
    [myChatMember], else [null].  Neither returns [undefined]. *)
Theorem extractTgDate_versions (ctx : context) :
  Part000.extractTgDate ctx
  = Index.extractTgDate ctx ??
    (prop ctx "chatMember")?."date" ?? (prop ctx "myChatMember")?."date" ?? VNull /\
  (nullish (Index.extractTgDate ctx) = false ->
   Part000.extractTgDate ctx = Index.extractTgDate ctx) /\
  Index.extractTgDate ctx <> VUndef /\
  Part000.extractTgDate ctx <> VUndef.
Proof.
  assert (Part000.extractTgDate ctx
          = Index.extractTgDate ctx ??
            (prop ctx "chatMember")?."date" ?? (prop ctx "myChatMember")?."date" ?? VNull) as H.
  { unfold Part000.extractTgDate, Index.extractTgDate. now rewrite coalesce_null_then. }
  split; [exact H|]. split; [|split].
  - intros Hn. rewrite H. unfold coalesce at 3. rewrite Hn.
    unfold coalesce at 2. rewrite Hn. unfold coalesce at 1. now rewrite Hn.
  - apply coalesce_null_defined.
  - apply coalesce_null_defined.
Qed.

Lemma extractTgDate_versions_witness :
  nullish (Index.extractTgDate helloCtx) = false /\
  Part000.extractTgDate helloCtx = Index.extractTgDate helloCtx.
Proof.
  split; [reflexivity|].
  apply (proj1 (proj2 (extractTgDate_versions helloCtx))). reflexivity.
Defined.

Example chatMember_date :
  Index.extractTgDate chatMemberCtx = VNull /\
  Part000.extractTgDate chatMemberCtx = VNum 1700000003.
Proof. split; reflexivity. Qed.

End Dates.

Section BotIdentity.

(** X4. The bot identity of part_000: an id or a username that the bot
    handle gives (not [null], not [undefined]) is never replaced; when the
    sender found in the update is not flagged [is_bot] nothing is taken from
    it; when it is, and the handle gives neither, both come from the
    sender. *)
Theorem botIdentity_keeps_known (ctx : context) (bot : value) :
  let knownId := bot?."botInfo"?."id" ?? VNull in
  let knownUsername := bot?."botInfo"?."username" ?? VNull in
  (nullish knownId = false -> fst (Part000.botIdentity ctx bot) = knownId) /\
  (nullish knownUsername = false -> snd (Part000.botIdentity ctx bot) = knownUsername) /\
  (truthy ((botFrom ctx)?."is_bot") = false ->
   Part000.botIdentity ctx bot = (knownId, knownUsername)) /\
  (truthy ((botFrom ctx)?."is_bot") = true ->
   nullish knownId = true -> nullish knownUsername = true ->
   Part000.botIdentity ctx bot
   = (member (botFrom ctx) "id", member (botFrom ctx) "username")).
Proof.
  intros knownId knownUsername. unfold Part000.botIdentity.
  fold knownId knownUsername. fold (botFrom ctx).
  repeat split.
  - intros Hn.
    destruct (negb (truthy knownId) || negb (truthy knownUsername)); [|reflexivity].
    destruct (truthy _); [|reflexivity]. simpl. unfold coalesce. now rewrite Hn.
  - intros Hn.
    destruct (negb (truthy knownId) || negb (truthy knownUsername)); [|reflexivity].
    destruct (truthy _); [|reflexivity]. simpl. unfold coalesce. now rewrite Hn.
  - intros Hb. rewrite Hb. now destruct (negb _ || negb _).
  - intros Hb Hi Hu. rewrite Hb.
    assert (truthy knownId = false) as -> by (destruct knownId; try discriminate; reflexivity).
    simpl. unfold coalesce. now rewrite Hi, Hu.
Qed.

Lemma botIdentity_keeps_known_witness :
  truthy ((botFrom botSenderCtx)?."is_bot") = true /\
  Part000.botIdentity botSenderCtx VUndef = (VNum 42, VStr "hippo_bot").
Proof.
  split; [reflexivity|].
  apply (proj2 (proj2 (proj2 (botIdentity_keeps_known botSenderCtx VUndef))));
    reflexivity.
Defined.

End BotIdentity.

Section Posted.

Lemma stamp_lookup (base : props_t) (e d a : value) :
  let full := obj_set (obj_set (obj_set base "event_type" e) "tg_date" d) "app_date" a in
  lookup "event_type" full = Some e /\
  lookup "tg_date" full = Some d /\
  lookup "app_date" full = Some a /\
  (forall k, ~ In k stampKeys -> lookup k full = lookup k base).
Proof.
  intros full. unfold full. repeat split.
  - rewrite !lookup_obj_set_other by discriminate. apply lookup_obj_set_same.
  - rewrite lookup_obj_set_other by discriminate. apply lookup_obj_set_same.
  - apply lookup_obj_set_same.
  - intros k Hk. unfold stampKeys in Hk. simpl in Hk.
    rewrite !lookup_obj_set_other; [reflexivity | | | ]; intros ->; tauto.
Qed.

(** X5. The record that [hippoTrack] posts (index.js and part_000) is the
    record of [safeCtx] with [event_type], [tg_date] and [app_date] set on
    it: these three read as the category, the timestamp and the clock in
    seconds, every other key reads as in the record of [safeCtx].  With no
    update on the context no record is built. *)
Theorem posted_record (ctx : context) (bot : value) (inc : bool) (max now : Z) :
  (nullish (prop ctx "update") = true ->
   Index.hippoTrack_payload ctx inc max now = Throw TypeError /\
   Part000.hippoTrack_payload ctx bot inc max now = Throw TypeError) /\
  (nullish (prop ctx "update") = false ->
   exists category,
     Index.detectEventType ctx = Ok category /\
     (exists full,
        Index.hippoTrack_payload ctx inc max now = Ok (VObj full) /\
        lookup "event_type" full = Some (VStr category) /\
        lookup "tg_date" full = Some (Index.extractTgDate ctx) /\
        lookup "app_date" full = Some (VNum (now / 1000)) /\
        (forall k, ~ In k stampKeys ->
           lookup k full
           = lookup k (spread (Index.safeCtx ctx (prop ctx "telegram") inc max)))) /\
     (exists record full,
        Part000.safeCtx ctx bot inc max = Ok (VObj record) /\
        Part000.hippoTrack_payload ctx bot inc max now = Ok (VObj full) /\
        lookup "event_type" full = Some (VStr category) /\
        lookup "tg_date" full = Some (Part000.extractTgDate ctx) /\
        lookup "app_date" full = Some (VNum (now / 1000)) /\
        (forall k, ~ In k stampKeys -> lookup k full = lookup k record))).
Proof.
  split.
  - intros Hu. unfold Index.hippoTrack_payload, Part000.hippoTrack_payload,
      Index.detectEventType, Part000.detectEventType. cbv zeta.
    unfold Part000.updateRules, Index.updateRules. cbn [firstMatch]. unfold get.
    rewrite Hu. split; reflexivity.
  - intros Hu.
    destruct (firstMatch_returns _ Hu Index.updateRules "unknown") as (category & Hc & _).
    exists category. split; [exact Hc|]. split.
    + eexists. split.
      * unfold Index.hippoTrack_payload, Index.detectEventType. cbv zeta.
        rewrite Hc. cbn [bind]. reflexivity.
      * apply stamp_lookup.
    + destruct (Part000_payload_object ctx bot inc max) as (l & Hp & _).
      eexists. eexists. split; [|split].
      * unfold Part000.safeCtx. rewrite Hp. reflexivity.
      * unfold Part000.hippoTrack_payload, Part000.detectEventType, Part000.updateRules.
        cbv zeta. rewrite Hc. cbn [bind]. unfold Part000.safeCtx. rewrite Hp. reflexivity.
      * apply stamp_lookup.
Qed.

Lemma posted_record_witness :
  nullish (prop helloCtx "update") = false /\
  exists category,
    Index.detectEventType helloCtx = Ok category /\
    exists full,
      Index.hippoTrack_payload helloCtx false 500 1700000002999 = Ok (VObj full) /\
      lookup "event_type" full = Some (VStr category) /\
      lookup "app_date" full = Some (VNum 1700000002).
Proof.
  split; [reflexivity|].
  destruct (proj2 (posted_record helloCtx sampleBot false 500 1700000002999) eq_refl)
    as (category & Hc & (full & Hf & He & _ & Ha & _) & _).
  exists category. split; [exact Hc|]. exists full. repeat split; assumption.
Defined.

Lemma minimal_null_key (l : props_t) (k : string) :
  lookup k l = Some VNull -> minimal (VObj l) = false.
Proof.
  induction l as [|[k0 v0] r IH]; simpl; [discriminate|].
  destruct (String.eqb k k0).
  - intros H. inversion H; subst. reflexivity.
  - intros H. simpl in IH. rewrite (IH H). apply andb_false_r.
Qed.

(** X6. The posted record is not pruned again: in index.js, when no date
    is found, it carries the key [tg_date] with [null] for value. *)
Theorem posted_record_null_date (ctx : context) (inc : bool) (max now : Z) :
  nullish (prop ctx "update") = false ->
  Index.extractTgDate ctx = VNull ->
  exists full,
    Index.hippoTrack_payload ctx inc max now = Ok (VObj full) /\
    lookup "tg_date" full = Some VNull /\
    minimal (VObj full) = false.
Proof.
  intros Hu Hd.
  destruct (firstMatch_returns _ Hu Index.updateRules "unknown") as (category & Hc & _).
  eexists. split.
  - unfold Index.hippoTrack_payload, Index.detectEventType. cbv zeta.
        rewrite Hc. cbn [bind]. reflexivity.
  - rewrite Hd.
    pose proof (stamp_lookup
                  (spread (Index.safeCtx ctx (prop ctx "telegram") inc max))
                  (VStr category) VNull (VNum (now / 1000))) as (_ & Ht & _).
    split; [exact Ht | now apply (minimal_null_key _ "tg_date")].
Qed.

Lemma posted_record_null_date_witness :
  nullish (prop inlineQueryCtx "update") = false /\
  Index.extractTgDate inlineQueryCtx = VNull /\
  exists full,
    Index.hippoTrack_payload inlineQueryCtx false 500 1700000000123 = Ok (VObj full) /\
    lookup "tg_date" full = Some VNull /\
    minimal (VObj full) = false.
Proof.
  split; [reflexivity|]. split; [reflexivity|].
  apply (posted_record_null_date inlineQueryCtx false 500 1700000000123); reflexivity.
Defined.

End Posted.

(* ===================================================================== *)
(** ** Further properties: the record *)
(* ===================================================================== *)

Section Record.

Lemma Part000_removeNulls_member (l : props_t) k :
  NoDup (keys l) ->
  member (Part000.removeNulls (VObj l)) k =
  match lookup k l with
  | Some v => if nullish v then VUndef else Part000.removeNulls v
  | None => VUndef
  end.
Proof.
  intros Hnd. cbn [Part000.removeNulls member].
  rewrite fromEntries_distinct
    by (apply keys_filter_NoDup; now rewrite keys_map_snd).
  rewrite (lookup_filter_map (fun kv => negb (nullish (snd kv))) Part000.removeNulls l k Hnd).
  destruct (lookup k l) as [v|]; [|reflexivity]. cbn [snd].
  rewrite Part000_removeNulls_nullish. now destruct (nullish v).
Qed.

Lemma Index_safeText_bounded (text : value) (max : Z) :
  0 <= max ->
  Index.safeText text max = VNull \/
  exists t, Index.safeText text max = VStr t /\ Z.of_nat (String.length t) <= max.
Proof.
  intros H. destruct text; simpl; auto. right. eexists. split; [reflexivity|].
  rewrite str_slice_0_length by exact H. lia.
Qed.

Lemma call_slice_stringify_bounded (v : value) (max : Z) :
  0 <= max -> isObject v = true ->
  exists t, call_slice (JSON_stringify v) 0 max = Ok (VStr t) /\
            Z.of_nat (String.length t) <= max.
Proof.
  intros H Hv. destruct (JSON_stringify_object v) as [ser Hser].
  { destruct v; try discriminate Hv; exact I. }
  rewrite Hser. eexists. split; [reflexivity|].
  rewrite str_slice_0_length by exact H. lia.
Qed.

Lemma Part000_safeText_bounded (text : value) (max : Z) :
  0 <= max ->
  Part000.safeText text max = Ok VNull \/
  exists t, Part000.safeText text max = Ok (VStr t) /\ Z.of_nat (String.length t) <= max.
Proof.
  intros H. destruct text; try (left; reflexivity); right.
  - eexists. split; [reflexivity|]. rewrite str_slice_0_length by exact H. lia.
  - apply (call_slice_stringify_bounded (VArr items) max H eq_refl).
  - apply (call_slice_stringify_bounded (VObj props) max H eq_refl).
Qed.

(** X7. For a bound that is not negative, each text of the record
    ([message], [callback_query], [inline_query]) is absent or a string of
    at most [maxTextLength] code units, in index.js and in part_000. *)
Theorem record_texts_bounded (ctx : context) (bot : value) (inc : bool) (max : Z)
    (key : string) :
  0 <= max -> In key textKeys ->
  boundedText max (member (Index.safeCtx ctx bot inc max) key) /\
  exists r, Part000.safeCtx ctx bot inc max = Ok r /\ boundedText max (member r key).
Proof.
  intros H Hkey. split.
  - unfold Index.safeCtx, Index.payload, Index.payload_with.
    rewrite Index_removeNulls_member by (apply distinct_NoDup; reflexivity).
    destruct Hkey as [<-|[<-|[<-|[]]]]; cbn [lookup String.eqb Ascii.eqb Bool.eqb]; cbv zeta;
      match goal with
      | |- context [Index.safeText ?t max] =>
          destruct (Index_safeText_bounded t max H) as [->|(s & -> & Hs)]
      end;
      simpl; unfold boundedText; eauto.
  - unfold Part000.safeCtx, Part000.payload, Part000.payload_with.
    destruct (Part000.botIdentity ctx bot) as [botId botUsername].
    destruct (Part000_safeText_bounded ((prop ctx "message")?."text") max H)
      as [Hm|(m & Hm & Hml)];
    destruct (Part000_safeText_bounded ((prop ctx "callbackQuery")?."data") max H)
      as [Hc|(c & Hc & Hcl)];
    destruct (Part000_safeText_bounded ((prop ctx "inlineQuery")?."query") max H)
      as [Hq|(q & Hq & Hql)];
    rewrite Hm, Hc, Hq; cbn [bind]; eexists; (split; [reflexivity|]);
    rewrite Part000_removeNulls_member by (apply distinct_NoDup; reflexivity);
    destruct Hkey as [<-|[<-|[<-|[]]]]; cbn [lookup String.eqb Ascii.eqb Bool.eqb];
      simpl; unfold boundedText; eauto.
Qed.

Lemma record_texts_bounded_witness :
  0 <= 5 /\ In "message" textKeys /\
  boundedText 5 (member (Index.safeCtx helloCtx sampleBot false 5) "message").
Proof.
  split; [lia|]. split; [now left|].
  apply (record_texts_bounded helloCtx sampleBot false 5 "message"); [lia | now left].
Defined.


Lemma Index_payload_keys (ctx : context) (bot : value) (inc : bool) (max : Z) :
  exists l, Index.payload ctx bot inc max = VObj l /\ NoDup (keys l).
Proof. eexists. split; [reflexivity | apply distinct_NoDup; reflexivity]. Qed.

Lemma Part000_payload_keys (ctx : context) (bot : value) (inc : bool) (max : Z) :
  exists l, Part000.payload ctx bot inc max = Ok (VObj l) /\
            NoDup (keys l) /\
            lookup "raw_update" l = Some (Part000.raw_update ctx inc max) /\
            (exists b, lookup "bot" l = Some (VObj b)) /\
            (exists u, lookup "user" l = Some (VObj u)) /\
            (exists c, lookup "chat" l = Some (VObj c)).
Proof.
  unfold Part000.payload, Part000.payload_with. destruct (Part000.botIdentity ctx bot) as [botId botUsername].
  destruct (Part000_safeText_returns ((prop ctx "message")?."text") max) as [m ->].
  destruct (Part000_safeText_returns ((prop ctx "callbackQuery")?."data") max) as [c ->].
  destruct (Part000_safeText_returns ((prop ctx "inlineQuery")?."query") max) as [q ->].
  cbn [bind]. eexists. split; [reflexivity|].
  split; [apply distinct_NoDup; reflexivity|].
  repeat split; eexists; reflexivity.
Qed.

(** X8. The snapshot.  Not asked for, the record has no [raw_update].  Asked
    for, index.js gives the whole serialised update whatever the text bound
    (when the update is truthy), and part_000 gives the serialisation of
    the sanitised update (when sanitising returns). *)
Theorem snapshot_cases (ctx : context) (bot : value) (max : Z) :
  member (Index.safeCtx ctx bot false max) "raw_update" = VUndef /\
  (exists r, Part000.safeCtx ctx bot false max = Ok r /\ member r "raw_update" = VUndef) /\
  (truthy (prop ctx "update") = true ->
   exists serialized,
     JSON_stringify (prop ctx "update") = VStr serialized /\
     member (Index.safeCtx ctx bot true max) "raw_update" = VStr serialized) /\
  (forall sanitized,
     Part000.sanitizeUpdate (prop ctx "update") max = Ok sanitized ->
     exists r, Part000.safeCtx ctx bot true max = Ok r /\
               member r "raw_update" = JSON_stringify sanitized).
Proof.
  split; [|split; [|split]].
  - unfold Index.safeCtx.
    destruct (Index_payload_keys ctx bot false max) as (l & Hl & Hnd).
    rewrite Hl in *. rewrite Index_removeNulls_member by exact Hnd.
    unfold Index.payload, Index.payload_with in Hl. inversion Hl; subst l. reflexivity.
  - destruct (Part000_payload_keys ctx bot false max) as (l & Hl & Hnd & Hraw & _).
    unfold Part000.safeCtx. rewrite Hl. cbn [bind]. eexists. split; [reflexivity|].
    rewrite Part000_removeNulls_member by exact Hnd. now rewrite Hraw.
  - intros Ht.
    destruct (JSON_stringify_defined (prop ctx "update")) as [ser Hser].
    { intros E. rewrite E in Ht. discriminate Ht. }
    exists ser. split; [exact Hser|].
    unfold Index.safeCtx.
    destruct (Index_payload_keys ctx bot true max) as (l & Hl & Hnd).
    rewrite Hl. apply Index_removeNulls_member_scalar; [exact Hnd| |reflexivity].
    unfold Index.payload, Index.payload_with in Hl. inversion Hl; subst l.
    cbn [lookup String.eqb Ascii.eqb Bool.eqb].
    unfold Index.raw_update_with, stringify_tree. now rewrite Ht, Hser.
  - intros sanitized Hs.
    destruct (Part000_payload_keys ctx bot true max) as (l & Hl & Hnd & Hraw & _).
    unfold Part000.safeCtx. rewrite Hl. cbn [bind]. eexists. split; [reflexivity|].
    rewrite Part000_removeNulls_member by exact Hnd. rewrite Hraw.
    unfold Part000.raw_update, Part000.raw_update_with, stringify_tree. rewrite Hs. cbn [bind try_catch].
    unfold JSON_stringify. destruct (serialize sanitized); reflexivity.
Qed.

Lemma snapshot_cases_witness :
  truthy (prop helloCtx "update") = true /\
  exists serialized,
    JSON_stringify (prop helloCtx "update") = VStr serialized /\
    member (Index.safeCtx helloCtx sampleBot true 5) "raw_update" = VStr serialized.
Proof.
  split; [reflexivity|].
  apply (proj1 (proj2 (proj2 (snapshot_cases helloCtx sampleBot 5)))). reflexivity.
Defined.

(** X9. The record of part_000 is always an object, and always holds the
    keys [bot], [user] and [chat], each with an object for value (empty when
    nothing is known). *)
Theorem Part000_record_identity (ctx : context) (bot : value) (inc : bool) (max : Z) :
  exists record b u c,
    Part000.safeCtx ctx bot inc max = Ok (VObj record) /\
    lookup "bot" record = Some (VObj b) /\
    lookup "user" record = Some (VObj u) /\
    lookup "chat" record = Some (VObj c).
Proof.
  destruct (Part000_payload_keys ctx bot inc max)
    as (l & Hl & Hnd & _ & (b & Hb) & (u & Hu) & (c & Hc)).
  unfold Part000.safeCtx. rewrite Hl. cbn [bind Part000.removeNulls].
  rewrite fromEntries_distinct
    by (apply keys_filter_NoDup; now rewrite keys_map_snd).
  pose proof (lookup_filter_map (fun kv => negb (nullish (snd kv)))
                Part000.removeNulls l) as Hlk.
  do 4 eexists. split; [reflexivity|].
  rewrite !Hlk by exact Hnd. rewrite Hb, Hu, Hc.
  cbn [snd Part000.removeNulls nullish negb]. repeat split.
Qed.

End Record.

(* ===================================================================== *)
(** ** Further properties: the second document of index.js *)
(* ===================================================================== *)

Section LegacyMore.

Lemma firstMatch_throws (o : value) (key tag : string) (rules : list (string * string))
    (d : string) :
  nullish o = true -> firstMatch o ((key, tag) :: rules) d = Throw TypeError.
Proof. intros H. simpl. unfold get. now rewrite H. Qed.

Lemma Legacy_detect_cases (ctx : context) :
  let update := prop ctx "update" in
  let message := member update "message" in
  (nullish update = true /\ Legacy.detectEventType ctx = Throw TypeError) \/
  (nullish update = false /\ truthy message = true /\
   exists c, Legacy.detectEventType ctx = Ok c /\ In c messageCategories) \/
  (nullish update = false /\ truthy message = false /\
   exists c, Legacy.detectEventType ctx = Ok c /\
             In c (map snd Legacy.updateRules ++ ["unknown"])).
Proof.
  intros update message. unfold Legacy.detectEventType. cbv zeta. fold update.
  unfold get. destruct (nullish update) eqn:Hu; cbn [bind]; [now left|].
  right. fold message. destruct (truthy message) eqn:Hm.
  - left. repeat split.
    apply (firstMatch_returns message (truthy_not_nullish _ Hm)).
  - right. repeat split. apply (firstMatch_returns update Hu).
Qed.

(** X10. Classification in the second document of index.js: with an update
    on the context it returns one of the 27 tags, and one of the 13 message
    tags exactly when [update.message] is truthy -- exactly when index.js
    and part_000 say [message]; with no update it raises. *)
Theorem Legacy_detectEventType_total (ctx : context) :
  let update := prop ctx "update" in
  (nullish update = true -> Legacy.detectEventType ctx = Throw TypeError) /\
  (nullish update = false ->
   exists c, Legacy.detectEventType ctx = Ok c /\
             In c legacyCategories /\
             (In c messageCategories <-> truthy (member update "message") = true) /\
             (Index.detectEventType ctx = Ok "message"%string
              <-> truthy (member update "message") = true)).
Proof.
  intros update.
  destruct (Legacy_detect_cases ctx)
    as [[Hu Hd]|[(Hu & Hm & c & Hc & Hin)|(Hu & Hm & c & Hc & Hin)]];
    fold update in Hu; try fold update in Hm.
  - split; [intros _; exact Hd | intros Hu'; congruence].
  - split; [intros Hu'; congruence | intros _].
    exists c. split; [exact Hc|]. split; [apply in_or_app; now left|].
    split; [tauto|]. split; [intros _; exact Hm|]. intros _.
    unfold Index.detectEventType. cbv zeta. fold update.
    now apply firstMatch_first.
  - split; [intros Hu'; congruence | intros _].
    exists c. split; [exact Hc|]. split; [apply in_or_app; now right|].
    split.
    + split; [|congruence]. intros Hin'. exfalso. clear - Hin Hin'.
      simpl in Hin.
      repeat (destruct Hin as [<-|Hin];
              [simpl in Hin'; repeat (destruct Hin' as [Hin'|Hin']; [discriminate Hin'|]);
               exact Hin'|]).
      exact Hin.
    + split; [|congruence]. intros Hi. exfalso.
      unfold Index.detectEventType in Hi. cbv zeta in Hi. fold update in Hi.
      unfold Index.updateRules in Hi. cbn [firstMatch] in Hi. unfold get in Hi.
      rewrite Hu in Hi. cbn [bind] in Hi. rewrite Hm in Hi.
      repeat match type of Hi with
             | context [if truthy ?x then _ else _] =>
                 destruct (truthy x); [discriminate Hi|]
             end.
      discriminate Hi.
Qed.

Lemma Legacy_detectEventType_total_witness :
  nullish (prop helloCtx "update") = false /\
  exists c, Legacy.detectEventType helloCtx = Ok c /\ In c legacyCategories.
Proof.
  split; [reflexivity|].
  destruct (proj2 (Legacy_detectEventType_total helloCtx) eq_refl) as (c & Hc & Hin & _).
  exists c. split; assumption.
Defined.

(** X11. The payment sub-record of the second document never raises: it is
    [null] when the message carries no payment and no invoice and the
    context no pre-checkout and no shipping query, and otherwise the object
    of the fields of the first of these that is there. *)
Theorem Legacy_payment_total (ctx : context) :
  let message := prop ctx "message" in
  let sp := message?."successful_payment" in
  let inv := message?."invoice" in
  let pcq := prop ctx "preCheckoutQuery" in
  let sq := prop ctx "shippingQuery" in
  Legacy.payment ctx
  = Ok (if truthy sp then verbatim sp Legacy.successfulPaymentFields
        else if truthy inv then verbatim inv Legacy.invoiceFields
        else if truthy pcq then verbatim pcq Legacy.preCheckoutFields
        else if truthy sq then verbatim sq Legacy.shippingFields
        else VNull).
Proof.
  intros message sp inv pcq sq. unfold Legacy.payment, Legacy.path2.
  fold message. fold sp inv pcq sq.
  assert (forall k, truthy (message?.k) = true -> get message k = Ok (message?.k)) as Hget.
  { intros k Hk. unfold get, opt_get in *. destruct (nullish message); [discriminate Hk|].
    reflexivity. }
  destruct (truthy sp) eqn:Hsp.
  { rewrite (Hget _ Hsp). cbn [bind]. fold sp.
    apply pick_verbatim. now apply truthy_not_nullish. }
  destruct (truthy inv) eqn:Hinv.
  { rewrite (Hget _ Hinv). cbn [bind]. fold inv.
    apply pick_verbatim. now apply truthy_not_nullish. }
  destruct (truthy pcq) eqn:Hpcq.
  { apply pick_verbatim. now apply truthy_not_nullish. }
  destruct (truthy sq) eqn:Hsq.
  { apply pick_verbatim. now apply truthy_not_nullish. }
  reflexivity.
Qed.

Lemma opt_slice200_cases (v : value) :
  if sliceable v then exists r, Legacy.opt_slice200 v = Ok r
  else Legacy.opt_slice200 v = Throw TypeError.
Proof. destruct v; cbv; try reflexivity; eexists; reflexivity. Qed.

Lemma mapM_get_cases (k : string) (items : list value) :
  if forallb (fun x => negb (nullish x)) items
  then mapM (fun x => get x k) items = Ok (map (fun x => member x k) items)
  else mapM (fun x => get x k) items = Throw TypeError.
Proof.
  induction items as [|x r IH]; cbn [forallb mapM map]; [reflexivity|].
  assert (get x k = if nullish x then Throw TypeError else Ok (member x k)) as ->
    by reflexivity.
  destruct (nullish x); cbn [negb andb bind]; [reflexivity|].
  destruct (forallb _ r); rewrite IH; reflexivity.
Qed.

Lemma call_map_get_cases (v : value) (k : string) :
  if mappable v then exists r, call_map v (fun x => get x k) = Ok r
  else call_map v (fun x => get x k) = Throw TypeError.
Proof.
  destruct v; simpl; try reflexivity.
  pose proof (mapM_get_cases k items) as H.
  destruct (forallb _ items); rewrite H; simpl; eauto.
Qed.

Lemma Legacy_media_cases (ctx : context) :
  let message := prop ctx "message" in
  if (nullish (message?."photo") || mappable (message?."photo"))
     && (negb (truthy (message?."poll"))
         || mappable (member (member message "poll") "options"))
  then exists m, Legacy.media ctx = Ok m
  else Legacy.media ctx = Throw TypeError.
Proof.
  intros message. unfold Legacy.media, Legacy.path3. fold message.
  assert (truthy (message?."poll") = true ->
          get message "poll" = Ok (member message "poll") /\
          forall k, get (member message "poll") k
                    = Ok (member (member message "poll") k)) as Hpoll.
  { intros H. unfold get, opt_get in *. destruct (nullish message); [discriminate H|].
    split; [reflexivity|]. intros k. now rewrite (truthy_not_nullish _ H). }
  destruct (nullish (message?."photo")) eqn:Hp; cbn [orb andb bind].
  - destruct (truthy (message?."poll")) eqn:Hq; cbn [negb orb].
    + destruct (Hpoll eq_refl) as [-> Hn]. cbn [bind]. rewrite !Hn. cbn [bind].
      pose proof (call_map_get_cases (member (member message "poll") "options") "text") as H.
      destruct (mappable _); [destruct H as [r ->]; cbn [bind]; eauto | now rewrite H].
    + cbn [bind]. eauto.
  - pose proof (call_map_get_cases (message?."photo") "file_id") as H.
    destruct (mappable (message?."photo")); cbn [andb];
      [destruct H as [r ->]; cbn [bind] | now rewrite H].
    destruct (truthy (message?."poll")) eqn:Hq; cbn [negb orb].
    + destruct (Hpoll eq_refl) as [-> Hn]. cbn [bind]. rewrite !Hn. cbn [bind].
      pose proof (call_map_get_cases (member (member message "poll") "options") "text") as H.
      destruct (mappable _); [destruct H as [r' ->]; cbn [bind]; eauto | now rewrite H].
    + cbn [bind]. eauto.
Qed.

(** X12. When [safeCtx] of the second document returns, and when it raises:
    it returns exactly on the contexts that carry an update, with a bot
    handle that is not [null], whose texts are strings or arrays (or
    absent), whose photo is an array without [null] (or absent), and whose
    poll, if any, has such an array of options; on every other it raises a
    [TypeError]. *)
Theorem Legacy_safeCtx_returns (ctx : context) (bot : value) (now : Z) :
  if legacyReturns ctx bot
  then exists r, Legacy.safeCtx ctx bot now = Ok r
  else Legacy.safeCtx ctx bot now = Throw TypeError.
Proof.
  unfold legacyReturns, Legacy.safeCtx, Legacy.payload.
  destruct (Legacy_detect_cases ctx)
    as [[Hu Hd]|[(Hu & _ & c & Hd & _)|(Hu & _ & c & Hd & _)]];
    rewrite Hu, Hd; cbn [negb andb bind]; try reflexivity;
    (unfold get; destruct (nullish bot); cbn [negb andb bind]; [reflexivity|];
     pose proof (opt_slice200_cases ((prop ctx "message")?."text")) as H1;
     destruct (sliceable ((prop ctx "message")?."text"));
       [destruct H1 as [r1 ->] | rewrite H1; reflexivity];
     cbn [andb bind];
     pose proof (opt_slice200_cases ((prop ctx "callbackQuery")?."data")) as H2;
     destruct (sliceable ((prop ctx "callbackQuery")?."data"));
       [destruct H2 as [r2 ->] | rewrite H2; reflexivity];
     cbn [andb bind];
     pose proof (opt_slice200_cases ((prop ctx "inlineQuery")?."query")) as H3;
     destruct (sliceable ((prop ctx "inlineQuery")?."query"));
       [destruct H3 as [r3 ->] | rewrite H3; reflexivity];
     cbn [andb bind];
     pose proof (Legacy_media_cases ctx) as H4; cbv zeta in H4;
     destruct ((nullish _ || mappable _) && (negb _ || mappable _));
       [destruct H4 as [m ->] | rewrite H4; reflexivity];
     cbn [bind]; rewrite Legacy_payment_total; cbn [bind]; eauto).
Qed.

Example numeric_text_raises :
  legacyReturns numericTextCtx sampleBot = false /\
  Legacy.safeCtx numericTextCtx sampleBot 0 = Throw TypeError /\
  Index.safeCtx numericTextCtx sampleBot false 500
  = VObj [("bot", VObj [("username", VStr "hippo_bot"); ("id", VNum 42)])].
Proof. repeat split. Qed.

Lemma Legacy_payload_texts (ctx : context) (bot : value) (now : Z) (p : value) :
  Legacy.payload ctx bot now = Ok p ->
  exists l m c q,
    p = VObj l /\ NoDup (keys l) /\
    Legacy.opt_slice200 ((prop ctx "message")?."text") = Ok m /\
    Legacy.opt_slice200 ((prop ctx "callbackQuery")?."data") = Ok c /\
    Legacy.opt_slice200 ((prop ctx "inlineQuery")?."query") = Ok q /\
    lookup "message" l = Some (m ?? VNull) /\
    lookup "callback_query" l = Some (c ?? VNull) /\
    lookup "inline_query" l = Some (q ?? VNull).
Proof.
  intros H. unfold Legacy.payload in H.
  destruct (Legacy.detectEventType ctx) as [et|]; cbn [bind] in H; [|discriminate].
  destruct (get bot "botInfo") as [botInfo|]; cbn [bind] in H; [|discriminate].
  destruct (Legacy.opt_slice200 _) as [m|]; cbn [bind] in H; [|discriminate].
  destruct (Legacy.opt_slice200 _) as [c|]; cbn [bind] in H; [|discriminate].
  destruct (Legacy.opt_slice200 _) as [q|]; cbn [bind] in H; [|discriminate].
  destruct (Legacy.media ctx) as [med|]; cbn [bind] in H; [|discriminate].
  destruct (Legacy.payment ctx) as [pay|]; cbn [bind] in H; [|discriminate].
  inversion H; subst.
  eexists. exists m, c, q. split; [reflexivity|].
  split; [apply distinct_NoDup; reflexivity|]. repeat split.
Qed.

(** X13. In the record of the second document a text that is a string in
    the event is cut to its first 200 code units, whatever its length. *)
Theorem Legacy_texts_cut (ctx : context) (bot : value) (now : Z) (r : value)
    (key : string) (source : value) (s : string) :
  Legacy.safeCtx ctx bot now = Ok r ->
  In (key, source)
     [ ("message", (prop ctx "message")?."text");
       ("callback_query", (prop ctx "callbackQuery")?."data");
       ("inline_query", (prop ctx "inlineQuery")?."query") ] ->
  source = VStr s ->
  member r key = VStr (str_slice s 0 200) /\
  Z.of_nat (String.length (str_slice s 0 200)) <= 200.
Proof.
  intros Hr Hin Hs. unfold Legacy.safeCtx in Hr.
  destruct (Legacy.payload ctx bot now) as [p|] eqn:Hp; cbn [bind] in Hr; [|discriminate].
  inversion Hr; subst r. clear Hr.
  destruct (Legacy_payload_texts ctx bot now p Hp)
    as (l & m & c & q & -> & Hnd & Hm & Hc & Hq & Hlm & Hlc & Hlq).
  split; [|rewrite str_slice_0_length; lia].
  rewrite Legacy_removeNulls_Index.
  apply Index_removeNulls_member_scalar; [exact Hnd| |reflexivity].
  destruct Hin as [Heq|[Heq|[Heq|[]]]]; inversion Heq; subst key source;
    match goal with
    | H : _ = VStr s |- _ => rewrite H in *
    end.
  - cbn in Hm. inversion Hm; subst m. exact Hlm.
  - cbn in Hc. inversion Hc; subst c. exact Hlc.
  - cbn in Hq. inversion Hq; subst q. exact Hlq.
Qed.

Lemma Legacy_texts_cut_witness :
  exists r,
    Legacy.safeCtx helloCtx sampleBot 1700000002000 = Ok r /\
    member r "message" = VStr (str_slice "Hello world" 0 200).
Proof.
  eexists. split; [reflexivity|].
  apply (Legacy_texts_cut helloCtx sampleBot 1700000002000 _ "message"
           ((prop helloCtx "message")?."text") "Hello world");
    [reflexivity | now left | reflexivity].
Defined.

(** X14. The media sub-record of the second document lists the [file_id]
    of each photo size, in the order of the message and as many. *)
Theorem Legacy_media_photo (ctx : context) (items : list value) (m : value) :
  (prop ctx "message")?."photo" = VArr items ->
  Legacy.media ctx = Ok m ->
  member m "photo" = VArr (map (fun p => member p "file_id") items) /\
  forallb (fun p => negb (nullish p)) items = true.
Proof.
  intros Hp Hm. unfold Legacy.media in Hm. rewrite Hp in Hm.
  cbn [nullish call_map] in Hm.
  pose proof (mapM_get_cases "file_id" items) as Hc.
  destruct (forallb _ items); rewrite Hc in Hm; cbn [bind] in Hm; [|discriminate].
  split; [|reflexivity].
  destruct (if truthy _ then _ else _) as [poll|]; cbn [bind] in Hm; [|discriminate].
  inversion Hm; subst m. reflexivity.
Qed.

Lemma Legacy_media_photo_witness :
  exists m,
    Legacy.media [("message", member photoUpdate "message")] = Ok m /\
    member m "photo" = VArr [VStr "A1"; VStr "A2"].
Proof.
  eexists. split; [reflexivity|].
  apply (Legacy_media_photo [("message", member photoUpdate "message")]
           [ photoSize "A1" "u1" 90 60 1200; photoSize "A2" "u2" 320 200 20000 ]);
    reflexivity.
Defined.

End LegacyMore.

(* ===================================================================== *)
(** ** Further properties: the sanitizer *)
(* ===================================================================== *)

Section SanitizerMore.

Arguments Part000.includes : simpl never.

Lemma limitString_length (s : string) (max : Z) :
  0 <= max ->
  Z.of_nat (String.length (Part000.limitString s max))
  <= max + Z.of_nat (String.length Part000.truncationMarker).
Proof.
  intros H. unfold Part000.limitString.
  destruct (Z.gtb_spec (Z.of_nat (String.length s)) max).
  - rewrite append_length, Nat2Z.inj_add, str_slice_0_length by exact H. lia.
  - lia.
Qed.

Lemma substring_0_append (a b : string) :
  substring 0 (String.length a) (a ++ b)%string = a.
Proof. induction a as [|c r IH]; simpl; [now destruct b | now rewrite IH]. Qed.

Lemma limitString_cases (s : string) (max : Z) :
  (max < Z.of_nat (String.length s) /\
   Part000.limitString s max = (str_slice s 0 max ++ Part000.truncationMarker)%string) \/
  (Z.of_nat (String.length s) <= max /\ Part000.limitString s max = s).
Proof.
  unfold Part000.limitString.
  destruct (Z.gtb_spec (Z.of_nat (String.length s)) max); [left | right]; split;
    try reflexivity; lia.
Qed.

Lemma limitString_fixed (s : string) (max : Z) :
  0 <= max ->
  Part000.limitString (Part000.limitString s max) max = Part000.limitString s max.
Proof.
  intros H. destruct (limitString_cases s max) as [[Hlong ->]|[Hshort ->]].
  - assert (Z.of_nat (String.length (str_slice s 0 max)) = max) as Hl
        by (rewrite str_slice_0_length; lia).
    destruct (limitString_cases (str_slice s 0 max ++ Part000.truncationMarker)%string max)
      as [[_ ->]|[Hle _]].
    + f_equal. rewrite (str_slice_0 (_ ++ _)%string) by exact H.
      rewrite append_length, Nat2Z.inj_add, Hl.
      replace (Z.to_nat (Z.min max (max + _))) with (String.length (str_slice s 0 max)) by lia.
      apply substring_0_append.
    + rewrite append_length, Nat2Z.inj_add, Hl in Hle. simpl in Hle. lia.
  - destruct (limitString_cases s max) as [[Hlong _]|[_ ->]]; [lia | reflexivity].
Qed.

(** X15. For a bound that is not negative, in what [sanitizeUpdate] returns
    every string that is the value of a key has at most [maxTextLength]
    code units and the 14 of the marker -- outside what a media-like key
    holds, whose identifiers are copied whole. *)
Theorem sanitize_strings_bounded (update : value) (max : Z) (out : value) :
  0 <= max ->
  Part000.sanitizeUpdate update max = Ok out ->
  strings_bounded (max + Z.of_nat (String.length Part000.truncationMarker)) out = true.
Proof.
  intros Hmax. unfold Part000.sanitizeUpdate. revert out.
  induction update as [ | | b | n | s | items IH | props IH ] using value_tree_ind;
    intros out H; try (simpl in H; inversion H; reflexivity).
  - simpl in H. destruct (mapM (Part000.sanitize max) items) as [items'|e] eqn:E;
      simpl in H; [|discriminate].
    inversion H; subst. simpl. apply mapM_Forall2 in E.
    apply forallb_forall. intros x' Hx'.
    induction E as [|x y l l' Hxy _ IHE]; [contradiction|].
    inversion IH; subst. destruct Hx' as [<-|Hx']; [eauto | now apply IHE].
  - rewrite sanitize_object in H.
    destruct (Part000.forEntries _ props []) as [outp|e] eqn:E; simpl in H; [|discriminate].
    inversion H; subst. cbn [strings_bounded]. apply forallb_forall.
    apply Forall_forall.
    apply (forEntries_Forall (sanitizeEntry max) _ props [] outp E); [constructor|].
    intros k val r Hin Hstep. cbn [fst snd].
    unfold sanitizeEntry in Hstep.
    rewrite Forall_forall in IH. specialize (IH (k, val) Hin). cbn [snd] in IH.
    destruct val.
    1-4: destruct (Part000.includes Part000.mediaKeys k) eqn:Hm;
      cbn in Hstep; inversion Hstep; subst; cbn; try rewrite Hm; reflexivity.
    + inversion Hstep; subst. apply Z.leb_le. now apply limitString_length.
    + destruct (Part000.includes Part000.mediaKeys k) eqn:Hm.
      * destruct (mapM Part000.idPair items) as [ps|]; cbn [bind] in Hstep; [|discriminate].
        now inversion Hstep.
      * destruct (Part000.sanitize max (VArr items)) as [r'|] eqn:E'; cbn [bind] in Hstep;
          [|discriminate].
        inversion Hstep; subst r'. specialize (IH r eq_refl).
        cbn [Part000.sanitize] in E'.
        destruct (mapM (Part000.sanitize max) items); cbn [bind] in E'; [|discriminate].
        inversion E'; subst r. exact IH.
    + destruct (Part000.includes Part000.mediaKeys k) eqn:Hm.
      * cbn in Hstep. inversion Hstep; subst. reflexivity.
      * destruct (Part000.sanitize max (VObj props0)) as [r'|] eqn:E'; cbn [bind] in Hstep;
          [|discriminate].
        inversion Hstep; subst r'. specialize (IH r eq_refl).
        rewrite sanitize_object in E'.
        destruct (Part000.forEntries _ props0 []); cbn [bind] in E'; [|discriminate].
        inversion E'; subst r. exact IH.
Qed.

Lemma sanitize_strings_bounded_witness :
  exists out,
    Part000.sanitizeUpdate captionUpdate 10 = Ok out /\
    strings_bounded 24 out = true /\
    member (member out "message") "caption" = VStr "a caption ...[truncated]" /\
    member (member out "message") "tags"
    = VArr [VStr "a tag that is longer than the bound"].
Proof.
  eexists. split; [reflexivity|]. split; [|split; reflexivity].
  apply (sanitize_strings_bounded captionUpdate 10); [lia | reflexivity].
Defined.

Lemma mapM_fixed {A} (f : A -> result A) (l : list A) :
  Forall (fun y => f y = Ok y) l -> mapM f l = Ok l.
Proof.
  induction 1 as [|y r Hy _ IH]; simpl; [reflexivity|]. now rewrite Hy, IH.
Qed.

Section LoopMore.

Variable step : string -> value -> result (option value).

Let body (out : props_t) (key : string) (val : value) : result props_t :=
  r <- step key val ;; Ok (assign out key r).

(** With distinct keys the loop appends what it assigns. *)
Lemma forEntries_appends (es acc out : props_t) :
  NoDup (keys (acc ++ es)) ->
  Part000.forEntries body es acc = Ok out ->
  exists kept,
    out = acc ++ kept /\
    NoDup (keys (acc ++ kept)) /\
    (forall k r, In (k, r) kept ->
       k <> "__proto__"%string /\ exists v, In (k, v) es /\ step k v = Ok (Some r)).
Proof.
  revert acc. induction es as [|[k0 v0] rest IH]; simpl; intros acc Hnd H.
  - inversion H; subst. exists []. split; [now rewrite app_nil_r|].
    split; [exact Hnd | intros ? ? []].
  - unfold body at 1 in H. destruct (step k0 v0) as [r0|e] eqn:E0; cbn [bind] in H;
      [|discriminate].
    assert (~ In k0 (keys acc)) as Hk0.
    { unfold keys in *. rewrite map_app in Hnd. simpl in Hnd.
      apply NoDup_remove_2 in Hnd. intros Hin. apply Hnd. apply in_or_app. now left. }
    assert (NoDup (keys (acc ++ rest))) as Hnd0.
    { unfold keys in *. rewrite map_app in *. simpl in Hnd.
      now apply NoDup_remove_1 in Hnd. }
    assert (forall kept,
              (forall k r, In (k, r) kept ->
                 k <> "__proto__"%string /\ exists v, In (k, v) rest /\ step k v = Ok (Some r)) ->
              forall k r, In (k, r) kept ->
                 k <> "__proto__"%string /\
                 exists v, ((k0, v0) = (k, v) \/ In (k, v) rest) /\ step k v = Ok (Some r))
      as Hweak.
    { intros kept Hk k r Hin. destruct (Hk k r Hin) as (Hp & v & Hv & Hs).
      split; [exact Hp|]. exists v. split; [now right | exact Hs]. }
    destruct r0 as [x|]; cbn [assign] in H.
    + destruct (put_cases acc k0 x) as [[Hp Hput]|[Hp Hput]]; rewrite Hput in H.
      * destruct (IH acc Hnd0 H) as (kept & -> & Hnd' & Hk).
        exists kept. split; [reflexivity|]. split; [exact Hnd' | now apply Hweak].
      * rewrite (obj_set_fresh _ _ _ Hk0) in H.
        destruct (IH (acc ++ [(k0, x)])) as (kept & -> & Hnd' & Hk); [|exact H|].
        { unfold keys in *. rewrite <- app_assoc. simpl.
          rewrite map_app in *. simpl in *. exact Hnd. }
        exists ((k0, x) :: kept). rewrite <- app_assoc in *. simpl in *.
        split; [reflexivity|]. split; [exact Hnd'|].
        intros k r [Heq|Hin].
        -- inversion Heq; subst. split; [exact Hp|].
           exists v0. split; [now left | exact E0].
        -- now apply (Hweak kept).
    + destruct (IH acc Hnd0 H) as (kept & -> & Hnd' & Hk).
      exists kept. split; [reflexivity|]. split; [exact Hnd' | now apply Hweak].
Qed.

(** With distinct keys, entries that the loop assigns as they are come out
    as they went in. *)
Lemma forEntries_same (es acc : props_t) :
  NoDup (keys (acc ++ es)) ->
  (forall k v, In (k, v) es -> k <> "__proto__"%string /\ step k v = Ok (Some v)) ->
  Part000.forEntries body es acc = Ok (acc ++ es).
Proof.
  revert acc. induction es as [|[k0 v0] rest IH]; simpl; intros acc Hnd Hs.
  - now rewrite app_nil_r.
  - destruct (Hs k0 v0 (or_introl eq_refl)) as [Hp Hstep].
    unfold body at 1. rewrite Hstep. cbn [bind assign].
    assert (~ In k0 (keys acc)) as Hk0.
    { unfold keys in *. rewrite map_app in Hnd. simpl in Hnd.
      apply NoDup_remove_2 in Hnd. intros Hin. apply Hnd. apply in_or_app. now left. }
    destruct (put_cases acc k0 v0) as [[Hp' _]|[_ ->]]; [contradiction|].
    rewrite (obj_set_fresh _ _ _ Hk0).
    rewrite IH.
    + now rewrite <- app_assoc.
    + now rewrite <- app_assoc.
    + intros k v Hin. apply Hs. now right.
Qed.

End LoopMore.

Lemma idPairOf_fixed (v : value) : Part000.idPair (idPairOf v) = Ok (idPairOf v).
Proof. reflexivity. Qed.

Lemma sanitize_not_string (max : Z) (v r : value) :
  Part000.sanitize max v = Ok r ->
  match v with VStr _ => True | _ => match r with VStr _ => False | _ => True end end.
Proof.
  destruct v; intros H; try exact I; try (simpl in H; inversion H; exact I).
  - simpl in H. destruct (mapM _ items); simpl in H; inversion H. exact I.
  - rewrite sanitize_object in H.
    destruct (Part000.forEntries _ props []); simpl in H; inversion H. exact I.
Qed.

Lemma sanitizeEntry_fixed (max : Z) (k : string) (v r : value) :
  0 <= max ->
  (forall out, Part000.sanitize max v = Ok out -> Part000.sanitize max out = Ok out) ->
  sanitizeEntry max k v = Ok (Some r) ->
  sanitizeEntry max k r = Ok (Some r).
Proof.
  intros Hmax IH H. unfold sanitizeEntry in H.
  destruct v as [ | | b | n | s | items | props ];
    try (destruct (Part000.includes Part000.mediaKeys k) eqn:Hm;
         cbn in H; inversion H; subst; unfold sanitizeEntry; rewrite Hm; reflexivity).
  - inversion H; subst. unfold sanitizeEntry. now rewrite limitString_fixed.
  - destruct (Part000.includes Part000.mediaKeys k) eqn:Hm.
    + destruct (mapM Part000.idPair items) as [ps|] eqn:E; cbn [bind] in H; [|discriminate].
      inversion H; subst r. unfold sanitizeEntry. rewrite Hm.
      rewrite (mapM_idPair _ _ E).
      rewrite (mapM_fixed Part000.idPair); [reflexivity|].
      apply Forall_forall. intros p Hp. apply in_map_iff in Hp.
      destruct Hp as (x & <- & _). apply idPairOf_fixed.
    + destruct (Part000.sanitize max (VArr items)) as [r'|] eqn:E; cbn [bind] in H;
        [|discriminate].
      inversion H; subst r'. pose proof (sanitize_not_string _ _ _ E) as Hns.
      unfold sanitizeEntry. rewrite Hm.
      destruct r; try contradiction; now rewrite (IH _ eq_refl).
  - destruct (Part000.includes Part000.mediaKeys k) eqn:Hm.
    + cbn in H. inversion H; subst r. unfold sanitizeEntry. now rewrite Hm.
    + destruct (Part000.sanitize max (VObj props)) as [r'|] eqn:E; cbn [bind] in H;
        [|discriminate].
      inversion H; subst r'. pose proof (sanitize_not_string _ _ _ E) as Hns.
      unfold sanitizeEntry. rewrite Hm.
      destruct r; try contradiction; now rewrite (IH _ eq_refl).
Qed.

(** X16. Sanitising is idempotent: for a bound that is not negative and an
    update whose objects list each key once, sanitising what
    [sanitizeUpdate] returned returns it unchanged -- a cut string is not cut
    again, a pair stays a pair. *)
Theorem sanitizeUpdate_idempotent (update : value) (max : Z) (out : value) :
  0 <= max -> well_formed update = true ->
  Part000.sanitizeUpdate update max = Ok out ->
  Part000.sanitizeUpdate out max = Ok out.
Proof.
  unfold Part000.sanitizeUpdate. intros Hmax. revert out.
  induction update as [ | | b | n | s | items IH | props IH ] using value_tree_ind;
    intros out Hwf H; try (simpl in H; inversion H; reflexivity).
  - simpl in H. destruct (mapM (Part000.sanitize max) items) as [items'|e] eqn:E;
      simpl in H; [|discriminate].
    inversion H; subst. clear H. simpl. rewrite mapM_fixed; [reflexivity|].
    simpl in Hwf. rewrite forallb_forall in Hwf. apply mapM_Forall2 in E.
    induction E as [|x y l l' Hxy _ IHE]; [constructor|].
    inversion IH as [|? ? Hx Hrest]; subst. constructor.
    + apply (Hx y); [apply Hwf; now left | exact Hxy].
    + apply IHE; [exact Hrest | intros z Hz; apply Hwf; now right].
  - simpl in Hwf. apply andb_true_iff in Hwf. destruct Hwf as [Hd Hall].
    apply distinct_NoDup in Hd. rewrite forallb_forall in Hall.
    rewrite Forall_forall in IH.
    rewrite sanitize_object in H.
    destruct (Part000.forEntries _ props []) as [outp|e] eqn:E; simpl in H; [|discriminate].
    inversion H; subst.
    destruct (forEntries_appends (sanitizeEntry max) props [] outp Hd E)
      as (kept & -> & Hnd & Hk). cbn [app] in *.
    rewrite sanitize_object.
    rewrite (forEntries_same (sanitizeEntry max) kept [] Hnd); [reflexivity|].
    intros k r Hin. destruct (Hk k r Hin) as (Hp & v & Hv & Hs).
    split; [exact Hp|].
    apply (sanitizeEntry_fixed max k v r Hmax); [|exact Hs].
    intros out Ho. apply (IH (k, v) Hv out); [apply (Hall (k, v) Hv) | exact Ho].
Qed.

Lemma sanitizeUpdate_idempotent_witness :
  exists out,
    Part000.sanitizeUpdate captionUpdate 10 = Ok out /\
    Part000.sanitizeUpdate out 10 = Ok out.
Proof.
  eexists. split; [reflexivity|].
  apply (sanitizeUpdate_idempotent captionUpdate 10); [lia | reflexivity | reflexivity].
Defined.

End SanitizerMore.

(* ===================================================================== *)
(** ** Further properties: the order of the tests *)
(* ===================================================================== *)

Section Priority.

Variable o : value.
Hypothesis o_present : nullish o = false.

Lemma firstMatch_In (rules : list (string * string)) (d c : string) :
  firstMatch o rules d = Ok c -> In c (map snd rules ++ [d]).
Proof.
  intros H. destruct (firstMatch_returns o o_present rules d) as (c' & Hc' & Hin).
  rewrite H in Hc'. now inversion Hc'.
Qed.

Lemma firstMatch_priority (pre post : list (string * string)) (key tag d : string) :
  NoDup (map snd (pre ++ (key, tag) :: post) ++ [d]) ->
  (firstMatch o (pre ++ (key, tag) :: post) d = Ok tag <->
   truthy (member o key) = true /\
   forall k, In k (map fst pre) -> truthy (member o k) = false).
Proof.
  induction pre as [|[k1 t1] pre IH]; cbn [app map firstMatch]; intros Hnd;
    unfold get; rewrite o_present; cbn [bind].
  - inversion Hnd as [|? ? Hnotin _]; subst. split.
    + intros H. split; [|intros ? []].
      destruct (truthy (member o key)); [reflexivity|].
      exfalso. apply Hnotin. now apply firstMatch_In.
    + intros [H _]. now rewrite H.
  - inversion Hnd as [|? ? Hnotin Hnd']; subst. cbn [fst snd] in *. split.
    + intros H. destruct (truthy (member o k1)) eqn:E1.
      * exfalso. inversion H; subst. apply Hnotin.
        rewrite map_app. cbn [map snd]. rewrite <- app_assoc.
        apply in_or_app. right. now left.
      * destruct (proj1 (IH Hnd') H) as [Hk Hpre]. split; [exact Hk|].
        intros k [<-|Hin]; [exact E1 | now apply Hpre].
    + intros [Hk Hpre]. rewrite (Hpre k1 (or_introl eq_refl)).
      apply (IH Hnd'). split; [exact Hk|]. intros k Hin. apply Hpre. now right.
Qed.

Lemma firstMatch_otherwise (rules : list (string * string)) (d : string) :
  NoDup (map snd rules ++ [d]) ->
  (firstMatch o rules d = Ok d <->
   forall k, In k (map fst rules) -> truthy (member o k) = false).
Proof.
  intros Hnd. split; [|now apply firstMatch_fallback].
  induction rules as [|[k1 t1] rest IH]; cbn [map firstMatch]; [intros _ ? []|].
  unfold get. rewrite o_present. cbn [bind]. cbn [map app snd] in Hnd.
  inversion Hnd as [|? ? Hnotin Hnd']; subst.
  destruct (truthy (member o k1)) eqn:E1.
  - intros H. inversion H; subst. exfalso. apply Hnotin. apply in_or_app. right. now left.
  - intros H k [<-|Hin]; [exact E1 | now apply (IH Hnd' H)].
Qed.

End Priority.

(** X17. The first test that passes decides, in index.js and part_000:
    with an update on the context, [detectEventType] returns a tag exactly
    when the key of that tag is truthy and the key of every earlier test is
    not, and ["unknown"] exactly when no tested key is truthy.  So the
    category depends on the update only through which tested keys are
    truthy. *)
Theorem detectEventType_first_match (ctx : context)
    (pre post : list (string * string)) (key tag : string) :
  let update := prop ctx "update" in
  nullish update = false ->
  Index.updateRules = pre ++ (key, tag) :: post ->
  (Index.detectEventType ctx = Ok tag <->
   truthy (member update key) = true /\
   forall k, In k (map fst pre) -> truthy (member update k) = false) /\
  (Part000.detectEventType ctx = Index.detectEventType ctx) /\
  (Index.detectEventType ctx = Ok "unknown"%string <->
   forall k, In k (map fst Index.updateRules) -> truthy (member update k) = false).
Proof.
  intros update Hu Hrules. split; [|split; [reflexivity|]].
  - unfold Index.detectEventType. cbv zeta. fold update. rewrite Hrules.
    apply (firstMatch_priority update Hu). rewrite <- Hrules.
    apply distinct_NoDup. reflexivity.
  - apply (firstMatch_otherwise update Hu). apply distinct_NoDup. reflexivity.
Qed.

Lemma detectEventType_first_match_witness :
  Index.detectEventType callbackCtx = Ok "callback_query"%string <->
  truthy (member (prop callbackCtx "update") "callback_query") = true /\
  forall k, In k (map fst [("message", "message")]) ->
            truthy (member (prop callbackCtx "update") k) = false.
Proof.
  exact (proj1 (detectEventType_first_match callbackCtx
                  [("message", "message")%string] _
                  "callback_query" "callback_query" eq_refl eq_refl)).
Defined.

(* ===================================================================== *)
(** ** Further properties: identity and media kind *)
(* ===================================================================== *)

Section Identity.

Lemma Part000_removeNulls_scalar (v : value) :
  scalar v = true -> Part000.removeNulls v = v.
Proof. destruct v; simpl; intros H; try discriminate; reflexivity. Qed.

Lemma Part000_removeNulls_member_nested (l pl : props_t) (k f : string) :
  NoDup (keys l) -> NoDup (keys pl) ->
  lookup k l = Some (VObj pl) ->
  scalar (member (VObj pl) f) = true ->
  member (member (Part000.removeNulls (VObj l)) k) f = member (VObj pl) f.
Proof.
  intros Hl Hpl Hk Hs.
  rewrite (Part000_removeNulls_member l k Hl), Hk. cbn [nullish].
  rewrite (Part000_removeNulls_member pl f Hpl).
  cbn [member] in Hs |- *. destruct (lookup f pl) as [x|]; [|discriminate Hs].
  rewrite (Part000_removeNulls_scalar x Hs). now destruct x.
Qed.

Lemma coalesce_scalar (v : value) : scalar v = true -> v ?? VNull = v.
Proof. destruct v; simpl; intros H; try discriminate; reflexivity. Qed.

Lemma lookup_literal_fields (src : value) (fields : list string) (f : string) :
  In f fields ->
  lookup f (map (fun k => (k, src?.k ?? VNull)) fields) = Some (src?.f ?? VNull).
Proof.
  induction fields as [|k r IH]; simpl; intros Hin; [contradiction|].
  destruct (String.eqb_spec f k) as [->|Hne]; [reflexivity|].
  destruct Hin as [->|Hin]; [contradiction | now apply IH].
Qed.

(** X19. Identity is copied as it is: a field of the acting user or of the
    chat that is a string, a number or a boolean in the event -- the id [0]
    and an empty name among them -- reads the same in the record, in
    index.js and in part_000. *)
Theorem identity_copied (ctx : context) (bot : value) (inc : bool) (max : Z)
    (part source field : string) (fields : list string) :
  In (part, source, fields) [("user", "from", userFields); ("chat", "chat", chatFields)] ->
  In field fields ->
  scalar ((prop ctx source)?.field) = true ->
  member (member (Index.safeCtx ctx bot inc max) part) field = (prop ctx source)?.field /\
  exists r, Part000.safeCtx ctx bot inc max = Ok r /\
            member (member r part) field = (prop ctx source)?.field.
Proof.
  intros Hpart Hfield Hs.
  assert (member (VObj (map (fun k => (k, (prop ctx source)?.k ?? VNull)) fields)) field
          = (prop ctx source)?.field) as Hm.
  { cbn [member]. rewrite (lookup_literal_fields _ _ _ Hfield).
    now apply coalesce_scalar. }
  assert (NoDup (keys (map (fun k => (k, (prop ctx source)?.k ?? VNull)) fields))) as Hnd.
  { unfold keys. rewrite map_map. cbn [fst]. rewrite map_id.
    destruct Hpart as [Heq|[Heq|[]]]; inversion Heq; subst;
      apply distinct_NoDup; reflexivity. }
  split.
  - rewrite <- Hm. unfold Index.safeCtx, Index.payload, Index.payload_with.
    apply Index_removeNulls_member_nested;
      [apply distinct_NoDup; reflexivity | exact Hnd | | now rewrite Hm].
    destruct Hpart as [Heq|[Heq|[]]]; inversion Heq; subst; reflexivity.
  - unfold Part000.safeCtx, Part000.payload, Part000.payload_with.
    destruct (Part000.botIdentity ctx bot) as [botId botUsername].
    destruct (Part000_safeText_returns ((prop ctx "message")?."text") max) as [m ->].
    destruct (Part000_safeText_returns ((prop ctx "callbackQuery")?."data") max) as [c ->].
    destruct (Part000_safeText_returns ((prop ctx "inlineQuery")?."query") max) as [q ->].
    cbn [bind]. eexists. split; [reflexivity|].
    rewrite <- Hm.
    apply Part000_removeNulls_member_nested;
      [apply distinct_NoDup; reflexivity | exact Hnd | | now rewrite Hm].
    destruct Hpart as [Heq|[Heq|[]]]; inversion Heq; subst; reflexivity.
Qed.

Lemma identity_copied_witness :
  member (member (Index.safeCtx zeroUserCtx VUndef false 500) "user") "id" = VNum 0 /\
  exists r, Part000.safeCtx zeroUserCtx VUndef false 500 = Ok r /\
            member (member r "user") "id" = VNum 0.
Proof.
  apply (identity_copied zeroUserCtx VUndef false 500 "user" "from" "id" userFields);
    [now left | now left | reflexivity].
Defined.

(** X20. The media kind of part_000: [media_type] in the record is the first
    of photo, video, document, sticker that the message carries (truthy),
    and is absent when it carries none -- an audio, a voice note or an
    animation alone gives no [media_type]. *)
Theorem Part000_media_type (ctx : context) (bot : value) (inc : bool) (max : Z) :
  let message := prop ctx "message" in
  exists r,
    Part000.safeCtx ctx bot inc max = Ok r /\
    member r "media_type"
    = match find (fun rule => truthy (message?.(fst rule))) mediaTypeRules with
      | Some rule => VStr (snd rule)
      | None => VUndef
      end.
Proof.
  intros message.
  unfold Part000.safeCtx, Part000.payload, Part000.payload_with.
  destruct (Part000.botIdentity ctx bot) as [botId botUsername].
  destruct (Part000_safeText_returns ((prop ctx "message")?."text") max) as [m ->].
  destruct (Part000_safeText_returns ((prop ctx "callbackQuery")?."data") max) as [c ->].
  destruct (Part000_safeText_returns ((prop ctx "inlineQuery")?."query") max) as [q ->].
  cbn [bind]. eexists. split; [reflexivity|].
  rewrite Part000_removeNulls_member by (apply distinct_NoDup; reflexivity).
  cbn [lookup String.eqb Ascii.eqb Bool.eqb]. fold message.
  unfold mediaTypeRules. cbn [find fst snd].
  destruct (truthy (message?."photo")); [reflexivity|].
  destruct (truthy (message?."video")); [reflexivity|].
  destruct (truthy (message?."document")); [reflexivity|].
  destruct (truthy (message?."sticker")); reflexivity.
Qed.

End Identity.
(* ===================================================================== *)
(** ** The walk of the sanitizer, at any depth *)
(* ===================================================================== *)

Section Walk.

Arguments Part000.includes : simpl never.
Arguments isMediaLike : simpl never.

Lemma lookup_Some_In (l : props_t) k v : lookup k l = Some v -> In (k, v) l.
Proof.
  induction l as [|[k0 v0] r IH]; simpl; [discriminate|].
  destruct (String.eqb_spec k k0) as [->|Hne].
  - intros H. inversion H; subst. now left.
  - intros H. right. now apply IH.
Qed.

Lemma mapM_nth_error {A B} (f : A -> result B) (l : list A) (l' : list B) (i : nat) (x : A) :
  mapM f l = Ok l' -> nth_error l i = Some x ->
  exists y, nth_error l' i = Some y /\ f x = Ok y.
Proof.
  intros H. apply mapM_Forall2 in H. revert i.
  induction H as [|a b l l' Hab _ IH]; intros [|i] Hi; simpl in *; try discriminate.
  - inversion Hi; subst. eauto.
  - now apply IH.
Qed.

Lemma sanitize_of_object (max : Z) (props : props_t) (out : value) :
  Part000.sanitize max (VObj props) = Ok out -> exists outp, out = VObj outp.
Proof.
  rewrite sanitize_object.
  destruct (Part000.forEntries _ props []) as [outp|]; cbn [bind]; [|discriminate].
  intros H. inversion H. eauto.
Qed.

(** Where the walk arrives in the update, it arrives in what the sanitizer
    returns, and there it finds the object that it made of the one it found
    in the update. *)
Lemma sanitize_reach (max : Z) (path : list step) :
  forall (v out : value) (props : props_t),
    well_formed v = true ->
    Part000.sanitize max v = Ok out ->
    reach v path = Some (VObj props) ->
    exists outp,
      reach out path = Some (VObj outp) /\
      Part000.sanitize max (VObj props) = Ok (VObj outp) /\
      distinct (keys props) = true.
Proof.
  induction path as [|[key|index] rest IH]; intros v out props Hwf H Hr.
  - cbn [reach] in Hr. inversion Hr; subst v.
    destruct (sanitize_of_object _ _ _ H) as [outp ->].
    exists outp. split; [reflexivity|]. split; [exact H|].
    cbn [well_formed] in Hwf. now apply andb_true_iff in Hwf.
  - cbn [reach] in Hr. destruct v as [ | | | | | |ps]; try discriminate Hr.
    destruct (isMediaLike key) eqn:Hm; [discriminate Hr|].
    destruct (String.eqb key "__proto__") eqn:Hp; [discriminate Hr|]. cbn [orb] in Hr.
    destruct (lookup key ps) as [x|] eqn:Hx; [|discriminate Hr].
    cbn [well_formed] in Hwf. apply andb_true_iff in Hwf. destruct Hwf as [Hd Hall].
    rewrite forallb_forall in Hall.
    pose proof (lookup_Some_In _ _ _ Hx) as Hin.
    destruct (sanitize_entry max ps out key x H Hd Hin) as (r & outp0 & Hstep & -> & Hl).
    rewrite Hp in Hl.
    assert (exists r', r = Some r' /\ Part000.sanitize max x = Ok r') as (r' & -> & Hx').
    { unfold sanitizeEntry in Hstep. rewrite mediaKeys_named, Hm in Hstep.
      destruct x; try (destruct rest as [|[?|?] ?]; discriminate Hr);
        (destruct (Part000.sanitize max _) as [r'|] eqn:E in Hstep; cbn [bind] in Hstep;
         [inversion Hstep; eauto | discriminate Hstep]). }
    cbn [reach]. rewrite Hm, Hp, Hl. cbn [orb].
    apply (IH x r' props); [apply (Hall (key, x) Hin) | exact Hx' | exact Hr].
  - cbn [reach] in Hr. destruct v as [ | | | | |items| ]; try discriminate Hr.
    destruct (nth_error items index) as [x|] eqn:Hx; [|discriminate Hr].
    cbn [Part000.sanitize] in H.
    destruct (mapM (Part000.sanitize max) items) as [items'|] eqn:E; cbn [bind] in H;
      [|discriminate H].
    inversion H; subst out.
    destruct (mapM_nth_error _ _ _ _ _ E Hx) as (y & Hy & Hxy).
    cbn [reach]. rewrite Hy.
    apply (IH x y props); [|exact Hxy|exact Hr].
    cbn [well_formed] in Hwf. rewrite forallb_forall in Hwf.
    apply Hwf. now apply nth_error_In with index.
Qed.

(** What the sanitizer makes of an entry of an object at the end of a
    path. *)
Lemma sanitize_reach_entry (max : Z) (update out : value) (path : list step)
    (props : props_t) (key : string) (val : value) :
  well_formed update = true ->
  Part000.sanitize max update = Ok out ->
  reach update path = Some (VObj props) ->
  In (key, val) props ->
  exists outp r,
    reach out path = Some (VObj outp) /\
    sanitizeEntry max key val = Ok r /\
    lookup key outp = if String.eqb key "__proto__" then None else r.
Proof.
  intros Hwf H Hr Hin.
  destruct (sanitize_reach max path update out props Hwf H Hr) as (outp & Ho & Hs & Hd).
  destruct (sanitize_entry max props (VObj outp) key val Hs Hd Hin)
    as (r & outp' & Hstep & Heq & Hl).
  inversion Heq; subst outp'. exists outp, r. now repeat split.
Qed.

Lemma limitString_long (s : string) (max : Z) :
  0 <= max < Z.of_nat (String.length s) ->
  Part000.limitString s max = (str_slice s 0 max ++ "...[truncated]")%string /\
  Z.of_nat (String.length (str_slice s 0 max ++ "...[truncated]")%string) = max + 14.
Proof.
  intros H. unfold Part000.limitString.
  destruct (Z.gtb_spec (Z.of_nat (String.length s)) max); [|lia].
  split; [reflexivity|].
  rewrite append_length, Nat2Z.inj_add, str_slice_0_length by lia. simpl. lia.
Qed.

(** C5. A string longer than [maxLength] leaves the redactor with exactly
    [maxLength] code units -- [safeText] of index.js and of part_000 -- or
    with [maxLength] code units and the 14 of the marker ["...[truncated]"]
    after them -- the string branch of [sanitizeUpdate], for a string that
    is the value of a key (other than [__proto__], which the sanitizer does
    not assign) of the update or of an object that the walk reaches in it,
    at any depth. *)
Theorem redact_length (s : string) (maxLength : Z) :
  0 <= maxLength < Z.of_nat (String.length s) ->
  (exists t, Index.safeText (VStr s) maxLength = VStr t /\
             Z.of_nat (String.length t) = maxLength) /\
  (exists t, Part000.safeText (VStr s) maxLength = Ok (VStr t) /\
             Z.of_nat (String.length t) = maxLength) /\
  (forall update path props key,
     well_formed update = true -> sanitizable update = true ->
     reach update path = Some (VObj props) ->
     In (key, VStr s) props -> key <> "__proto__"%string ->
     exists out outp t,
       Part000.sanitizeUpdate update maxLength = Ok out /\
       reach out path = Some (VObj outp) /\
       lookup key outp = Some (VStr t) /\
       t = (str_slice s 0 maxLength ++ "...[truncated]")%string /\
       Z.of_nat (String.length t) = maxLength + 14).
Proof.
  intros H.
  assert (Z.of_nat (String.length (str_slice s 0 maxLength)) = maxLength) as Hl.
  { rewrite str_slice_0_length; lia. }
  split; [|split].
  - exists (str_slice s 0 maxLength). split; [reflexivity | exact Hl].
  - exists (str_slice s 0 maxLength). split; [reflexivity | exact Hl].
  - intros update path props key Hwf Hs Hr Hin Hkey.
    unfold Part000.sanitizeUpdate.
    destruct (sanitize_returns maxLength update Hs) as [out Hout].
    destruct (sanitize_reach_entry maxLength update out path props key (VStr s)
                Hwf Hout Hr Hin) as (outp & r & Ho & Hstep & Hlk).
    apply String.eqb_neq in Hkey. rewrite Hkey in Hlk.
    cbn [sanitizeEntry] in Hstep. inversion Hstep; subst r.
    destruct (limitString_long s maxLength H) as [Hcut Hlen].
    exists out, outp, (str_slice s 0 maxLength ++ "...[truncated]")%string.
    split; [exact Hout|]. split; [exact Ho|].
    split; [now rewrite <- Hcut|]. split; [reflexivity | exact Hlen].
Qed.

Lemma redact_length_witness :
  0 <= 10 < Z.of_nat (String.length "a text that is longer than the bound") /\
  (exists t, Index.safeText (VStr "a text that is longer than the bound") 10 = VStr t /\
             Z.of_nat (String.length t) = 10) /\
  exists out outp t,
    Part000.sanitizeUpdate protoUpdate 10 = Ok out /\
    reach out [Key "message"] = Some (VObj outp) /\
    lookup "text" outp = Some (VStr t) /\
    t = "a text tha...[truncated]"%string /\
    Z.of_nat (String.length t) = 10 + 14.
Proof.
  split; [simpl; lia|].
  pose proof (redact_length "a text that is longer than the bound" 10
                ltac:(simpl; lia)) as (Hi & _ & Hs).
  split; [exact Hi|].
  apply (Hs protoUpdate [Key "message"] _ "text" eq_refl eq_refl eq_refl).
  - right. now left.
  - discriminate.
Defined.

(** The key [__proto__] is not assigned: the sanitizer leaves it out. *)
Example sanitize_proto_key :
  Part000.sanitizeUpdate protoUpdate 10
  = Ok (VObj [ ("update_id", VNum 14);
               ("message", VObj [("message_id", VNum 17);
                                 ("text", VStr "a text tha...[truncated]")]) ]).
Proof. reflexivity. Qed.

(** C6, as the code has it.  The sanitizer returns for every update whose
    media arrays hold no [null].  For every media-like field -- photo,
    video, document, voice, sticker, animation, audio, video_note,
    new_chat_photo, thumb, thumbnail -- of the update or of an object that
    the walk reaches in it, at any depth: a raw value that is an object
    becomes the object with the two keys [file_id] and [file_unique_id] and
    no other, however many fields it had; a raw value that is an array
    becomes the array of these pairs, one for each item, in the same order
    and of the same length.  The two identifiers are copied as they are,
    not walked.  A raw value that is a string is cut like any string, and
    with any other raw value the key is left out. *)
Theorem sanitize_media_reference_only (update : value) (max : Z) :
  well_formed update = true -> sanitizable update = true ->
  exists out,
    Part000.sanitizeUpdate update max = Ok out /\
    forall path props key val,
      reach update path = Some (VObj props) ->
      In key mediaLikeFields -> In (key, val) props ->
      exists outp,
        reach out path = Some (VObj outp) /\
        match val with
        | VObj _ =>
            lookup key outp
            = Some (VObj [ ("file_id", member val "file_id");
                           ("file_unique_id", member val "file_unique_id") ])
        | VArr items =>
            exists pairs,
              lookup key outp = Some (VArr pairs) /\
              List.length pairs = List.length items /\
              forall i item,
                nth_error items i = Some item ->
                nth_error pairs i
                = Some (VObj [ ("file_id", member item "file_id");
                               ("file_unique_id", member item "file_unique_id") ])
        | VStr s => lookup key outp = Some (VStr (Part000.limitString s max))
        | _ => lookup key outp = None
        end.
Proof.
  intros Hwf Hs. unfold Part000.sanitizeUpdate.
  destruct (sanitize_returns max update Hs) as [out Hout].
  exists out. split; [exact Hout|].
  intros path props key val Hr Hkey Hin.
  destruct (sanitize_reach_entry max update out path props key val Hwf Hout Hr Hin)
    as (outp & r & Ho & Hstep & Hlk).
  pose proof (mediaLike_included key Hkey) as Hm.
  rewrite (mediaLike_not_proto key) in Hlk by now rewrite <- mediaKeys_named.
  exists outp. split; [exact Ho|].
  unfold sanitizeEntry in Hstep. rewrite Hm in Hstep.
  destruct val as [ | | b | n | s | items | ps ]; cbv iota in Hstep;
    try (injection Hstep as <-; exact Hlk).
  destruct (mapM Part000.idPair items) as [pairs|] eqn:E; cbn [bind] in Hstep;
      [|discriminate Hstep].
    injection Hstep as <-. rewrite (mapM_idPair _ _ E) in Hlk.
    exists (map idPairOf items). split; [exact Hlk|]. split; [apply length_map|].
    intros i item Hi. rewrite nth_error_map, Hi. reflexivity.
Qed.

Lemma sanitize_media_reference_only_witness :
  well_formed photoUpdate = true /\ sanitizable photoUpdate = true /\
  exists out,
    Part000.sanitizeUpdate photoUpdate 500 = Ok out /\
    exists outp pairs,
      reach out [Key "message"] = Some (VObj outp) /\
      lookup "photo" outp = Some (VArr pairs) /\
      List.length pairs = 2%nat /\
      nth_error pairs 1
      = Some (VObj [ ("file_id", member (photoSize "A2" "u2" 320 200 20000) "file_id");
                     ("file_unique_id",
                      member (photoSize "A2" "u2" 320 200 20000) "file_unique_id") ]).
Proof.
  split; [reflexivity|]. split; [reflexivity|].
  destruct (sanitize_media_reference_only photoUpdate 500 eq_refl eq_refl)
    as (out & Hout & Hall).
  exists out. split; [exact Hout|].
  destruct (Hall [Key "message"] _ "photo" _ eq_refl
              ltac:(now left) ltac:(do 4 right; now left))
    as (outp & Ho & pairs & Hl & Hlen & Hnth).
  exists outp, pairs. split; [exact Ho|]. split; [exact Hl|]. split; [exact Hlen|].
  apply (Hnth 1%nat). reflexivity.
Defined.

(** C6 fails inside an identifier: the sanitizer copies [file_id] as it is,
    so a media-like field that is inside it keeps its sub-field [w]. *)
Lemma sanitize_keeps_fields_inside_identifier :
  In "photo"%string mediaLikeFields /\
  Part000.sanitizeUpdate nestedPhoto 500
  = Ok (VObj [ ("photo", VObj [ ("file_id", VObj [("photo", VObj [("w", VNum 1)])]);
                                ("file_unique_id", VUndef) ]) ]).
Proof. split; [now left | reflexivity]. Qed.

(** A media-like field that holds a string is cut like any string. *)
Example sanitize_media_string :
  Part000.sanitizeUpdate (VObj [("photo", VStr "a text that is longer than the bound")]) 10
  = Ok (VObj [("photo", VStr "a text tha...[truncated]")]).
Proof. reflexivity. Qed.

End Walk.
(* ===================================================================== *)
(** ** What the pruners remove *)
(* ===================================================================== *)

Section Removal.

Lemma filter_nil_iff {A} (p : A -> bool) (l : list A) :
  filter p l = [] <-> forall x, In x l -> p x = false.
Proof.
  induction l as [|a r IH]; simpl.
  - split; [intros _ ? [] | reflexivity].
  - destruct (p a) eqn:E.
    + split; [discriminate|]. intros H. rewrite (H a (or_introl eq_refl)) in E. discriminate E.
    + rewrite IH. split.
      * intros H x [<-|Hx]; [exact E | now apply H].
      * intros H x Hx. apply H. now right.
Qed.

(** index.js gives [null] for an object exactly when it keeps none of its
    keys. *)
Lemma Index_removeNulls_null (props : props_t) :
  NoDup (keys props) ->
  (Index.removeNulls (VObj props) = VNull <->
   forall key val, In (key, val) props ->
     nullish (Index.removeNulls val) || isEmptyArray (Index.removeNulls val) = true).
Proof.
  intros Hnd. cbn [Index.removeNulls].
  rewrite fromEntries_distinct
    by (apply keys_filter_NoDup; now rewrite keys_map_snd).
  unfold keys at 1. rewrite length_map.
  destruct (filter _ _) as [|kv rest] eqn:E.
  - split; [|reflexivity]. intros _ key val Hin.
    rewrite filter_nil_iff in E.
    specialize (E (key, Index.removeNulls val)). cbn [snd] in E.
    assert (In (key, Index.removeNulls val)
               (map (fun kv => (fst kv, Index.removeNulls (snd kv))) props)) as Hin'.
    { apply in_map_iff. now exists (key, val). }
    specialize (E Hin').
    destruct (nullish (Index.removeNulls val)), (isEmptyArray (Index.removeNulls val));
      try reflexivity; discriminate E.
  - split; [cbn; discriminate|]. intros H. exfalso.
    assert (In kv (kv :: rest)) as Hin by now left.
    rewrite <- E in Hin. apply filter_In in Hin. destruct Hin as [Hin Hp].
    apply in_map_iff in Hin. destruct Hin as ([k v] & <- & Hin). cbn [fst snd] in Hp.
    specialize (H k v Hin).
    destruct (nullish (Index.removeNulls v)), (isEmptyArray (Index.removeNulls v));
      discriminate.
Qed.

(** Reading a field of the object under a key of a pruned object
    (index.js). *)
Lemma Index_removeNulls_member_field (l pl : props_t) (k f : string) :
  NoDup (keys l) -> NoDup (keys pl) ->
  lookup k l = Some (VObj pl) ->
  member (member (Index.removeNulls (VObj l)) k) f
  = (let pruned := Index.removeNulls (member (VObj pl) f) in
     if nullish pruned || isEmptyArray pruned then VUndef else pruned).
Proof.
  intros Hl Hpl Hk. rewrite (Index_removeNulls_member l k Hl), Hk. cbv zeta.
  destruct (Index.removeNulls (VObj pl)) as [ | | | | | |cleaned] eqn:E;
    try (exfalso; cbn [Index.removeNulls] in E; destruct (0 <? _); discriminate E).
  - cbn [nullish negb andb member].
    pose proof (proj1 (Index_removeNulls_null pl Hpl) E) as Hall.
    destruct (lookup f pl) as [v|] eqn:Hf; [|reflexivity].
    now rewrite (Hall f v (lookup_Some_In _ _ _ Hf)).
  - cbn [nullish isEmptyArray negb andb]. rewrite <- E.
    rewrite (Index_removeNulls_member pl f Hpl). cbn [member]. cbv zeta.
    destruct (lookup f pl) as [v|]; [|reflexivity].
    now destruct (nullish (Index.removeNulls v)), (isEmptyArray (Index.removeNulls v)).
Qed.

(** C10, as the code has it.  Neither pruner removes a scalar other than
    [null] and [undefined]: in every tree (one whose objects list each key
    once) the scalars that are not [null] or [undefined] -- [0], [false]
    and the empty string among them -- are found unchanged in the pruned
    tree, under the same keys and in the same order, at every depth.  What
    is removed: part_000 removes the keys whose value is [null] or
    [undefined], and no element of an array; index.js removes the keys
    whose pruned value is [null], [undefined] or an empty array, the
    elements of an array whose pruned value is [null] or [undefined], and
    prunes to [null] an object of which it keeps no key. *)
Theorem removeNulls_keeps_scalars (x : value) :
  well_formed x = true ->
  leaves (Index.removeNulls x) = leaves x /\
  leaves (Part000.removeNulls x) = leaves x /\
  (forall props key,
     x = VObj props ->
     member (Part000.removeNulls x) key
     = (if nullish (member x key) then VUndef else Part000.removeNulls (member x key)) /\
     member (Index.removeNulls x) key
     = (let pruned := Index.removeNulls (member x key) in
        if nullish pruned || isEmptyArray pruned then VUndef else pruned)) /\
  (forall props,
     x = VObj props ->
     (Index.removeNulls x = VNull <->
      forall key val, In (key, val) props ->
        nullish (Index.removeNulls val) || isEmptyArray (Index.removeNulls val) = true)) /\
  (forall items,
     x = VArr items ->
     Part000.removeNulls x = VArr (map Part000.removeNulls items) /\
     Index.removeNulls x
     = VArr (filter (fun v => negb (nullish v)) (map Index.removeNulls items))).
Proof.
  intros Hwf.
  split; [now apply Index_removeNulls_leaves|].
  split; [now apply Part000_removeNulls_leaves|].
  split; [|split].
  - intros props key ->. cbn [well_formed] in Hwf. apply andb_true_iff in Hwf.
    destruct Hwf as [Hd _]. apply distinct_NoDup in Hd. split.
    + rewrite Part000_removeNulls_member by exact Hd. cbn [member].
      destruct (lookup key props) as [v|]; reflexivity.
    + rewrite Index_removeNulls_member by exact Hd. cbn [member]. cbv zeta.
      destruct (lookup key props) as [v|]; [|reflexivity].
      now destruct (nullish (Index.removeNulls v)), (isEmptyArray (Index.removeNulls v)).
  - intros props ->. cbn [well_formed] in Hwf. apply andb_true_iff in Hwf.
    destruct Hwf as [Hd _]. apply distinct_NoDup in Hd.
    now apply Index_removeNulls_null.
  - intros items ->. split; reflexivity.
Qed.

Lemma removeNulls_keeps_scalars_witness :
  well_formed sampleTree = true /\
  leaves (Index.removeNulls sampleTree) = leaves sampleTree /\
  leaves (Part000.removeNulls sampleTree) = leaves sampleTree /\
  member (Index.removeNulls sampleTree) "a" = VNum 0 /\
  member (Part000.removeNulls sampleTree) "g" = VArr [].
Proof.
  split; [reflexivity|].
  destruct (removeNulls_keeps_scalars sampleTree eq_refl) as (Hi & Hp & Hkey & _).
  split; [exact Hi|]. split; [exact Hp|].
  destruct (Hkey _ "a" eq_refl) as [_ Ha]. destruct (Hkey _ "g" eq_refl) as [Hg _].
  split; [exact Ha | exact Hg].
Defined.

(** C10 fails on index.js: its pruner removes the key [g], whose value is
    an empty array, and the key [e], whose value is an object -- neither is
    [null] or [undefined]. *)
Lemma removeNulls_index_drops_empty_values :
  member sampleTree "g" = VArr [] /\
  member sampleTree "e" = VObj [("f", VUndef)] /\
  Index.removeNulls sampleTree
  = VObj [("a", VNum 0); ("b", VArr [VBool false; VObj [("c", VStr EmptyString)]])].
Proof. repeat split. Qed.

End Removal.

(* ===================================================================== *)
(** ** The snapshot of the update *)
(* ===================================================================== *)

Section Snapshot.

(** The test of line 360 is the test of the four financial categories. *)
Lemma financial_named (eventType : string) :
  Legacy.financial eventType = true <-> In eventType financialCategories.
Proof.
  unfold Legacy.financial, financialCategories. rewrite !orb_true_iff, !String.eqb_eq.
  simpl. intuition congruence.
Qed.

Lemma not_financial_named (eventType : string) :
  ~ In eventType financialCategories -> Legacy.financial eventType = false.
Proof.
  intros H. destruct (Legacy.financial eventType) eqn:E; [|reflexivity].
  exfalso. apply H. now apply financial_named.
Qed.

(** C8, as the code has it.  In the second document of index.js, for an
    event of a financial category -- successful_payment, invoice,
    pre_checkout_query, shipping_query -- the [raw_update] of the record is
    the whole serialised update, not cut, and the payment sub-record holds
    the fields of the update as they are (a field that is an object, pruned
    like the rest of the record); for an event of any other
    category [raw_update] is the serialised update cut to its first 500
    code units, a constant: this document takes no bound.  Where a bound is
    configured -- [maxTextLength], in the first document of index.js and in
    part_000 -- the snapshot is not cut to it.  The context reads
    [message], [preCheckoutQuery] and [shippingQuery] off the update, as
    Telegraf's does. *)
Theorem financial_snapshot (ctx : context) (bot : value) (now : Z)
    (eventType : string) (p : value) :
  let update := prop ctx "update" in
  prop ctx "message" = member update "message" ->
  prop ctx "preCheckoutQuery" = member update "pre_checkout_query" ->
  prop ctx "shippingQuery" = member update "shipping_query" ->
  Legacy.detectEventType ctx = Ok eventType ->
  Legacy.payload ctx bot now = Ok p ->
  exists record serialized,
    Legacy.safeCtx ctx bot now = Ok record /\
    JSON_stringify update = VStr serialized /\
    (In eventType financialCategories ->
       member record "raw_update" = VStr serialized /\
       member p "payment" = expectedPayment update eventType /\
       (forall field,
          scalar (member (expectedPayment update eventType) field) = true ->
          member (member record "payment") field
          = member (expectedPayment update eventType) field) /\
       (forall field,
          member (member record "payment") field
          = (let pruned :=
               Legacy.removeNulls (member (expectedPayment update eventType) field) in
             if nullish pruned || isEmptyArray pruned then VUndef else pruned))) /\
    (~ In eventType financialCategories ->
       (truthy update = true ->
          member record "raw_update" = VStr (str_slice serialized 0 500) /\
          Z.of_nat (String.length (str_slice serialized 0 500))
          = Z.min 500 (Z.of_nat (String.length serialized))) /\
       (truthy update = false -> member record "raw_update" = VUndef)) /\
    (truthy update = true ->
       forall maxTextLength,
         member (Index.safeCtx ctx bot true maxTextLength) "raw_update" = VStr serialized /\
         (forall sanitized,
            Part000.sanitizeUpdate update maxTextLength = Ok sanitized ->
            exists r,
              Part000.safeCtx ctx bot true maxTextLength = Ok r /\
              member r "raw_update" = JSON_stringify sanitized)).
Proof.
  intros update Hmsg Hpcq Hsq Hd Hp.
  destruct (payload_inv ctx bot now eventType p Hd Hp)
    as (l & pay & -> & Hdist & Hpay & Hlpay & Hlraw & _).
  apply distinct_NoDup in Hdist.
  assert (nullish update = false) as Hu.
  { unfold Legacy.detectEventType in Hd. cbv zeta in Hd. fold update in Hd.
    unfold get in Hd. destruct (nullish update); [discriminate Hd | reflexivity]. }
  destruct (JSON_stringify_defined update) as [ser Hser].
  { intros E. rewrite E in Hu. discriminate Hu. }
  exists (Index.removeNulls (VObj l)), ser. split.
  { unfold Legacy.safeCtx. rewrite Hp. reflexivity. }
  split; [exact Hser|]. split; [|split].
  - intros Hin. apply financial_named in Hin. rename Hin into Hf.
    assert (Legacy.raw_update ctx eventType = VStr ser) as Hraw.
    { unfold Legacy.raw_update. rewrite Hf. fold update. now rewrite Hser. }
    rewrite Hraw in Hlraw.
    split; [now apply Index_removeNulls_member_scalar|].
    rewrite (payment_financial ctx eventType Hmsg Hpcq Hsq Hd Hf) in Hpay.
    inversion Hpay; subst pay. fold update in Hlpay.
    assert (member (VObj l) "payment" = expectedPayment update eventType) as Hmp.
    { simpl. now rewrite Hlpay. }
    split; [exact Hmp|].
    assert (exists pl, expectedPayment update eventType = VObj pl /\ NoDup (keys pl))
      as (pl & Hpl & Hnd).
    { unfold expectedPayment. cbv zeta.
      repeat match goal with |- context [if ?c then _ else _] => destruct c end;
        eexists; (split; [reflexivity|]); apply distinct_NoDup; reflexivity. }
    rewrite Hpl in *. split.
    + intros field Hs. now apply Index_removeNulls_member_nested.
    + intros field. now apply Index_removeNulls_member_field.
  - intros Hnot. apply not_financial_named in Hnot. rename Hnot into Hf. split.
    + intros Ht.
      assert (Legacy.raw_update ctx eventType = VStr (str_slice ser 0 500)) as Hraw.
      { unfold Legacy.raw_update. rewrite Hf. fold update. now rewrite Ht, Hser. }
      rewrite Hraw in Hlraw.
      split; [now apply Index_removeNulls_member_scalar|].
      rewrite str_slice_0_length; lia.
    + intros Ht.
      assert (Legacy.raw_update ctx eventType = VNull) as Hraw.
      { unfold Legacy.raw_update. rewrite Hf. fold update. now rewrite Ht. }
      rewrite Hraw in Hlraw.
      rewrite (Index_removeNulls_member l "raw_update" Hdist), Hlraw. reflexivity.
  - intros Ht maxTextLength. split.
    + unfold Index.safeCtx.
      destruct (Index_payload_keys ctx bot true maxTextLength) as (il & Hil & Hnd).
      rewrite Hil. apply Index_removeNulls_member_scalar; [exact Hnd| |reflexivity].
      unfold Index.payload, Index.payload_with in Hil. inversion Hil; subst il.
      cbn [lookup String.eqb Ascii.eqb Bool.eqb].
      unfold Index.raw_update_with, stringify_tree. fold update. now rewrite Ht, Hser.
    + intros sanitized Hs.
      destruct (Part000_payload_keys ctx bot true maxTextLength)
        as (pl & Hpl & Hnd & Hraw & _).
      unfold Part000.safeCtx. rewrite Hpl. cbn [bind]. eexists. split; [reflexivity|].
      rewrite Part000_removeNulls_member by exact Hnd. rewrite Hraw.
      unfold Part000.raw_update, Part000.raw_update_with, stringify_tree.
      fold update. rewrite Hs. cbn [bind try_catch].
      unfold JSON_stringify. destruct (serialize sanitized); reflexivity.
Qed.

Lemma financial_snapshot_witness :
  In "successful_payment"%string financialCategories /\
  exists record serialized,
    Legacy.safeCtx longPaymentCtx sampleBot 1700000005123 = Ok record /\
    JSON_stringify (prop longPaymentCtx "update") = VStr serialized /\
    500 < Z.of_nat (String.length serialized) /\
    member record "raw_update" = VStr serialized /\
    member (member record "payment") "invoice_payload" = VStr longText.
Proof.
  split; [now left|].
  destruct (financial_snapshot longPaymentCtx sampleBot 1700000005123 "successful_payment" _
              eq_refl eq_refl eq_refl eq_refl eq_refl)
    as (record & serialized & Hs & Hser & Hfin & _).
  destruct (Hfin ltac:(now left)) as (Hraw & _ & Hfields & _).
  exists record, serialized.
  split; [exact Hs|]. split; [exact Hser|]. split; [|split; [exact Hraw|]].
  - vm_compute in Hser. injection Hser as <-. vm_compute. reflexivity.
  - rewrite (Hfields "invoice_payload" eq_refl). reflexivity.
Defined.

(** C8 fails on the bound: the record of a long text message, which is not
    of a financial category.  In the second document of index.js the text
    is cut to 200 code units and the snapshot to 500, neither of them
    configured; in the first document, with 5 for [maxTextLength], the text
    has 5 code units and the snapshot has them all. *)
Lemma snapshot_not_cut_to_configured_bound :
  Legacy.detectEventType longTextCtx = Ok "text_message"%string /\
  ~ In "text_message"%string financialCategories /\
  (exists record text snapshot,
     Legacy.safeCtx longTextCtx sampleBot 1700000006123 = Ok record /\
     member record "message" = VStr text /\ Z.of_nat (String.length text) = 200 /\
     member record "raw_update" = VStr snapshot /\
     Z.of_nat (String.length snapshot) = 500) /\
  (exists text snapshot,
     member (Index.safeCtx longTextCtx sampleBot true 5) "message" = VStr text /\
     Z.of_nat (String.length text) = 5 /\
     member (Index.safeCtx longTextCtx sampleBot true 5) "raw_update" = VStr snapshot /\
     JSON_stringify (prop longTextCtx "update") = VStr snapshot /\
     5 < Z.of_nat (String.length snapshot)).
Proof.
  split; [reflexivity|]. split.
  { intros H. repeat (destruct H as [H|H]; [discriminate H|]). exact H. }
  split.
  - eexists. eexists. eexists. split; [vm_compute; reflexivity|].
    split; [vm_compute; reflexivity|]. split; [vm_compute; reflexivity|].
    split; vm_compute; reflexivity.
  - eexists. eexists. split; [vm_compute; reflexivity|].
    split; [vm_compute; reflexivity|]. split; [vm_compute; reflexivity|].
    split; vm_compute; reflexivity.
Qed.

End Snapshot.
(* ===================================================================== *)
(** ** Recovery where the snapshot is built *)
(* ===================================================================== *)

Section Recovery.

Variable stringify0 : serializer.








End Recovery.


(* ===================================================================== *)
(** ** Further properties: the order of the tests on a message *)
(* ===================================================================== *)

(** X18. The first test that passes decides within a message too, in the
    second document of index.js: when [update.message] is truthy the tag is
    that of the first truthy key of the message, in the order
    successful_payment, invoice, text, photo, video, document, audio,
    voice, sticker, poll, contact, location, and ["message"] when none is. *)
Theorem Legacy_message_first_match (ctx : context)
    (pre post : list (string * string)) (key tag : string) :
  let message := member (prop ctx "update") "message" in
  truthy message = true ->
  messageOrder = pre ++ (key, tag) :: post ->
  (Legacy.detectEventType ctx = Ok tag <->
   truthy (member message key) = true /\
   forall k, In k (map fst pre) -> truthy (member message k) = false) /\
  (Legacy.detectEventType ctx = Ok "message"%string <->
   forall k, In k (map fst messageOrder) -> truthy (member message k) = false).
Proof.
  intros message Hm Hrules.
  assert (nullish (prop ctx "update") = false) as Hu.
  { destruct (prop ctx "update"); try reflexivity; discriminate Hm. }
  pose proof (truthy_not_nullish _ Hm) as Hn.
  assert (Legacy.detectEventType ctx = firstMatch message messageOrder "message") as ->.
  { unfold Legacy.detectEventType. cbv zeta. unfold get. rewrite Hu. cbn [bind].
    fold message. rewrite Hm. reflexivity. }
  split.
  - rewrite Hrules. apply (firstMatch_priority message Hn). rewrite <- Hrules.
    apply distinct_NoDup. reflexivity.
  - apply (firstMatch_otherwise message Hn). apply distinct_NoDup. reflexivity.
Qed.

Lemma Legacy_message_first_match_witness :
  Legacy.detectEventType photoLocationCtx = Ok "photo_message"%string <->
  truthy (member (member (prop photoLocationCtx "update") "message") "photo") = true /\
  forall k, In k (map fst [("successful_payment", "successful_payment");
                           ("invoice", "invoice");
                           ("text", "text_message")]) ->
            truthy (member (member (prop photoLocationCtx "update") "message") k) = false.
Proof.
  exact (proj1 (Legacy_message_first_match photoLocationCtx
                  [("successful_payment", "successful_payment");
                   ("invoice", "invoice");
                   ("text", "text_message")]%string _
                  "photo" "photo_message" eq_refl eq_refl)).
Defined.

(** The photo is tested before the location. *)
Example photo_before_location :
  Legacy.detectEventType photoLocationCtx = Ok "photo_message"%string.
Proof. reflexivity. Qed.
